(** * Dynx: reactive cells with dynamic subscription

    A shallow embedding of [src/dynx.js] (the typed-lifecycle [Dynx] class)
    and of the conditional combinator of [src/DynxTransform.js].

    JavaScript objects live in a heap: a cell reference is an index into
    [cells], an [updateHandle] closure is an index into [handles] (it
    carries the mutable [obsolete] flag), and the [_ifThens] arrays of the
    conditional combinators are indices into [arrays] (they are shared by
    reference between a combinator and the one re-created from it).
    The statics [Dynx.childStack], [Dynx.updatesQueue],
    [Dynx.updatesInProgress], ... are fields of the global [State].

    Effects are explicit: every method is a function [State -> Result * State];
    a JavaScript exception is the outcome [RThrow], and the state reached
    when it was thrown is kept (the source has no try/finally).  The
    mutually recursive [update] / listener dispatch is defined by
    recursion on a fuel argument; [RFuel] marks its exhaustion. *)

From stdpp Require Import base list strings option.
From Stdlib Require Import ZArith Lia.

Local Open Scope Z_scope.
Local Open Scope nat_scope.

(** ** Values and types *)

(** [DynxType]: STATIC: 0, DYNAMIC: 1, INVALID: 2, INHERIT: 3. *)
Inductive DynxType := STATIC | DYNAMIC | INVALID | INHERIT.

#[global] Instance DynxType_eq_dec : EqDecision DynxType.
Proof. solve_decision. Defined.

Definition type_code (t : DynxType) : Z :=
  match t with STATIC => 0 | DYNAMIC => 1 | INVALID => 2 | INHERIT => 3 end%Z.

(** [Math.max] on two type codes. *)
Definition type_max (a b : DynxType) : DynxType :=
  if (type_code a <? type_code b)%Z then b else a.

(** The JavaScript values a cell may hold: primitives only, so that [===]
    is structural equality (numbers are integers: no NaN, no -0). *)
Inductive Value :=
| VUndef
| VBool (b : bool)
| VNum (z : Z)
| VStr (s : string)
| VSym (s : string).

#[global] Instance Value_eq_dec : EqDecision Value.
Proof. solve_decision. Defined.

(** [a === b] *)
Definition strict_eq (a b : Value) : bool := bool_decide (a = b).

(** [Boolean(v)] *)
Definition truthy (v : Value) : bool :=
  match v with
  | VUndef => false
  | VBool b => b
  | VNum z => negb (z =? 0)%Z
  | VStr s => negb (bool_decide (s = EmptyString))
  | VSym _ => true
  end.

(** [Symbol('invalid')], the sentinel of the other variant of the library
    ([src/src/dynx.js]); [src/dynx.js] declares no such value. *)
Definition INVALID_SENTINEL : Value := VSym "invalid".

Inductive Error :=
| ErrStaticModify      (* '[Dynx] Cannot modify a static Dynx.' *)
| ErrStaticValue       (* '[Dynx] Cannot change the value of a static Dynx.' *)
| ErrExpNotFunction    (* '[Dynx] Exp must be a function, not ...' *)
| ErrUser (msg : string)   (* thrown by an expression or a filter *)
| ErrType              (* a TypeError of the runtime: member of undefined *)
| ErrBadRef.           (* a reference outside the heap: no JavaScript counterpart *)

#[global] Instance Error_eq_dec : EqDecision Error.
Proof. solve_decision. Defined.

(** The errors the specification calls FrozenMutationError. *)
Definition is_frozen_error (e : Error) : bool :=
  match e with ErrStaticModify | ErrStaticValue => true | _ => false end.

(** ** Functions held by cells *)

(** An expression or filter body: a computation that reads cells (through
    the [value] getter), returns or throws.  Pure work on the values read
    is the Rocq function in [Read]. *)
Inductive Prog :=
| Ret (v : Value)
| Throw (msg : string)
| Read (c : nat) (k : Value -> Prog).

(** What [this[EXP]] may hold: a user function, or the closure that
    [createBasicCond] installs, which captures [parentDynx]. *)
Inductive Exp :=
| EFun (p : Prog)
| ECond (parentDynx : nat).

(** A filter function; [fid] is its identity as a function object. *)
Record Filter := { fid : nat; fbody : Value -> Prog }.

(** A listener: the [updateHandle] closure [() => this.update()] of some
    cell (by handle reference), a user callback (observed through the
    trace it writes to), or [undefined] pushed as a listener. *)
Inductive Listener :=
| LHandle (h : nat)
| LUser (tag : nat)
| LUndef.

#[global] Instance Listener_eq_dec : EqDecision Listener.
Proof. solve_decision. Defined.

Inductive Group := preupdates | updates | postupdates | typeChanges.

#[global] Instance Group_eq_dec : EqDecision Group.
Proof. solve_decision. Defined.

(** One [{condition, then}] entry of a conditional. *)
Record IfThen := { condition : Value -> bool; then_ : Value }.

(** The variables captured by the [cond.if] / [cond.else] closures of
    [createBasicCond(parentDynx, _ifThens, _elseThen)]. *)
Record CondEnv := {
  env_parentDynx : nat;
  env_ifThens : nat;
  env_elseThen : Value }.

(** ** Heap objects *)

Record Cell := {
  VALUE : Value;
  TYPE : DynxType;
  EXP : option Exp;
  pendingType : option DynxType;
  updateHandle : option nat;
  g_preupdates : option (list Listener);
  filters : option (list Filter);
  g_updates : option (list Listener);
  g_postupdates : option (list Listener);
  g_typeChanges : option (list Listener);
  _ifThens : option nat;
  _elseThen : Value;
  condEnv : option CondEnv }.

Record Handle := { owner : nat; obsolete : bool }.

(** [() => listener.call(this)] *)
Definition Thunk : Type := Listener * nat.

Inductive Event :=
| EvCall (tag : nat) (this : nat).   (* user callback [tag] called on [this] *)

#[global] Instance Event_eq_dec : EqDecision Event.
Proof. solve_decision. Defined.

Record State := {
  cells : list Cell;
  handles : list Handle;
  arrays : list (list IfThen);
  childStack : list (option nat);        (* head = top *)
  updatesQueue : option (list Thunk);
  updatesInProgress : bool;
  typeChangesQueue : option (list Thunk);
  typeChangesInProgress : bool;
  trace : list Event;                    (* calls of user callbacks, oldest first *)
  console : list string }.               (* console.error lines *)

Definition empty_state : State :=
  {| cells := []; handles := []; arrays := []; childStack := [];
     updatesQueue := None; updatesInProgress := false;
     typeChangesQueue := None; typeChangesInProgress := false;
     trace := []; console := [] |}.

(** *** Field updates *)

Definition set_VALUE (v : Value) (x : Cell) : Cell :=
  {| VALUE := v; TYPE := TYPE x; EXP := EXP x; pendingType := pendingType x;
     updateHandle := updateHandle x; g_preupdates := g_preupdates x;
     filters := filters x; g_updates := g_updates x;
     g_postupdates := g_postupdates x; g_typeChanges := g_typeChanges x;
     _ifThens := _ifThens x; _elseThen := _elseThen x; condEnv := condEnv x |}.

Definition set_TYPE (t : DynxType) (x : Cell) : Cell :=
  {| VALUE := VALUE x; TYPE := t; EXP := EXP x; pendingType := pendingType x;
     updateHandle := updateHandle x; g_preupdates := g_preupdates x;
     filters := filters x; g_updates := g_updates x;
     g_postupdates := g_postupdates x; g_typeChanges := g_typeChanges x;
     _ifThens := _ifThens x; _elseThen := _elseThen x; condEnv := condEnv x |}.

Definition set_EXP (e : option Exp) (x : Cell) : Cell :=
  {| VALUE := VALUE x; TYPE := TYPE x; EXP := e; pendingType := pendingType x;
     updateHandle := updateHandle x; g_preupdates := g_preupdates x;
     filters := filters x; g_updates := g_updates x;
     g_postupdates := g_postupdates x; g_typeChanges := g_typeChanges x;
     _ifThens := _ifThens x; _elseThen := _elseThen x; condEnv := condEnv x |}.

Definition set_pendingType (p : option DynxType) (x : Cell) : Cell :=
  {| VALUE := VALUE x; TYPE := TYPE x; EXP := EXP x; pendingType := p;
     updateHandle := updateHandle x; g_preupdates := g_preupdates x;
     filters := filters x; g_updates := g_updates x;
     g_postupdates := g_postupdates x; g_typeChanges := g_typeChanges x;
     _ifThens := _ifThens x; _elseThen := _elseThen x; condEnv := condEnv x |}.

Definition set_updateHandle (h : option nat) (x : Cell) : Cell :=
  {| VALUE := VALUE x; TYPE := TYPE x; EXP := EXP x; pendingType := pendingType x;
     updateHandle := h; g_preupdates := g_preupdates x;
     filters := filters x; g_updates := g_updates x;
     g_postupdates := g_postupdates x; g_typeChanges := g_typeChanges x;
     _ifThens := _ifThens x; _elseThen := _elseThen x; condEnv := condEnv x |}.

Definition set_filters (f : option (list Filter)) (x : Cell) : Cell :=
  {| VALUE := VALUE x; TYPE := TYPE x; EXP := EXP x; pendingType := pendingType x;
     updateHandle := updateHandle x; g_preupdates := g_preupdates x;
     filters := f; g_updates := g_updates x;
     g_postupdates := g_postupdates x; g_typeChanges := g_typeChanges x;
     _ifThens := _ifThens x; _elseThen := _elseThen x; condEnv := condEnv x |}.

(** [this[group]] and [this[group] = ls] / [delete this[group]] *)
Definition get_group (g : Group) (x : Cell) : option (list Listener) :=
  match g with
  | preupdates => g_preupdates x
  | updates => g_updates x
  | postupdates => g_postupdates x
  | typeChanges => g_typeChanges x
  end.

Definition set_group (g : Group) (ls : option (list Listener)) (x : Cell) : Cell :=
  {| VALUE := VALUE x; TYPE := TYPE x; EXP := EXP x; pendingType := pendingType x;
     updateHandle := updateHandle x;
     g_preupdates := if decide (g = preupdates) then ls else g_preupdates x;
     filters := filters x;
     g_updates := if decide (g = updates) then ls else g_updates x;
     g_postupdates := if decide (g = postupdates) then ls else g_postupdates x;
     g_typeChanges := if decide (g = typeChanges) then ls else g_typeChanges x;
     _ifThens := _ifThens x; _elseThen := _elseThen x; condEnv := condEnv x |}.

Definition set_ifThens (a : option nat) (x : Cell) : Cell :=
  {| VALUE := VALUE x; TYPE := TYPE x; EXP := EXP x; pendingType := pendingType x;
     updateHandle := updateHandle x; g_preupdates := g_preupdates x;
     filters := filters x; g_updates := g_updates x;
     g_postupdates := g_postupdates x; g_typeChanges := g_typeChanges x;
     _ifThens := a; _elseThen := _elseThen x; condEnv := condEnv x |}.

Definition set_elseThen (v : Value) (x : Cell) : Cell :=
  {| VALUE := VALUE x; TYPE := TYPE x; EXP := EXP x; pendingType := pendingType x;
     updateHandle := updateHandle x; g_preupdates := g_preupdates x;
     filters := filters x; g_updates := g_updates x;
     g_postupdates := g_postupdates x; g_typeChanges := g_typeChanges x;
     _ifThens := _ifThens x; _elseThen := v; condEnv := condEnv x |}.

Definition set_condEnv (e : option CondEnv) (x : Cell) : Cell :=
  {| VALUE := VALUE x; TYPE := TYPE x; EXP := EXP x; pendingType := pendingType x;
     updateHandle := updateHandle x; g_preupdates := g_preupdates x;
     filters := filters x; g_updates := g_updates x;
     g_postupdates := g_postupdates x; g_typeChanges := g_typeChanges x;
     _ifThens := _ifThens x; _elseThen := _elseThen x; condEnv := e |}.

Definition with_cells (f : list Cell -> list Cell) (s : State) : State :=
  {| cells := f (cells s); handles := handles s; arrays := arrays s;
     childStack := childStack s;
     updatesQueue := updatesQueue s; updatesInProgress := updatesInProgress s;
     typeChangesQueue := typeChangesQueue s;
     typeChangesInProgress := typeChangesInProgress s;
     trace := trace s; console := console s |}.

Definition with_handles (f : list Handle -> list Handle) (s : State) : State :=
  {| cells := cells s; handles := f (handles s); arrays := arrays s;
     childStack := childStack s;
     updatesQueue := updatesQueue s; updatesInProgress := updatesInProgress s;
     typeChangesQueue := typeChangesQueue s;
     typeChangesInProgress := typeChangesInProgress s;
     trace := trace s; console := console s |}.

Definition with_arrays (f : list (list IfThen) -> list (list IfThen)) (s : State) : State :=
  {| cells := cells s; handles := handles s; arrays := f (arrays s);
     childStack := childStack s;
     updatesQueue := updatesQueue s; updatesInProgress := updatesInProgress s;
     typeChangesQueue := typeChangesQueue s;
     typeChangesInProgress := typeChangesInProgress s;
     trace := trace s; console := console s |}.

Definition with_childStack (f : list (option nat) -> list (option nat)) (s : State) : State :=
  {| cells := cells s; handles := handles s; arrays := arrays s;
     childStack := f (childStack s);
     updatesQueue := updatesQueue s; updatesInProgress := updatesInProgress s;
     typeChangesQueue := typeChangesQueue s;
     typeChangesInProgress := typeChangesInProgress s;
     trace := trace s; console := console s |}.

Definition with_trace (f : list Event -> list Event) (s : State) : State :=
  {| cells := cells s; handles := handles s; arrays := arrays s;
     childStack := childStack s;
     updatesQueue := updatesQueue s; updatesInProgress := updatesInProgress s;
     typeChangesQueue := typeChangesQueue s;
     typeChangesInProgress := typeChangesInProgress s;
     trace := f (trace s); console := console s |}.

Definition with_console (f : list string -> list string) (s : State) : State :=
  {| cells := cells s; handles := handles s; arrays := arrays s;
     childStack := childStack s;
     updatesQueue := updatesQueue s; updatesInProgress := updatesInProgress s;
     typeChangesQueue := typeChangesQueue s;
     typeChangesInProgress := typeChangesInProgress s;
     trace := trace s; console := f (console s) |}.

(** [CALL_LISTENERS(name)] is only ever called with 'updates' and
    'typeChanges'; [Dynx[name + 'Queue']] and [Dynx[name + 'InProgress']]
    are the statics of that name. *)
Inductive QName := QUpdates | QTypeChanges.

#[global] Instance QName_eq_dec : EqDecision QName.
Proof. solve_decision. Defined.

Definition qgroup (q : QName) : Group :=
  match q with QUpdates => updates | QTypeChanges => typeChanges end.

Definition get_queue (q : QName) (s : State) : option (list Thunk) :=
  match q with
  | QUpdates => updatesQueue s
  | QTypeChanges => typeChangesQueue s
  end.

Definition get_progress (q : QName) (s : State) : bool :=
  match q with
  | QUpdates => updatesInProgress s
  | QTypeChanges => typeChangesInProgress s
  end.

Definition with_queue (q : QName) (v : option (list Thunk)) (s : State) : State :=
  {| cells := cells s; handles := handles s; arrays := arrays s;
     childStack := childStack s;
     updatesQueue := if decide (q = QUpdates) then v else updatesQueue s;
     updatesInProgress := updatesInProgress s;
     typeChangesQueue := if decide (q = QTypeChanges) then v else typeChangesQueue s;
     typeChangesInProgress := typeChangesInProgress s;
     trace := trace s; console := console s |}.

Definition with_progress (q : QName) (b : bool) (s : State) : State :=
  {| cells := cells s; handles := handles s; arrays := arrays s;
     childStack := childStack s;
     updatesQueue := updatesQueue s;
     updatesInProgress := if decide (q = QUpdates) then b else updatesInProgress s;
     typeChangesQueue := typeChangesQueue s;
     typeChangesInProgress := if decide (q = QTypeChanges) then b else typeChangesInProgress s;
     trace := trace s; console := console s |}.

(** ** The state-and-exception monad *)

Inductive Result (A : Type) :=
| ROk (a : A)
| RThrow (e : Error)
| RFuel.
Arguments ROk {A} a.
Arguments RThrow {A} e.
Arguments RFuel {A}.

Definition M (A : Type) : Type := State -> Result A * State.

Definition ret {A} (a : A) : M A := fun s => (ROk a, s).
Definition throw {A} (e : Error) : M A := fun s => (RThrow e, s).
Definition out_of_fuel {A} : M A := fun s => (RFuel, s).

Definition bind {A B} (m : M A) (f : A -> M B) : M B :=
  fun s =>
    match m s with
    | (ROk a, s') => f a s'
    | (RThrow e, s') => (RThrow e, s')
    | (RFuel, s') => (RFuel, s')
    end.

#[global] Instance M_ret : MRet M := @ret.
#[global] Instance M_bind : MBind M := fun A B f m => bind m f.

Definition gets {A} (f : State -> A) : M A := fun s => (ROk (f s), s).
Definition modify (f : State -> State) : M unit := fun s => (ROk tt, f s).

(** ** Heap access *)

Definition get_cell (c : nat) : M Cell :=
  fun s => match cells s !! c with
           | Some x => (ROk x, s)
           | None => (RThrow ErrBadRef, s)
           end.

Definition mod_cell (c : nat) (f : Cell -> Cell) : M unit :=
  modify (with_cells (alter f c)).

Definition get_handle (h : nat) : M Handle :=
  fun s => match handles s !! h with
           | Some x => (ROk x, s)
           | None => (RThrow ErrBadRef, s)
           end.

Definition get_array (a : nat) : M (list IfThen) :=
  fun s => match arrays s !! a with
           | Some x => (ROk x, s)
           | None => (RThrow ErrBadRef, s)
           end.

Definition log (e : Event) : M unit := modify (with_trace (fun t => t ++ [e])).
Definition console_error (msg : string) : M unit :=
  modify (with_console (fun t => t ++ [msg])).

(** [constructor(initial=undefined, type=DynxType.DYNAMIC)] *)
Definition mk_cell (initial : Value) (type : DynxType) : Cell :=
  {| VALUE := initial; TYPE := type; EXP := None; pendingType := None;
     updateHandle := None; g_preupdates := None; filters := None;
     g_updates := None; g_postupdates := None; g_typeChanges := None;
     _ifThens := None; _elseThen := VUndef; condEnv := None |}.

Definition new_Dynx (initial : Value) (type : DynxType) : M nat :=
  fun s => (ROk (length (cells s)),
            with_cells (fun l => l ++ [mk_cell initial type]) s).

(** ** Listener and filter storage *)

(** [if(!this[group]) this[group] = []; first ? unshift(func) : push(func)] *)
Definition add_to {A} (first : bool) (x : A) (o : option (list A)) : option (list A) :=
  let l := default [] o in
  Some (if first then x :: l else l ++ [x]).

(** [splice(indexOf(func), 1)]: [None] when [indexOf] is -1. *)
Fixpoint remove_first {A} (same : A -> A -> bool) (x : A) (l : list A) : option (list A) :=
  match l with
  | [] => None
  | y :: l' => if same y x then Some l'
               else match remove_first same x l' with
                    | Some r => Some (y :: r)
                    | None => None
                    end
  end.

Definition remove_from {A} (same : A -> A -> bool) (x : A) (o : option (list A))
  : option (list A) :=
  match o with
  | None => None
  | Some l => match remove_first same x l with
              | Some [] => None           (* length === 0: delete this[group] *)
              | Some l' => Some l'
              | None => Some l
              end
  end.

Definition same_listener (a b : Listener) : bool := bool_decide (a = b).
Definition same_filter (a b : Filter) : bool := bool_decide (fid a = fid b).

Definition warn_static (c : nat) : M unit :=
  x ← get_cell c;
  if decide (TYPE x = STATIC)
  then console_error "[Dynx] Subscription to a STATIC is unnecessary!"
  else ret tt.

(** [[ADD_LiSTENER](group, func, first)] for the four listener groups *)
Definition ADD_LISTENER (c : nat) (g : Group) (func : Listener) (first : bool) : M unit :=
  warn_static c;;
  mod_cell c (fun x => set_group g (add_to first func (get_group g x)) x).

(** [[ADD_LiSTENER]('filters', func, first)] *)
Definition ADD_FILTER (c : nat) (func : Filter) (first : bool) : M unit :=
  warn_static c;;
  mod_cell c (fun x => set_filters (add_to first func (filters x)) x).

(** [[REMOVE_LISTENER](group, func)] *)
Definition REMOVE_LISTENER (c : nat) (g : Group) (func : Listener) : M unit :=
  _ ← get_cell c;
  mod_cell c (fun x => set_group g (remove_from same_listener func (get_group g x)) x).

Definition REMOVE_FILTER (c : nat) (func : Filter) : M unit :=
  _ ← get_cell c;
  mod_cell c (fun x => set_filters (remove_from same_filter func (filters x)) x).

Definition onUpdateSub (c : nat) (handler : Listener) (first : bool) : M unit :=
  ADD_LISTENER c updates handler first.
Definition onUpdateUnsub (c : nat) (handler : Listener) : M unit :=
  REMOVE_LISTENER c updates handler.
Definition onPreUpdateSub (c : nat) (handler : Listener) (first : bool) : M unit :=
  ADD_LISTENER c preupdates handler first.
Definition onPreUpdateUnsub (c : nat) (handler : Listener) : M unit :=
  REMOVE_LISTENER c preupdates handler.
Definition onPostUpdateSub (c : nat) (handler : Listener) (first : bool) : M unit :=
  ADD_LISTENER c postupdates handler first.
Definition onPostUpdateUnsub (c : nat) (handler : Listener) : M unit :=
  REMOVE_LISTENER c postupdates handler.
Definition onTypeChangeSub (c : nat) (handler : Listener) (first : bool) : M unit :=
  ADD_LISTENER c typeChanges handler first.
Definition onTypeChangeUnsub (c : nat) (handler : Listener) : M unit :=
  REMOVE_LISTENER c typeChanges handler.

(** ** Reading a value *)

(** [top.updateHandle] passed as a listener *)
Definition handle_listener (o : option nat) : Listener :=
  match o with Some h => LHandle h | None => LUndef end.

(** [Math.max(top.pendingType, this.type)]; an absent [pendingType] makes
    the result NaN, which like the absent property is [None] here. *)
Definition max_pending (p : option DynxType) (t : DynxType) : option DynxType :=
  match p with Some a => Some (type_max a t) | None => None end.

(** [get value()] *)
Definition get_value (c : nat) : M Value :=
  st ← gets childStack;
  match st with
  | Some top :: _ =>
      if decide (top = c) then ret tt
      else
        t ← get_cell top;
        x ← get_cell c;
        (if decide (TYPE t = INHERIT)
         then mod_cell top (fun t => set_pendingType (max_pending (pendingType t) (TYPE x)) t)
         else ret tt);;
        (if decide (TYPE x = STATIC) then ret tt
         else t ← get_cell top;
              onUpdateSub c (handle_listener (updateHandle t)) false)
  | _ => ret tt
  end;;
  x ← get_cell c;
  ret (VALUE x).

(** Running an expression or filter body. *)
Fixpoint eval_prog (p : Prog) : M Value :=
  match p with
  | Ret v => ret v
  | Throw msg => throw (ErrUser msg)
  | Read c k => v ← get_value c; eval_prog (k v)
  end.

(** [this[EXP].call(this)]; the [ECond] case is the [cond.exp] function of
    [createBasicCond]. *)
Definition eval_exp (e : Exp) (this : nat) : M Value :=
  match e with
  | EFun p => eval_prog p
  | ECond parentDynx =>
      value ← get_value parentDynx;
      x ← get_cell this;
      match _ifThens x with
      | Some a =>
          arr ← get_array a;
          match find (fun it => condition it value) arr with
          | Some it => ret (then_ it)
          | None => ret (_elseThen x)
          end
      | None => ret (_elseThen x)
      end
  end.

(** [for(let filter of this.filters) newValue = filter.call(this, newValue)] *)
Fixpoint apply_filters (fs : list Filter) (newValue : Value) : M Value :=
  match fs with
  | [] => ret newValue
  | f :: fs' => v ← eval_prog (fbody f newValue); apply_filters fs' v
  end.

(** [[REFRESH_HANDLE]()] *)
Definition REFRESH_HANDLE (c : nat) : M unit :=
  x ← get_cell c;
  match updateHandle x with
  | Some h => modify (with_handles (alter (fun hd => {| owner := owner hd; obsolete := true |}) h))
  | None => ret tt
  end;;
  h' ← gets (fun s => length (handles s));
  modify (with_handles (fun l => l ++ [{| owner := c; obsolete := false |}]));;
  mod_cell c (set_updateHandle (Some h')).

(** Step 2 of [update]:
    [if(this.type === DynxType.INHERIT) this.pendingType = DynxType.STATIC] *)
Definition reset_pending (c : nat) : M unit :=
  x ← get_cell c;
  if decide (TYPE x = INHERIT)
  then mod_cell c (set_pendingType (Some STATIC))
  else ret tt.

(** Step 3 of [update]: the guarded evaluation of expression and filters. *)
Definition evaluate (c : nat) (newValue : Value) : M Value :=
  x ← get_cell c;
  if bool_decide (is_Some (EXP x)) || bool_decide (is_Some (filters x)) then
    REFRESH_HANDLE c;;
    modify (with_childStack (cons (Some c)));;
    x ← get_cell c;
    v ← match EXP x with
        | Some e => eval_exp e c
        | None => ret newValue
        end;
    x ← get_cell c;
    v ← match filters x with
        | Some fs => apply_filters fs v
        | None => ret v
        end;
    modify (with_childStack (drop 1));;
    ret v
  else ret newValue.

(** ** Listener dispatch and [update] *)

(** [listener.obsolete]: only handle closures ever carry the flag. *)
Definition is_obsolete (hs : list Handle) (l : Listener) : bool :=
  match l with
  | LHandle h => match hs !! h with Some hd => obsolete hd | None => false end
  | _ => false
  end.

(** The enqueueing loop of [CALL_LISTENERS] over [listeners = this[name]]:
    [kept] is the part of the array before index [i], [rest] the part from
    [i] on.  Returns whether reading [.obsolete] of an [undefined] entry
    raised a TypeError, the array afterwards ([None]: [delete this[name]])
    and the listeners enqueued, in order. *)
Fixpoint enqueue_loop (hs : list Handle) (kept rest : list Listener)
  : bool * option (list Listener) * list Listener :=
  match rest with
  | [] => (false, Some kept, [])
  | LUndef :: _ => (true, Some (kept ++ rest), [])
  | l :: rest' =>
      if is_obsolete hs l then
        match kept ++ rest' with
        | [] => (false, None, [])
        | _ => enqueue_loop hs kept rest'
        end
      else
        let '(err, arr, q) := enqueue_loop hs (kept ++ [l]) rest' in
        (err, arr, l :: q)
  end.

Section Dispatch.
(** [update] with the fuel that is left, and the number of iterations
    the dispatch loop may still take. *)
Variable rec : nat -> bool -> M unit.
Variable fuel : nat.

(** [listener.call(this)] *)
Definition call_listener (l : Listener) (this : nat) : M unit :=
  match l with
  | LHandle h => hd ← get_handle h; rec (owner hd) false   (* () => this.update() *)
  | LUser tag => log (EvCall tag this)
  | LUndef => throw ErrType
  end.

Fixpoint for_each (ls : list Listener) (this : nat) : M unit :=
  match ls with
  | [] => ret tt
  | l :: ls' => call_listener l this;; for_each ls' this
  end.

(** [if(this[g]) for(let listener of this[g]) listener.call(this)] *)
Definition fire_group (g : Group) (c : nat) : M unit :=
  x ← get_cell c;
  match get_group g x with
  | Some ls => for_each ls c
  | None => ret tt
  end.

(** [while(listener = Dynx[queueName].shift()) listener()] *)
Fixpoint drain (k : nat) (q : QName) : M unit :=
  match k with
  | 0 => out_of_fuel
  | S k' =>
      qu ← gets (get_queue q);
      match qu with
      | None => throw ErrType
      | Some [] => ret tt
      | Some ((l, this) :: tl) =>
          modify (with_queue q (Some tl));;
          call_listener l this;;
          drain k' q
      end
  end.

(** [[CALL_LISTENERS](name)] *)
Definition CALL_LISTENERS (q : QName) (c : nat) : M unit :=
  qu ← gets (get_queue q);
  (if qu is None then modify (with_queue q (Some [])) else ret tt);;
  x ← get_cell c;
  match get_group (qgroup q) x return M unit with
  | Some listeners =>
      hs ← gets handles;
      let '(err, arr, enq) := enqueue_loop hs [] listeners in
      mod_cell c (set_group (qgroup q) arr);;
      modify (fun s => with_queue q
                (Some (default [] (get_queue q s) ++ map (fun l => (l, c)) enq)) s);;
      if err then throw ErrType else ret tt
  | None => ret tt
  end;;
  p ← gets (get_progress q);
  if (p : bool) then ret tt
  else
    modify (with_progress q true);;
    drain fuel q;;
    modify (with_progress q false);;
    modify (with_queue q None).

(** [set type(value)] *)
Definition set_type_with (c : nat) (value : DynxType) : M unit :=
  x ← get_cell c;
  if decide (TYPE x = STATIC) then throw ErrStaticModify
  else if decide (TYPE x = value) then ret tt
  else
    let oldType := TYPE x in
    mod_cell c (set_TYPE value);;
    (if decide (oldType = INVALID) then rec c true else ret tt);;
    CALL_LISTENERS QTypeChanges c.

(** [delete this.preupdates; delete this[EXP]; delete this.filters;
     delete this.updates; delete this.postupdates] *)
Definition compact (x : Cell) : Cell :=
  set_group postupdates None
    (set_group updates None
       (set_filters None
          (set_EXP None
             (set_group preupdates None x)))).

(** Steps 4 to 7 of [update], once [newValue] is computed: the type of
    an INHERIT cell, the store and the 'updates' dispatch, the
    post-update listeners and the terminal deletions. *)
Definition update_finish (c : nat) (force : bool) (newValue : Value) : M unit :=
  x ← get_cell c;
  (if decide (TYPE x = INHERIT) then
     match pendingType x with
     | Some t => set_type_with c t
     | None => throw ErrBadRef       (* not reached: set in [update_body] *)
     end;;
     mod_cell c (set_pendingType None)
   else ret tt);;
  x ← get_cell c;
  (if negb (strict_eq newValue (VALUE x)) || force then
     mod_cell c (set_VALUE newValue);;
     CALL_LISTENERS QUpdates c
   else ret tt);;
  fire_group postupdates c;;
  x ← get_cell c;
  if decide (TYPE x = STATIC) then mod_cell c compact else ret tt.

(** The body of [update(force=false)]. *)
Definition update_body (c : nat) (force : bool) : M unit :=
  fire_group preupdates c;;
  x ← get_cell c;                   (* let newValue = this[VALUE] *)
  reset_pending c;;
  newValue ← evaluate c (VALUE x);
  update_finish c force newValue.
End Dispatch.

(** [update(force)]: each nested call of [update] (from a handle listener
    or the type setter) spends one unit of fuel, and a dispatch loop
    started by a call with [S n] units may take [n] iterations. *)
Fixpoint update (fuel : nat) (c : nat) (force : bool) : M unit :=
  match fuel with
  | 0 => out_of_fuel
  | S n => update_body (update n) n c force
  end.

(** [set type(value)] as called from outside *)
Definition set_type (fuel : nat) (c : nat) (value : DynxType) : M unit :=
  set_type_with (update fuel) fuel c value.

(** [set value(value)] *)
Definition set_value (fuel : nat) (c : nat) (value : Value) : M unit :=
  x ← get_cell c;
  if decide (TYPE x = STATIC) then throw ErrStaticValue
  else
    mod_cell c (set_EXP None);;
    if strict_eq (VALUE x) value then ret tt
    else
      mod_cell c (set_VALUE value);;
      if decide (TYPE x = INVALID) then ret tt else update fuel c true.

(** What may be assigned to [exp]: a function or some other value. *)
Inductive ExpArg := AFun (e : Exp) | ANotFun (v : Value).

(** [set exp(value)] *)
Definition set_exp (fuel : nat) (c : nat) (value : ExpArg) : M unit :=
  x ← get_cell c;
  if decide (TYPE x = STATIC) then throw ErrStaticValue
  else
    match value with
    | ANotFun _ => throw ErrExpNotFunction
    | AFun e =>
        mod_cell c (set_EXP (Some e));;
        if decide (TYPE x = INVALID) then ret tt else update fuel c false
    end.

(** [get exp()] and [get type()] *)
Definition get_exp (c : nat) : M (option Exp) := x ← get_cell c; ret (EXP x).
Definition get_type (c : nat) : M DynxType := x ← get_cell c; ret (TYPE x).

(** [onFilterSub(handler, first=false)] and [onFilterUnsub(handler)] *)
Definition onFilterSub (fuel : nat) (c : nat) (handler : Filter) (first : bool) : M unit :=
  ADD_FILTER c handler first;;
  update fuel c false.

Definition onFilterUnsub (fuel : nat) (c : nat) (handler : Filter) : M unit :=
  REMOVE_FILTER c handler;;
  update fuel c false.

(** [finalize(value)] *)
Definition finalize (fuel : nat) (c : nat) (value : Value) : M unit :=
  set_value fuel c value;;
  set_type fuel c STATIC.

(** The wrapper called without [new]: [Dynx(value, type)]. *)
Definition Dynx_of_exp (fuel : nat) (value : ExpArg) (type : DynxType) : M nat :=
  dynx ← new_Dynx VUndef type;
  set_exp fuel dynx value;;
  ret dynx.

(** ** The conditional combinator ([src/DynxTransform.js]) *)

Definition new_array (l : list IfThen) : M nat :=
  fun s => (ROk (length (arrays s)), with_arrays (fun a => a ++ [l]) s).

(** [createBasicCond(parentDynx, _ifThens, _elseThen)]; the closures
    [cond.if] and [cond.else] are the record [condEnv] of what they
    capture, [cond.exp = function(){...}] goes through the [exp] setter. *)
Definition createBasicCond (fuel : nat) (parentDynx : nat) (_ifThens : nat)
    (_elseThen : Value) : M nat :=
  cond ← new_Dynx VUndef DYNAMIC;
  set_type fuel cond INHERIT;;
  mod_cell cond (set_ifThens (Some _ifThens));;
  mod_cell cond (set_elseThen _elseThen);;
  mod_cell cond (set_condEnv (Some {| env_parentDynx := parentDynx;
                                      env_ifThens := _ifThens;
                                      env_elseThen := _elseThen |}));;
  set_exp fuel cond (AFun (ECond parentDynx));;
  ret cond.

(** [cond.if(condition, then)] called on the conditional [this] *)
Definition cond_if (fuel : nat) (this : nat) (condition : Value -> bool)
    (then_ : Value) : M nat :=
  x ← get_cell this;
  match condEnv x with
  | None => throw ErrType
  | Some env =>
      match _ifThens x with
      | Some a =>
          _ ← get_array a;
          modify (with_arrays
                    (alter (fun l => l ++ [{| condition := condition; then_ := then_ |}]) a))
      | None => throw ErrType
      end;;
      x ← get_cell this;
      if decide (TYPE x = STATIC)
      then createBasicCond fuel (env_parentDynx env) (env_ifThens env) (env_elseThen env)
      else update fuel this false;; ret this
  end.

(** [cond.else(then)] called on the conditional [this] *)
Definition cond_else (fuel : nat) (this : nat) (then_ : Value) : M nat :=
  x ← get_cell this;
  match condEnv x with
  | None => throw ErrType
  | Some env =>
      mod_cell this (set_elseThen then_);;
      x ← get_cell this;
      if decide (TYPE x = STATIC)
      then createBasicCond fuel (env_parentDynx env) (env_ifThens env) (env_elseThen env)
      else update fuel this false;; ret this
  end.

(** [Dynx.prototype.if(condition, then)]: [createBasicCond(this).if(...)],
    the default [_ifThens=[]] being a fresh array. *)
Definition proto_if (fuel : nat) (this : nat) (condition : Value -> bool)
    (then_ : Value) : M nat :=
  a ← new_array [];
  cond ← createBasicCond fuel this a VUndef;
  cond_if fuel cond condition then_.

(** * Specification vocabulary *)

(** ** Invariants of a single cell

    [cell_sat c Q s]: the cell [c] exists in [s] and satisfies [Q].  A
    computation preserves a state predicate when the state it ends in
    satisfies it, whatever the outcome (return, exception, out of fuel). *)

Definition cell_sat (c : nat) (Q : Cell -> Prop) (s : State) : Prop :=
  exists x, cells s !! c = Some x /\ Q x.

Definition preserves {A} (I : State -> Prop) (m : M A) : Prop :=
  forall s, I s -> I (m s).2.

(** [Q] is kept by the writes that reading a value makes to a cell: to
    [pendingType] of the evaluating cell, to the 'updates' group of the cell
    read, and the new [updateHandle]. *)
Record read_stable (Q : Cell -> Prop) : Prop := {
  rs_pendingType : forall x p, Q x -> Q (set_pendingType p x);
  rs_updateHandle : forall x h, Q x -> Q (set_updateHandle h x);
  rs_group : forall x g l, Q x -> Q (set_group g l x) }.

(** [Q] is kept by every write [update] and the dispatch make to a cell:
    those above, the terminal deletions, a type change away from a type
    other than STATIC, and the store of the new value: either [Q] does not
    depend on [VALUE], or it pins a cell without expression and filters to
    one value (which [update] then recomputes to itself). *)
Record stable (Q : Cell -> Prop) : Prop := {
  st_read : read_stable Q;
  st_compact : forall x, Q x -> Q (compact x);
  st_TYPE : forall x t, Q x -> TYPE x <> STATIC -> Q (set_TYPE t x);
  st_VALUE :
    (forall x w, Q x -> Q (set_VALUE w x)) \/
    (exists v0, forall x, Q x -> EXP x = None /\ filters x = None /\ VALUE x = v0) }.

(** The evaluation stack names no cell outside the heap. *)
Definition stack_ok (s : State) : Prop :=
  match childStack s with
  | Some top :: _ => is_Some (cells s !! top)
  | _ => True
  end.

(** What a list of user callbacks writes to the trace when called on [c]. *)
Definition calls (c : nat) (tags : list nat) : list Event :=
  map (fun tag => EvCall tag c) tags.

(** A heap with the single cell [new Dynx(5, DynxType.INVALID)]. *)
Definition invalid_cell_5 : State :=
  with_cells (fun _ => [mk_cell (VNum 5) INVALID]) empty_state.

(** The reading rule as the specification words it: a cell of type INVALID
    reads as the invalid sentinel. *)
Definition reads_invalid_sentinel (s : State) (c : nat) : Prop :=
  forall x, cells s !! c = Some x -> TYPE x = INVALID ->
            (get_value c s).1 = ROk INVALID_SENTINEL.

(** A constant cell holding [v]: no expression, no filters. *)
Definition pinned_at (v : Value) (y : Cell) : Prop :=
  EXP y = None /\ filters y = None /\ VALUE y = v.

(** A finalized constant cell holding [v]. *)
Definition frozen_at (v : Value) (y : Cell) : Prop :=
  TYPE y = STATIC /\ pinned_at v y.

(** The call threw one of the errors raised on a STATIC cell. *)
Definition throws_frozen {A} (r : Result A * State) : Prop :=
  exists e, r.1 = RThrow e /\ is_frozen_error e = true.

(** Finalize terminality as the specification words it. *)
Definition finalize_terminal (fuel : nat) (s : State) (c : nat) (v : Value) : Prop :=
  forall s', finalize fuel c v s = (ROk tt, s') ->
    (get_value c s').1 = ROk v /\
    (forall w, throws_frozen (set_value fuel c w s')) /\
    (forall e, throws_frozen (set_exp fuel c e s')) /\
    (forall t, throws_frozen (set_type fuel c t s')) /\
    (forall f first, throws_frozen (onFilterSub fuel c f first s')) /\
    (forall g l first, throws_frozen (ADD_LISTENER c g l first s')).

(** [x => 2 * x] and [x => x + 3] as filters. *)
Definition double_filter : Filter :=
  {| fid := 1;
     fbody := fun v => Ret (match v with VNum z => VNum (2 * z) | _ => VUndef end) |}.
Definition plus3_filter : Filter :=
  {| fid := 2;
     fbody := fun v => Ret (match v with VNum z => VNum (z + 3) | _ => VUndef end) |}.

(** The heap after [c = new Dynx(1)]. *)
Definition one_cell : State :=
  with_cells (fun _ => [mk_cell (VNum 1) DYNAMIC]) empty_state.

(** The heap after [c = new Dynx(1); c.onFilterSub(x => 2 * x)]. *)
Definition one_filtered_cell : State :=
  (onFilterSub 3 0 double_filter false one_cell).2.

(** No expression, no filters, no listener group of any kind. *)
Definition compacted (y : Cell) : Prop :=
  EXP y = None /\ filters y = None /\ forall g, get_group g y = None.

(** The heap after [c = new Dynx(1); c.onPreUpdateSub(l7)]. *)
Definition one_listened_cell : State :=
  (onPreUpdateSub 0 (LUser 7) false one_cell).2.

(** The heap after [c = new Dynx(1); c.onPreUpdateSub(l7);
    c.exp = () => { throw 'boom' }], the assignment having thrown. *)
Definition one_throwing_cell : State :=
  (set_exp 3 0 (AFun (EFun (Throw "boom"))) one_listened_cell).2.

(** The part of the state that the dispatch of listeners works on. *)
Definition dispatch_view (s : State)
  : list Event * option (list Thunk) * bool * option (list Thunk) * bool :=
  (trace s, updatesQueue s, updatesInProgress s,
   typeChangesQueue s, typeChangesInProgress s).

(** The fields of a cell that its own evaluation does not write. *)
Definition same_settings (x y : Cell) : Prop :=
  VALUE y = VALUE x /\ TYPE y = TYPE x /\ EXP y = EXP x /\ filters y = filters x /\
  forall g, get_group g y = get_group g x.

(** A listener group holding user callbacks only ([None]: no group). *)
Definition user_group (tags : option (list nat)) : option (list Listener) :=
  map LUser <$> tags.

(** The thunks [CALL_LISTENERS] enqueues for the listeners [ls] of [c]. *)
Definition thunks (c : nat) (ls : list Listener) : list Thunk :=
  map (fun l => (l, c)) ls.

(** The heap after [c = new Dynx(0); c.onPreUpdateSub(l1);
    c.onUpdateSub(l2); c.onPostUpdateSub(l3)]. *)
Definition listened_cell : State :=
  (onPostUpdateSub 0 (LUser 3) false
     (onUpdateSub 0 (LUser 2) false
        (onPreUpdateSub 0 (LUser 1) false
           (with_cells (fun _ => [mk_cell (VNum 0) DYNAMIC]) empty_state)).2).2).2.

(** Force semantics as the specification words it for [update(false)]:
    when the recomputed value is the stored one, no listener of the three
    groups is called. *)
Definition unforced_update_silent (fuel : nat) (s : State) (c : nat) : Prop :=
  forall x, cells s !! c = Some x ->
            (evaluate c (VALUE x) s).1 = ROk (VALUE x) ->
            trace (update fuel c false s).2 = trace s.

(** The scenario of minimal subscription:
    [fork = new Dynx(true); in1 = new Dynx(0); in2 = new Dynx(1);
     out = Dynx(() => fork.value ? in1.value : in2.value)],
    with a pre-update listener (tag 100) and an update listener (tag 101)
    on [out] to observe its recomputation. *)
Definition fork_exp (fork in1 in2 : nat) : Prog :=
  Read fork (fun f => if truthy f then Read in1 Ret else Read in2 Ret).

Definition fork_setup (fuel : nat) : M (nat * nat * nat * nat) :=
  fork ← new_Dynx (VBool true) DYNAMIC;
  in1 ← new_Dynx (VNum 0) DYNAMIC;
  in2 ← new_Dynx (VNum 1) DYNAMIC;
  out ← Dynx_of_exp fuel (AFun (EFun (fork_exp fork in1 in2))) DYNAMIC;
  onPreUpdateSub out (LUser 100) false;;
  onUpdateSub out (LUser 101) false;;
  ret (fork, in1, in2, out).

Definition fork_true : State := (fork_setup 5 empty_state).2.

(** ... and after [fork.value = false]. *)
Definition fork_false : State := (set_value 5 0 (VBool false) fork_true).2.

(** The heap after [parent = new Dynx(5, DynxType.STATIC)]. *)
Definition static_parent : State :=
  with_cells (fun _ => [mk_cell (VNum 5) STATIC]) empty_state.

(** During the evaluation of the expression and filters of [c]: [c] is on
    top of the evaluation stack and satisfies [Q]. *)
Definition own_inv (c : nat) (Q : Cell -> Prop) (s : State) : Prop :=
  (exists st, childStack s = Some c :: st) /\ cell_sat c Q s.

(** * Further vocabulary *)

(** The listeners of an array that are not obsolete, in order. *)
Definition live_listeners (hs : list Handle) (ls : list Listener) : list Listener :=
  filter (fun l => is_obsolete hs l = false) ls.

(** What the terminal deletions of [update] leave absent. *)
Definition released (y : Cell) : Prop :=
  EXP y = None /\ filters y = None /\ g_preupdates y = None /\
  g_updates y = None /\ g_postupdates y = None.

(** A filter that only computes: [v => f(v)]. *)
Definition pure_filter (id : nat) (f : Value -> Value) : Filter :=
  {| fid := id; fbody := fun v => Ret (f v) |}.

(** The value a list of computing filters maps [v] to, in array order. *)
Definition filtered (fs : list (nat * (Value -> Value))) (v : Value) : Value :=
  fold_left (fun a p => p.2 a) fs v.

(** The error thrown by [executeImmune]. *)
Definition immune_error : Error :=
  ErrUser "[Dynx] SEVERE: Immune statements can only be executed immediately within a variable's expression function.".

(** [executeImmune(func, ...args)] called on [this], for a function that
    reads cells, returns or throws. *)
Definition executeImmune (this : nat) (func : Prog) : M Value :=
  st ← gets childStack;
  if decide (head st = Some (Some this)) then
    modify (with_childStack (cons None));;
    result ← eval_prog func;
    modify (with_childStack (drop 1));;
    ret result
  else throw immune_error.

(** The expression [() => f(p.value)]. *)
Definition map_exp (p : nat) (f : Value -> Value) : Exp :=
  EFun (Read p (fun v => Ret (f v))).

(** [d] is linked to the producer [p]: [p] is a DYNAMIC constant without
    filters and without pre-update and post-update listeners, whose update
    listeners are obsolete handles followed by the current handle of [d];
    [d] is a DYNAMIC cell with the expression [() => f(p.value)], without
    filters and listeners, and stores [f] of the value of [p]; no 'updates'
    dispatch is in progress. *)
Record linked (p d : nat) (f : Value -> Value) (s : State)
    (xp xd : Cell) (h : nat) (olds : list Listener) : Prop := {
  lk_ne : p <> d;
  lk_p : cells s !! p = Some xp;
  lk_d : cells s !! d = Some xd;
  lk_p_type : TYPE xp = DYNAMIC;
  lk_p_exp : EXP xp = None;
  lk_p_filters : filters xp = None;
  lk_p_pre : g_preupdates xp = None;
  lk_p_post : g_postupdates xp = None;
  lk_p_upd : g_updates xp = Some (olds ++ [LHandle h]);
  lk_olds : Forall (fun l => is_obsolete (handles s) l = true) olds;
  lk_handle : handles s !! h = Some {| owner := d; obsolete := false |};
  lk_d_type : TYPE xd = DYNAMIC;
  lk_d_exp : EXP xd = Some (map_exp p f);
  lk_d_filters : filters xd = None;
  lk_d_handle : updateHandle xd = Some h;
  lk_d_pre : g_preupdates xd = None;
  lk_d_upd : g_updates xd = None;
  lk_d_post : g_postupdates xd = None;
  lk_value : VALUE xd = f (VALUE xp);
  lk_queue : updatesQueue s = None;
  lk_progress : updatesInProgress s = false }.

(** [d] follows [p] through [f] in [s]. *)
Definition follows (p d : nat) (f : Value -> Value) (s : State) : Prop :=
  exists xp xd h olds, linked p d f s xp xd h olds.

(** The state after [REFRESH_HANDLE] on a cell that has a handle. *)
Definition refreshed (c h : nat) (s : State) : State :=
  with_cells (alter (set_updateHandle (Some (length (handles s)))) c)
    (with_handles (fun l => l ++ [{| owner := c; obsolete := false |}])
       (with_handles (alter (fun hd => {| owner := owner hd; obsolete := true |}) h) s)).

(** The state after a read of [c] that subscribes the handle [h]. *)
Definition subscribed (c h : nat) (s : State) : State :=
  with_cells
    (alter (fun y => set_group updates (add_to false (LHandle h) (get_group updates y)) y) c) s.

(** The state after the evaluation of [d], which has the handle [h] and
    the expression [() => f(p.value)]. *)
Definition reevaluated (p d h : nat) (s : State) : State :=
  with_childStack (drop 1)
    (subscribed p (length (handles s))
       (with_childStack (cons (Some d)) (refreshed d h s))).

(** [Dynx.prototype.transform = function(func)] of [src/DynxTransform.js],
    called on [this]: the expression is [() => func(this.value)]. *)
Definition transform (fuel : nat) (this : nat) (func : Value -> Prog) : M nat :=
  trans ← new_Dynx VUndef DYNAMIC;
  set_type fuel trans INHERIT;;
  set_exp fuel trans (AFun (EFun (Read this func)));;
  ret trans.

(** No dispatch of listeners is in progress. *)
Definition idle (s : State) : Prop :=
  updatesQueue s = None /\ updatesInProgress s = false /\
  typeChangesQueue s = None /\ typeChangesInProgress s = false.

(** A constant that nothing live listens to. *)
Definition unobserved (hs : list Handle) (x : Cell) : Prop :=
  EXP x = None /\ filters x = None /\
  g_preupdates x = None /\ g_postupdates x = None /\
  Forall (fun l => is_obsolete hs l = true) (default [] (g_updates x)).

(** [x => x + 1] on numbers. *)
Definition bump (v : Value) : Value :=
  match v with VNum z => VNum (z + 1) | _ => VUndef end.

(** The heap after [p = new Dynx(1); d = p.transform(x => x + 1)]. *)
Definition followed_cell : State :=
  ((p ← new_Dynx (VNum 1) DYNAMIC; transform 3 p (fun v => Ret (bump v))) empty_state).2.

(** The value [cond.exp] returns for the parent value [v]: the [then] of
    the first entry whose condition holds, else the else value. *)
Definition cond_value (arr : list IfThen) (e : Value) (v : Value) : Value :=
  match find (fun it => condition it v) arr with
  | Some it => then_ it
  | None => e
  end.

(** [d] is a conditional over the producer [p] with the condition array
    [a]: [p] is a DYNAMIC constant without filters and without pre-update
    and post-update listeners, whose update listeners are obsolete handles
    followed by the current handle of [d]; [d] is a DYNAMIC cell created by
    [createBasicCond(p, a, _)], without filters and listeners. *)
Record cond_ready (p d a : nat) (s : State) (xp xd : Cell) (h : nat)
    (olds : list Listener) (arr : list IfThen) : Prop := {
  cr_ne : p <> d;
  cr_p : cells s !! p = Some xp;
  cr_d : cells s !! d = Some xd;
  cr_arr : arrays s !! a = Some arr;
  cr_p_type : TYPE xp = DYNAMIC;
  cr_p_exp : EXP xp = None;
  cr_p_filters : filters xp = None;
  cr_p_pre : g_preupdates xp = None;
  cr_p_post : g_postupdates xp = None;
  cr_p_upd : g_updates xp = Some (olds ++ [LHandle h]);
  cr_olds : Forall (fun l => is_obsolete (handles s) l = true) olds;
  cr_handle : handles s !! h = Some {| owner := d; obsolete := false |};
  cr_d_type : TYPE xd = DYNAMIC;
  cr_d_exp : EXP xd = Some (ECond p);
  cr_d_filters : filters xd = None;
  cr_d_handle : updateHandle xd = Some h;
  cr_d_pre : g_preupdates xd = None;
  cr_d_upd : g_updates xd = None;
  cr_d_post : g_postupdates xd = None;
  cr_d_ifThens : _ifThens xd = Some a;
  cr_d_env : exists e0, condEnv xd = Some {| env_parentDynx := p; env_ifThens := a;
                                             env_elseThen := e0 |} }.

(** An 'updates' dispatch is not in progress, or is in progress with its
    queue in place. *)
Definition updates_idle (s : State) : Prop :=
  updatesQueue s = None /\ updatesInProgress s = false.
Definition updates_busy (s : State) : Prop :=
  (exists q, updatesQueue s = Some q) /\ updatesInProgress s = true.

(** [d] is a conditional over [p] that holds the conditions [arr] and the
    else value [e], and stores the value they select for the value of [p];
    no 'updates' dispatch is in progress. *)
Definition conditional (p d : nat) (arr : list IfThen) (e : Value) (s : State) : Prop :=
  exists a xp xd h olds,
    cond_ready p d a s xp xd h olds arr /\
    _elseThen xd = e /\ VALUE xd = cond_value arr e (VALUE xp) /\
    updates_idle s.

(** [x => x === 1] *)
Definition is_one (v : Value) : bool := strict_eq v (VNum 1).

(** The heap after [p = new Dynx(1); d = p.if(x => x === 1, 10)]. *)
Definition conditional_cell : State :=
  ((p ← new_Dynx (VNum 1) DYNAMIC; proto_if 3 p is_one (VNum 10)) empty_state).2.

(** ** Cells of type INVALID *)

(** The cell a user callback was called on. *)
Definition ev_this (ev : Event) : nat :=
  match ev with EvCall _ this => this end.

(** The calls of user callbacks on [c] in a trace. *)
Definition calls_on (c : nat) (t : list Event) : list Event :=
  filter (fun ev => ev_this ev = c) t.

(** Suspension as the specification words it: while the type of [c] is
    INVALID and is not changed, [c] is not recomputed: an assignment to
    another cell leaves the value [c] stores as it is and calls none of the
    listeners of [c]. *)
Definition resumes_only_on_retype (fuel : nat) (s : State) (c : nat) : Prop :=
  forall x, cells s !! c = Some x -> TYPE x = INVALID ->
    forall p w, p <> c ->
      cell_sat c (fun y => VALUE y = VALUE x) (set_value fuel p w s).2 /\
      calls_on c (trace (set_value fuel p w s).2) = calls_on c (trace s).

(** The heap after [p = new Dynx(1); c = Dynx(() => p.value + 1);
    c.onUpdateSub(l9); c.type = DynxType.INVALID]. *)
Definition invalid_follower : State :=
  ((p ← new_Dynx (VNum 1) DYNAMIC;
    c ← Dynx_of_exp 3 (AFun (map_exp p bump)) DYNAMIC;
    onUpdateSub c (LUser 9) false;;
    set_type 3 c INVALID) empty_state).2.

(** The heap with the single cell [c = new Dynx(5, DynxType.INVALID)]
    after [c.exp = () => 7] (stored, not evaluated) and one listener in
    each of the four groups. *)
Definition invalid_listened : State :=
  (onTypeChangeSub 0 (LUser 4) false
     (onPostUpdateSub 0 (LUser 3) false
        (onUpdateSub 0 (LUser 2) false
           (onPreUpdateSub 0 (LUser 1) false
              (set_exp 3 0 (AFun (EFun (Ret (VNum 7)))) invalid_cell_5).2).2).2).2).2.

(** The heap during the evaluation of an INHERIT cell (cell 1, on top of
    the evaluation stack, its pending type reset to STATIC) over the STATIC
    cell 0 that holds 5. *)
Definition static_read_state : State :=
  with_childStack (fun _ => [Some 1])
    (with_handles (fun _ => [{| owner := 1; obsolete := false |}])
       (with_cells
          (fun l => l ++ [set_pendingType (Some STATIC)
                            (set_updateHandle (Some 0) (mk_cell VUndef INHERIT))])
          static_parent)).


(** * Verification *)

(** ** Running binds *)

Lemma bind_run {A B} (m : M A) (f : A -> M B) (s : State) :
  (m ≫= f) s =
  match m s with
  | (ROk a, s') => f a s'
  | (RThrow e, s') => (RThrow e, s')
  | (RFuel, s') => (RFuel, s')
  end.
Proof. reflexivity. Qed.

Lemma bind_ok {A B} (m : M A) (f : A -> M B) (s s' : State) (a : A) :
  m s = (ROk a, s') -> (m ≫= f) s = f a s'.
Proof. intros H. by rewrite bind_run, H. Qed.

Lemma bind_throw {A B} (m : M A) (f : A -> M B) (s s' : State) (e : Error) :
  m s = (RThrow e, s') -> (m ≫= f) s = (RThrow e, s').
Proof. intros H. by rewrite bind_run, H. Qed.

Lemma bind_assoc {A B C} (m : M A) (f : A -> M B) (g : B -> M C) (s : State) :
  ((m ≫= f) ≫= g) s = (m ≫= (fun a => f a ≫= g)) s.
Proof. rewrite !bind_run. by destruct (m s) as [[a|e|] s']. Qed.

Lemma mod_cell_run (c : nat) (f : Cell -> Cell) (s : State) :
  mod_cell c f s = (ROk tt, with_cells (alter f c) s).
Proof. reflexivity. Qed.

Lemma get_cell_run (c : nat) (s : State) (x : Cell) :
  cells s !! c = Some x -> get_cell c s = (ROk x, s).
Proof. intros H. unfold get_cell. by rewrite H. Qed.

Lemma get_cell_inv (c : nat) (s s' : State) (x : Cell) :
  get_cell c s = (ROk x, s') -> s' = s /\ cells s !! c = Some x.
Proof.
  unfold get_cell. destruct (cells s !! c); intros H; inversion H; auto.
Qed.

Lemma get_cell_state (c : nat) (s s' : State) (r : Result Cell) :
  get_cell c s = (r, s') -> s' = s.
Proof.
  unfold get_cell. destruct (cells s !! c); intros H; inversion H; auto.
Qed.


(** Symbolic execution of the first step of a program applied to a state:
    [mpure] for a step that computes, [mget H] for [get_cell] with the
    lookup [H]. *)
Ltac mpure := rewrite ?bind_assoc; erewrite bind_ok by reflexivity.
Ltac mget H := rewrite ?bind_assoc; erewrite bind_ok by (apply get_cell_run; exact H).

Lemma preserves_ret {A} I (a : A) : preserves I (ret a).
Proof. intros s H. exact H. Qed.

Lemma preserves_throw {A} I e : preserves I (@throw A e).
Proof. intros s H. exact H. Qed.

Lemma preserves_fuel {A} I : preserves I (@out_of_fuel A).
Proof. intros s H. exact H. Qed.

Lemma preserves_gets {A} I (f : State -> A) : preserves I (gets f).
Proof. intros s H. exact H. Qed.

Lemma preserves_bind {A B} I (m : M A) (f : A -> M B) :
  preserves I m -> (forall a, preserves I (f a)) -> preserves I (m ≫= f).
Proof.
  intros Hm Hf s H. rewrite bind_run. specialize (Hm s H).
  destruct (m s) as [[a|e|] s']; simpl in *; auto. by apply Hf.
Qed.

(** The continuation may use what the first computation returned, and from
    which state. *)
Lemma preserves_bind_run {A B} (I : State -> Prop) (m : M A) (f : A -> M B) :
  preserves I m ->
  (forall s a s', I s -> m s = (ROk a, s') -> I (f a s').2) ->
  preserves I (m ≫= f).
Proof.
  intros Hm Hf s H. rewrite bind_run. specialize (Hm s H).
  destruct (m s) as [[a|e|] s'] eqn:E; simpl in *; auto. by eapply Hf.
Qed.

Lemma preserves_get_cell I c : preserves I (get_cell c).
Proof.
  intros s H. unfold get_cell. by destruct (cells s !! c).
Qed.

Lemma preserves_get_handle I h : preserves I (get_handle h).
Proof.
  intros s H. unfold get_handle. by destruct (handles s !! h).
Qed.

Lemma preserves_get_array I a : preserves I (get_array a).
Proof.
  intros s H. unfold get_array. by destruct (arrays s !! a).
Qed.

Section CellInvariant.
Variable c : nat.
Variable Q : Cell -> Prop.

(** A modification of the state that leaves [cells] alone. *)
Lemma cell_sat_same_cells (f : State -> State) :
  (forall s, cells (f s) = cells s) -> preserves (cell_sat c Q) (modify f).
Proof.
  intros Hf s [x [Hx HQ]]. exists x. simpl. by rewrite Hf.
Qed.

Lemma cell_sat_mod_cell (d : nat) (f : Cell -> Cell) :
  (d = c -> forall x, Q x -> Q (f x)) -> preserves (cell_sat c Q) (mod_cell d f).
Proof.
  intros Hf s [x [Hx HQ]]. unfold mod_cell, modify, cell_sat, with_cells.
  cbn [snd cells].
  destruct (decide (d = c)) as [->|Hne].
  - exists (f x). split; [|by apply Hf].
    by rewrite list_lookup_alter_eq, Hx.
  - exists x. split; [|done]. by rewrite list_lookup_alter_ne.
Qed.

(** The same, for a modification justified by what the cell is in [s]. *)
Lemma cell_sat_mod_cell_at (d : nat) (f : Cell -> Cell) (s : State) :
  cell_sat c Q s ->
  (d = c -> forall x, cells s !! c = Some x -> Q x -> Q (f x)) ->
  cell_sat c Q (mod_cell d f s).2.
Proof.
  intros [x [Hx HQ]] Hf. unfold mod_cell, modify, cell_sat, with_cells.
  cbn [snd cells].
  destruct (decide (d = c)) as [->|Hne].
  - exists (f x). split; [|by apply Hf].
    by rewrite list_lookup_alter_eq, Hx.
  - exists x. split; [|done]. by rewrite list_lookup_alter_ne.
Qed.

Lemma cell_sat_mod_other (d : nat) (f : Cell -> Cell) :
  d <> c -> preserves (cell_sat c Q) (mod_cell d f).
Proof. intros Hne. apply cell_sat_mod_cell. congruence. Qed.
End CellInvariant.

Create HintDb pres.
#[global] Hint Resolve preserves_ret preserves_throw preserves_fuel preserves_gets
  preserves_get_cell preserves_get_handle preserves_get_array : pres.
#[global] Hint Extern 1 (preserves (cell_sat _ _) (modify _)) =>
  apply cell_sat_same_cells; reflexivity : pres.

(** One step through a monadic program: a known computation, a bind, or a
    case distinction of the program. *)
Ltac pres_step :=
  first
    [ solve [auto 2 with pres nocore]
    | simple apply preserves_bind; [|intros ?]
    | match goal with
      | |- preserves _ (if ?b then _ else _) => destruct b
      | |- preserves _ (match ?x with _ => _ end) => destruct x
      end ].

(** What reading values writes: [pendingType] of the cell on top of the
    evaluation stack, the 'updates' group of a cell read that is not on top,
    and the console.  A state predicate kept by these three is kept by every
    expression and filter body. *)
Section ReadFrame.
Variable I : State -> Prop.
Hypothesis I_pending : forall s top st f,
  I s -> childStack s = Some top :: st ->
  I (with_cells (alter (fun t => set_pendingType (f t) t) top) s).
Hypothesis I_subscribe : forall s top st d f,
  I s -> childStack s = Some top :: st -> top <> d ->
  I (with_cells (alter (fun x => set_group updates (f x) x) d) s).
Hypothesis I_console : forall s f, I s -> I (with_console f s).

Lemma get_value_frame d : preserves I (get_value d).
Proof.
  unfold get_value. apply preserves_bind_run; [pres_step|].
  intros s a s' Hs Ha. inversion Ha; subst a s'; clear Ha.
  destruct (childStack s) as [|[top|] st] eqn:Hcs.
  - clear Hcs. revert s Hs. change (preserves I (ret tt;; x ← get_cell d; ret (VALUE x))).
    repeat pres_step.
  - destruct (decide (top = d)) as [|Hne].
    { clear Hcs. revert s Hs.
      change (preserves I (ret tt;; x ← get_cell d; ret (VALUE x))).
      repeat pres_step. }
    set (I' := fun s' => I s' /\ childStack s' = Some top :: st).
    assert (forall f, preserves I' (mod_cell top (fun t => set_pendingType (f t) t))) as H1.
    { intros f s1 [H1 H2]. split; [by eapply I_pending|done]. }
    assert (forall f, preserves I' (mod_cell d (fun x => set_group updates (f x) x))) as H2.
    { intros f s1 [H1' H2]. split; [by eapply I_subscribe|done]. }
    assert (forall f, preserves I' (modify (with_console f))) as H3.
    { intros f s1 [H1' H2']. split; [by apply I_console|done]. }
    enough (I' (((t ← get_cell top;
                 x ← get_cell d;
                 (if decide (TYPE t = INHERIT)
                  then mod_cell top (fun t0 => set_pendingType
                                      (max_pending (pendingType t0) (TYPE x)) t0)
                  else ret tt);;
                 (if decide (TYPE x = STATIC) then ret tt
                  else t0 ← get_cell top;
                       onUpdateSub d (handle_listener (updateHandle t0)) false));;
                x ← get_cell d; ret (VALUE x)) s).2) as HH by (by destruct HH).
    assert (I' s) as Hs' by done. clear Hs Hcs. revert s Hs'.
    match goal with |- forall s, I' s -> I' (?m s).2 => change (preserves I' m) end.
    unfold onUpdateSub, ADD_LISTENER, warn_static, console_error. repeat pres_step.
  - clear Hcs. revert s Hs. change (preserves I (ret tt;; x ← get_cell d; ret (VALUE x))).
    repeat pres_step.
Qed.
Hint Resolve get_value_frame : pres.

Lemma eval_prog_frame p : preserves I (eval_prog p).
Proof. induction p as [v|msg|d k IH]; simpl; repeat pres_step. Qed.
Hint Resolve eval_prog_frame : pres.

Lemma eval_exp_frame e this : preserves I (eval_exp e this).
Proof. destruct e as [p|parent]; simpl; repeat pres_step. Qed.

Lemma apply_filters_frame fs v : preserves I (apply_filters fs v).
Proof. revert v. induction fs as [|f fs IH]; intros v; simpl; repeat pres_step. Qed.
End ReadFrame.

Section Frame.
Variable c : nat.
Variable Q : Cell -> Prop.
Hypothesis HQ : read_stable Q.

Local Abbreviation I := (cell_sat c Q).

Lemma warn_static_preserves d : preserves I (warn_static d).
Proof. unfold warn_static, console_error. repeat pres_step. Qed.
Hint Resolve warn_static_preserves : pres.

Lemma mod_group_preserves d g f :
  preserves I (mod_cell d (fun x => set_group g (f x) x)).
Proof. apply cell_sat_mod_cell. intros _ x Hx. by apply rs_group. Qed.

Lemma set_group_preserves d g l : preserves I (mod_cell d (set_group g l)).
Proof. apply cell_sat_mod_cell. intros _ x Hx. by apply rs_group. Qed.

Lemma mod_pendingType_preserves d f :
  preserves I (mod_cell d (fun x => set_pendingType (f x) x)).
Proof. apply cell_sat_mod_cell. intros _ x Hx. by apply rs_pendingType. Qed.

Lemma set_pendingType_preserves d p : preserves I (mod_cell d (set_pendingType p)).
Proof. apply cell_sat_mod_cell. intros _ x Hx. by apply rs_pendingType. Qed.

Lemma set_updateHandle_preserves d h : preserves I (mod_cell d (set_updateHandle h)).
Proof. apply cell_sat_mod_cell. intros _ x Hx. by apply rs_updateHandle. Qed.

Hint Resolve mod_group_preserves set_group_preserves mod_pendingType_preserves
  set_pendingType_preserves set_updateHandle_preserves : pres.

Lemma ADD_LISTENER_preserves d g l first : preserves I (ADD_LISTENER d g l first).
Proof. unfold ADD_LISTENER. repeat pres_step. Qed.
Hint Resolve ADD_LISTENER_preserves : pres.

Lemma get_value_preserves d : preserves I (get_value d).
Proof.
  unfold get_value, onUpdateSub.
  pres_step; [pres_step|]. pres_step; [|repeat pres_step].
  destruct a as [|[top|] ?]; repeat pres_step.
Qed.
Hint Resolve get_value_preserves : pres.

Lemma eval_prog_preserves p : preserves I (eval_prog p).
Proof.
  induction p as [v|msg|d k IH]; simpl; repeat pres_step.
Qed.
Hint Resolve eval_prog_preserves : pres.

Lemma eval_exp_preserves e this : preserves I (eval_exp e this).
Proof. destruct e as [p|parent]; simpl; repeat pres_step. Qed.

Lemma apply_filters_preserves fs v : preserves I (apply_filters fs v).
Proof.
  revert v. induction fs as [|f fs IH]; intros v; simpl; repeat pres_step.
Qed.

Lemma REFRESH_HANDLE_preserves d : preserves I (REFRESH_HANDLE d).
Proof. unfold REFRESH_HANDLE. repeat pres_step. Qed.

Hint Resolve eval_exp_preserves apply_filters_preserves REFRESH_HANDLE_preserves : pres.

Lemma evaluate_preserves d v : preserves I (evaluate d v).
Proof. unfold evaluate. repeat pres_step. Qed.

Lemma reset_pending_preserves d : preserves I (reset_pending d).
Proof. unfold reset_pending. repeat pres_step. Qed.
End Frame.

Lemma preserves_bind_to {A B} (I J : State -> Prop) (m : M A) (f : A -> M B) :
  (forall s, I s -> J s) -> preserves I m ->
  (forall a s, I s -> J (f a s).2) ->
  forall s, I s -> J ((m ≫= f) s).2.
Proof.
  intros HIJ Hm Hf s Hs. rewrite bind_run. specialize (Hm s Hs).
  destruct (m s) as [[a|e|] s']; simpl in *; auto.
Qed.

(** The evaluation of the expression and filters of [c] writes, of [c]
    itself, only [updateHandle] and [pendingType]: [c] is on top of the
    stack, so no read subscribes it to itself. *)
Section OwnFrame.
Variable c : nat.
Variable Q : Cell -> Prop.
Hypothesis Q_pending : forall x p, Q x -> Q (set_pendingType p x).
Hypothesis Q_handle : forall x h, Q x -> Q (set_updateHandle h x).

Local Abbreviation I_own := (own_inv c Q).

Lemma I_own_pending s top st f :
  I_own s -> childStack s = Some top :: st ->
  I_own (with_cells (alter (fun t => set_pendingType (f t) t) top) s).
Proof.
  intros [Hst Hc] Htop. split; [done|].
  apply (cell_sat_mod_cell c Q top (fun t => set_pendingType (f t) t)); [|done].
  intros _ x Hx. by apply Q_pending.
Qed.

Lemma I_own_subscribe s top st d f :
  I_own s -> childStack s = Some top :: st -> top <> d ->
  I_own (with_cells (alter (fun x => set_group updates (f x) x) d) s).
Proof.
  intros [[st' Hst] Hc] Htop Hne. split; [by exists st'|].
  apply (cell_sat_mod_other c Q d (fun x => set_group updates (f x) x)); [|done].
  congruence.
Qed.

Lemma I_own_console s f : I_own s -> I_own (with_console f s).
Proof. by intros [Hst Hc]. Qed.

Lemma evaluate_own v : preserves (cell_sat c Q) (evaluate c v).
Proof.
  unfold evaluate. apply preserves_bind; [pres_step|]. intros x.
  destruct (_ || _); [|pres_step].
  apply preserves_bind.
  { unfold REFRESH_HANDLE. repeat pres_step;
      apply cell_sat_mod_cell; intros _ y Hy; by apply Q_handle. }
  intros _ s Hs. mpure.
  assert (I_own (with_childStack (cons (Some c)) s)) as Ho.
  { split; [by eexists|done]. }
  revert Ho. generalize (with_childStack (cons (Some c)) s). clear s Hs.
  apply preserves_bind_to; [by intros s [_ H]|pres_step|]. intros x1.
  apply preserves_bind_to; [by intros s [_ H]| |].
  { destruct (EXP x1); [|pres_step].
    apply eval_exp_frame;
      [apply I_own_pending|apply I_own_subscribe|apply I_own_console]. }
  intros v1.
  apply preserves_bind_to; [by intros s [_ H]|pres_step|]. intros x2.
  apply preserves_bind_to; [by intros s [_ H]| |].
  { destruct (filters x2); [|pres_step].
    apply apply_filters_frame;
      [apply I_own_pending|apply I_own_subscribe|apply I_own_console]. }
  intros v2 s [_ Hs]. mpure. exact Hs.
Qed.
End OwnFrame.

(** Evaluation calls no listener and leaves the dispatch queues alone. *)
Lemma evaluate_dispatch_view (c : nat) (v : Value) (s : State) :
  dispatch_view (evaluate c v s).2 = dispatch_view s.
Proof.
  set (I := fun s' => dispatch_view s' = dispatch_view s).
  enough (preserves I (evaluate c v)) as H by (by apply H).
  assert (forall (f : State -> State),
            (forall s', dispatch_view (f s') = dispatch_view s') ->
            preserves I (modify f)) as Hmod.
  { intros f Hf s' Hs'. unfold I. cbn [modify snd]. by rewrite Hf. }
  assert (forall e this, preserves I (eval_exp e this)) as Hexp.
  { intros e this. apply eval_exp_frame.
    - by intros s' top st f Hs' _.
    - by intros s' top st d f Hs' _ _.
    - by intros s' f Hs'. }
  assert (forall fs w, preserves I (apply_filters fs w)) as Hfil.
  { intros fs w. apply apply_filters_frame.
    - by intros s' top st f Hs' _.
    - by intros s' top st d f Hs' _ _.
    - by intros s' f Hs'. }
  unfold evaluate, REFRESH_HANDLE, mod_cell.
  repeat first [pres_step | apply Hmod; reflexivity].
Qed.

Lemma strict_eq_true (a b : Value) : strict_eq a b = true <-> a = b.
Proof. unfold strict_eq. apply bool_decide_eq_true. Qed.

Lemma strict_eq_refl (a : Value) : strict_eq a a = true.
Proof. by apply strict_eq_true. Qed.

Lemma set_VALUE_same (x : Cell) : set_VALUE (VALUE x) x = x.
Proof. by destruct x. Qed.

(** A cell without expression and filters recomputes to the candidate. *)
Lemma evaluate_constant (c : nat) (v : Value) (s : State) (x : Cell) :
  cells s !! c = Some x -> EXP x = None -> filters x = None ->
  evaluate c v s = (ROk v, s).
Proof.
  intros Hx He Hf. unfold evaluate. rewrite bind_run, (get_cell_run _ _ _ Hx).
  by rewrite He, Hf.
Qed.

Lemma reset_pending_constant (c : nat) (s : State) (x : Cell) :
  cells s !! c = Some x -> EXP x = None -> filters x = None ->
  exists y, cells (reset_pending c s).2 !! c = Some y /\ EXP y = None /\ filters y = None.
Proof.
  intros Hx He Hf. unfold reset_pending. rewrite bind_run, (get_cell_run _ _ _ Hx).
  destruct (decide (TYPE x = INHERIT)).
  - unfold mod_cell, modify, with_cells. cbn [snd cells].
    rewrite list_lookup_alter_eq, Hx. by eexists.
  - by exists x.
Qed.

Section FrameDispatch.
Variable c : nat.
Variable Q : Cell -> Prop.
Hypothesis HQ : stable Q.
Variable rec : nat -> bool -> M unit.
Variable fuel : nat.

Local Abbreviation I := (cell_sat c Q).

Hypothesis Hrec : forall d force, preserves I (rec d force).

Local Lemma HR : read_stable Q.
Proof. exact (st_read Q HQ). Qed.
Hint Resolve HR : pres.

Lemma compact_preserves d : preserves I (mod_cell d compact).
Proof. apply cell_sat_mod_cell. intros _ x Hx. by apply st_compact. Qed.

Hint Resolve mod_group_preserves set_group_preserves mod_pendingType_preserves
  set_pendingType_preserves set_updateHandle_preserves compact_preserves
  evaluate_preserves reset_pending_preserves : pres.

Lemma call_listener_preserves l this : preserves I (call_listener rec l this).
Proof. destruct l; simpl; unfold log; repeat pres_step. Qed.
Hint Resolve call_listener_preserves : pres.

Lemma for_each_preserves ls this : preserves I (for_each rec ls this).
Proof. induction ls as [|l ls IH]; simpl; repeat pres_step. Qed.
Hint Resolve for_each_preserves : pres.

Lemma fire_group_preserves g d : preserves I (fire_group rec g d).
Proof. unfold fire_group. repeat pres_step. Qed.

Lemma drain_preserves k q : preserves I (drain rec k q).
Proof.
  induction k as [|k IH]; simpl; [pres_step|].
  pres_step; [pres_step|]. destruct a as [[|[l this] tl]|]; repeat pres_step.
Qed.
Hint Resolve fire_group_preserves drain_preserves : pres.

Lemma CALL_LISTENERS_preserves q d : preserves I (CALL_LISTENERS rec fuel q d).
Proof. unfold CALL_LISTENERS. repeat pres_step. Qed.
Hint Resolve CALL_LISTENERS_preserves : pres.

Lemma set_type_with_preserves d t : preserves I (set_type_with rec fuel d t).
Proof.
  unfold set_type_with. apply preserves_bind_run; [pres_step|].
  intros s x s' Hs Hget. apply get_cell_inv in Hget as [-> Hx].
  destruct (decide (TYPE x = STATIC)) as [|Hns]; [done|].
  destruct (decide (TYPE x = t)); [done|].
  revert s Hs Hx. 
  enough (H : forall s, I s /\ cells s !! d = Some x ->
            I ((mod_cell d (set_TYPE t);;
                (if decide (TYPE x = INVALID) then rec d true else ret tt);;
                CALL_LISTENERS rec fuel QTypeChanges d) s).2) by eauto.
  intros s [Hs Hx]. rewrite bind_run.
  assert (I (mod_cell d (set_TYPE t) s).2) as H1.
  { apply cell_sat_mod_cell_at; [done|]. intros -> y Hy HQy.
    apply st_TYPE; [done..|]. congruence. }
  destruct (mod_cell d (set_TYPE t) s) as [[[]|e|] s1]; simpl in H1; [|done..].
  revert s1 H1. fold (preserves I ((if decide (TYPE x = INVALID) then rec d true else ret tt);;
                CALL_LISTENERS rec fuel QTypeChanges d)).
  repeat pres_step.
Qed.
Hint Resolve set_type_with_preserves : pres.

(** Steps 4 to 7 keep the invariant when the value they store is allowed
    for the invariant's cell. *)
Lemma update_finish_preserves d force nv :
  (d = c -> (forall x w, Q x -> Q (set_VALUE w x)) \/ (forall x, Q x -> VALUE x = nv)) ->
  preserves I (update_finish rec fuel d force nv).
Proof.
  intros Hnv. unfold update_finish. repeat pres_step.
  apply cell_sat_mod_cell. intros Hd x Hx.
  destruct (Hnv Hd) as [H|H]; [by apply H|].
  rewrite <- (H x Hx). by rewrite set_VALUE_same.
Qed.


Lemma update_body_preserves d force : preserves I (update_body rec fuel d force).
Proof.
  unfold update_body. pres_step; [pres_step|].
  apply preserves_bind_run; [pres_step|].
  intros s x s' Hs Hget. apply get_cell_inv in Hget as [-> Hx].
  rewrite bind_run.
  pose proof (reset_pending_preserves c Q HR d s Hs) as Hm.
  pose proof (reset_pending_constant d s x Hx) as Hm2.
  destruct (reset_pending d s) as [[[]|e|] s1]; simpl in Hm; [|done..].
  rewrite bind_run.
  pose proof (evaluate_preserves c Q HR d (VALUE x) s1 Hm) as He.
  destruct (evaluate d (VALUE x) s1) as [[nv|e|] s2] eqn:Ee; simpl in He; [|done..].
  apply update_finish_preserves; [|done].
  intros ->. destruct (st_VALUE Q HQ) as [H|[v0 H]]; [by left|right].
  destruct Hs as [x' [Hx' HQx]]. assert (x' = x) as -> by congruence.
  destruct (H x HQx) as (Hex & Hfx & Hvx).
  destruct (Hm2 Hex Hfx) as (y' & Hy' & Hey & Hfy). simpl in Hy'.
  rewrite (evaluate_constant _ _ _ _ Hy' Hey Hfy) in Ee. inversion Ee; subst.
  intros z Hz. by destruct (H z Hz) as (_ & _ & ->).
Qed.
End FrameDispatch.

(** [update], with any fuel and on any cell, keeps a stable invariant of the
    cell [c], whatever its outcome. *)
Theorem update_preserves (c : nat) (Q : Cell -> Prop) :
  stable Q -> forall fuel d force, preserves (cell_sat c Q) (update fuel d force).
Proof.
  intros HQ fuel. induction fuel as [|n IH]; intros d force; simpl.
  - apply preserves_fuel.
  - by apply update_body_preserves.
Qed.

(** ** Cells whose listeners are user callbacks *)

Lemma set_group_same (g : Group) (x : Cell) : set_group g (get_group g x) x = x.
Proof. by destruct x, g. Qed.

Lemma with_cells_alter_id (f : Cell -> Cell) (c : nat) (s : State) (x : Cell) :
  cells s !! c = Some x -> f x = x -> with_cells (alter f c) s = s.
Proof.
  intros Hx Hf. destruct s as [cs ? ? ? ? ? ? ? ? ?]. unfold with_cells. simpl in *.
  f_equal. apply list_eq. intros i. destruct (decide (c = i)) as [<-|Hne].
  - by rewrite list_lookup_alter_eq, Hx; simpl; rewrite Hf.
  - by rewrite list_lookup_alter_ne.
Qed.

Lemma State_ext (s s' : State) :
  cells s = cells s' -> handles s = handles s' -> arrays s = arrays s' ->
  childStack s = childStack s' ->
  updatesQueue s = updatesQueue s' -> updatesInProgress s = updatesInProgress s' ->
  typeChangesQueue s = typeChangesQueue s' ->
  typeChangesInProgress s = typeChangesInProgress s' ->
  trace s = trace s' -> console s = console s' -> s = s'.
Proof. destruct s, s'; simpl; intros; by subst. Qed.

(** Closes an equation between two states built from the same state by
    field updates. *)
Ltac state_eq :=
  apply State_ext;
  cbn [cells handles arrays childStack updatesQueue updatesInProgress
       typeChangesQueue typeChangesInProgress trace console
       with_cells with_handles with_arrays with_childStack with_trace
       with_console with_queue with_progress decide decide_rel QName_eq_dec
       QName_rec QName_rect sumbool_rec sumbool_rect];
  try reflexivity.

Lemma with_trace_nil (s : State) : with_trace (fun _ => trace s ++ []) s = s.
Proof. destruct s. unfold with_trace. simpl. by rewrite app_nil_r. Qed.

Section UserListeners.
Variable rec : nat -> bool -> M unit.

Lemma for_each_user (tags : list nat) (c : nat) (s : State) :
  for_each rec (map LUser tags) c s =
  (ROk tt, with_trace (fun _ => trace s ++ calls c tags) s).
Proof.
  revert s. induction tags as [|tag tags IH]; intros s; simpl.
  - by rewrite with_trace_nil.
  - unfold log. mpure. rewrite IH. f_equal. unfold with_trace. simpl.
    by rewrite <- app_assoc.
Qed.

Lemma fire_group_user (g : Group) (c : nat) (s : State) (x : Cell) o :
  cells s !! c = Some x -> get_group g x = user_group o ->
  fire_group rec g c s =
  (ROk tt, with_trace (fun _ => trace s ++ calls c (default [] o)) s).
Proof.
  intros Hx Hg. unfold fire_group. mget Hx. rewrite Hg.
  destruct o as [tags|]; simpl.
  - apply for_each_user.
  - by rewrite with_trace_nil.
Qed.

Lemma enqueue_loop_user (hs : list Handle) (kept : list Listener) (tags : list nat) :
  enqueue_loop hs kept (map LUser tags) =
  (false, Some (kept ++ map LUser tags), map LUser tags).
Proof.
  revert kept. induction tags as [|tag tags IH]; intros kept; simpl.
  - by rewrite app_nil_r.
  - rewrite IH. by rewrite <- app_assoc.
Qed.

Lemma drain_user (q : QName) (k : nat) (c : nat) (tags : list nat) (s : State) :
  get_queue q s = Some (thunks c (map LUser tags)) -> length tags < k ->
  drain rec k q s =
  (ROk tt, with_queue q (Some []) (with_trace (fun _ => trace s ++ calls c tags) s)).
Proof.
  revert k s. induction tags as [|tag tags IH]; intros k s Hq Hk.
  - destruct k as [|k]; [simpl in Hk; lia|]. simpl. mpure. rewrite Hq. simpl.
    cbn [ret]. f_equal. destruct q; cbn [get_queue] in Hq; state_eq;
      by rewrite ?app_nil_r.
  - destruct k as [|k]; [simpl in Hk; lia|]. simpl in Hk. simpl drain. mpure.
    rewrite Hq. simpl. mpure. unfold log. mpure.
    rewrite (IH k); [|by destruct q|lia].
    f_equal. destruct q; state_eq; by rewrite <- app_assoc.
Qed.

Lemma CALL_LISTENERS_user (fuel : nat) (q : QName) (c : nat) (s : State) (x : Cell) o :
  cells s !! c = Some x -> get_group (qgroup q) x = user_group o ->
  get_queue q s = None -> get_progress q s = false ->
  length (default [] o) < fuel ->
  CALL_LISTENERS rec fuel q c s =
  (ROk tt, with_trace (fun _ => trace s ++ calls c (default [] o)) s).
Proof.
  intros Hx Hg Hq Hp Hk. unfold CALL_LISTENERS. mpure. rewrite Hq. mpure.
  assert (cells (with_queue q (Some []) s) !! c = Some x) as Hx1 by done.
  mget Hx1. rewrite Hg. destruct o as [tags|]; cbn [user_group fmap option_fmap option_map].
  - mpure. rewrite enqueue_loop_user. cbn [app]. mpure.
    cbn [user_group fmap option_fmap option_map] in Hg.
    rewrite <- Hg, (with_cells_alter_id _ c _ x Hx1 (set_group_same _ x)).
    mpure. mpure. mpure.
    assert (get_progress q (with_queue q (Some (default [] (get_queue q (with_queue q (Some []) s))
              ++ map (fun l => (l, c)) (map LUser tags))) (with_queue q (Some []) s)) = false)
      as -> by (by destruct q).
    mpure. erewrite bind_ok; [|apply (drain_user _ _ c tags); [by destruct q|exact Hk]].
    mpure. unfold modify. f_equal. clear Hx Hx1 Hg.
    destruct q; cbn [get_queue get_progress] in Hq, Hp; state_eq; by symmetry.
  - mpure. mpure.
    assert (get_progress q (with_queue q (Some []) s) = false) as -> by (by destruct q).
    mpure. erewrite bind_ok; [|apply (drain_user _ _ c []); [by destruct q|exact Hk]].
    mpure. unfold modify. f_equal. clear Hx Hx1 Hg.
    destruct q; cbn [get_queue get_progress] in Hq, Hp; state_eq; by symmetry.
Qed.
End UserListeners.

Lemma same_settings_pending (x y : Cell) p :
  same_settings x y -> same_settings x (set_pendingType p y).
Proof. done. Qed.

Lemma same_settings_handle (x y : Cell) h :
  same_settings x y -> same_settings x (set_updateHandle h y).
Proof. done. Qed.

Lemma same_settings_refl (x : Cell) : same_settings x x.
Proof. by repeat split. Qed.

(** A cell [c] that is not of type INHERIT and whose pre-update, update
    and post-update listeners are the user callbacks [ps], [us] and [qs],
    recomputed while no 'updates' dispatch is in progress: when its
    evaluation returns [nv], [update(force)] returns, calls the pre-update
    listeners, then (only if [nv] differs from the stored value, or under
    [force]) the update listeners, then the post-update listeners, and the
    cell stores [nv]. *)
Section LocalUpdate.
Variables (fuel : nat) (c : nat) (force : bool).
Variables (x : Cell) (ps us qs : option (list nat)).
Hypothesis Htype : TYPE x <> INHERIT.
Hypothesis Hpre : get_group preupdates x = user_group ps.
Hypothesis Hupd : get_group updates x = user_group us.
Hypothesis Hpost : get_group postupdates x = user_group qs.
Hypothesis Hfuel : length (default [] us) < fuel.

Lemma update_finish_local (s2 : State) (x2 : Cell) (nv : Value) :
  cells s2 !! c = Some x2 -> same_settings x x2 ->
  updatesQueue s2 = None -> updatesInProgress s2 = false ->
  let fired := negb (strict_eq nv (VALUE x)) || force in
  let r := update_finish (update fuel) fuel c force nv s2 in
  r.1 = ROk tt /\
  trace r.2 = trace s2 ++ (if fired then calls c (default [] us) else [])
                       ++ calls c (default [] qs) /\
  cell_sat c (fun y => VALUE y = nv) r.2.
Proof.
  intros Hx2 (Hv & Ht & _ & _ & Hg) Hq Hp fired r. subst r.
  unfold update_finish. mget Hx2. rewrite Ht, decide_False by done. mpure.
  mget Hx2. rewrite Hv. fold fired.
  assert (exists s4 x4,
    (if fired then mod_cell c (set_VALUE nv);; CALL_LISTENERS (update fuel) fuel QUpdates c
     else ret tt) s2 = (ROk tt, s4) /\
    cells s4 !! c = Some x4 /\ VALUE x4 = nv /\ TYPE x4 = TYPE x /\
    get_group postupdates x4 = user_group qs /\
    trace s4 = trace s2 ++ (if fired then calls c (default [] us) else []))
    as (s4 & x4 & H4 & Hx4 & Hv4 & Ht4 & Hg4 & Htr4).
  { destruct fired eqn:Ef.
    - mpure.
      assert (cells (with_cells (alter (set_VALUE nv) c) s2) !! c = Some (set_VALUE nv x2))
        as Hx3 by (cbn [with_cells cells]; by rewrite list_lookup_alter_eq, Hx2).
      erewrite (CALL_LISTENERS_user _ _ QUpdates c _ _ us Hx3); try done.
      + eexists _, _. split; [done|]. split; [exact Hx3|].
        repeat split; try done. by rewrite <- Hpost, <- (Hg postupdates).
      + by rewrite <- Hupd, <- (Hg updates).
    - exists s2, x2. split; [done|]. split; [done|]. repeat split; try done.
      + subst fired. apply orb_false_iff in Ef as [Ef _].
        apply negb_false_iff, strict_eq_true in Ef. congruence.
      + by rewrite <- Hpost, <- (Hg postupdates).
      + by rewrite app_nil_r. }
  rewrite (bind_ok _ _ _ _ _ H4).
  erewrite bind_ok; [|by apply (fire_group_user _ postupdates c s4 x4 qs)].
  assert (cells (with_trace (fun _ => trace s4 ++ calls c (default [] qs)) s4) !! c = Some x4)
    as Hx5 by done.
  mget Hx5. destruct (decide (TYPE x4 = STATIC)).
  - rewrite mod_cell_run. cbn [fst snd with_cells with_trace trace cells].
    split; [done|]. split; [by rewrite Htr4, <- app_assoc|].
    exists (compact x4). cbn [with_cells with_trace cells].
    by rewrite list_lookup_alter_eq, Hx4.
  - cbn [ret fst snd with_trace trace]. split; [done|].
    split; [by rewrite Htr4, <- app_assoc|]. by exists x4.
Qed.

Lemma update_local (s s2 : State) (nv : Value) :
  cells s !! c = Some x ->
  updatesQueue s = None -> updatesInProgress s = false ->
  evaluate c (VALUE x) (with_trace (fun _ => trace s ++ calls c (default [] ps)) s)
    = (ROk nv, s2) ->
  let fired := negb (strict_eq nv (VALUE x)) || force in
  let r := update (S fuel) c force s in
  r.1 = ROk tt /\
  trace r.2 = trace s ++ calls c (default [] ps)
                      ++ (if fired then calls c (default [] us) else [])
                      ++ calls c (default [] qs) /\
  cell_sat c (fun y => VALUE y = nv) r.2.
Proof.
  intros Hx Hq Hp Hev fired r. subst r. simpl update. unfold update_body.
  erewrite bind_ok; [|by apply (fire_group_user _ preupdates c s x ps)].
  set (s1 := with_trace (fun _ => trace s ++ calls c (default [] ps)) s) in *.
  assert (cells s1 !! c = Some x) as Hx1 by done.
  mget Hx1. unfold reset_pending. mget Hx1. rewrite decide_False by done. mpure.
  rewrite (bind_ok _ _ _ _ _ Hev).
  pose proof (evaluate_own c (same_settings x) (same_settings_pending x)
                (same_settings_handle x) (VALUE x) s1) as Hown.
  rewrite Hev in Hown. destruct Hown as (x2 & Hx2 & Hsame).
  { exists x. split; [done|apply same_settings_refl]. }
  pose proof (evaluate_dispatch_view c (VALUE x) s1) as Hdv. rewrite Hev in Hdv.
  simpl in Hdv.
  pose proof (f_equal (fun v => v.1.1.1.1) Hdv) as Htr.
  pose proof (f_equal (fun v => v.1.1.1.2) Hdv) as Hq2.
  pose proof (f_equal (fun v => v.1.1.2) Hdv) as Hp2.
  simpl in Htr, Hq2, Hp2.
  destruct (update_finish_local s2 x2 nv Hx2 Hsame) as (R1 & R2 & R3).
  { by rewrite Hq2. } { by rewrite Hp2. }
  split; [done|]. split; [|done]. rewrite R2, Htr. subst s1. simpl.
  by rewrite <- !app_assoc.
Qed.
End LocalUpdate.

(** ** Reading a cell *)

Lemma get_value_outside (c : nat) (s : State) (x : Cell) :
  cells s !! c = Some x ->
  match childStack s with Some top :: _ => top = c | _ => True end ->
  get_value c s = (ROk (VALUE x), s).
Proof.
  intros Hx Hst. unfold get_value. rewrite bind_run. cbn [gets].
  destruct (childStack s) as [|[top|] st].
  - rewrite bind_run. cbn [ret]. rewrite bind_run, (get_cell_run _ _ _ Hx). done.
  - subst top. rewrite decide_True by done.
    rewrite bind_run. cbn [ret]. rewrite bind_run, (get_cell_run _ _ _ Hx). done.
  - rewrite bind_run. cbn [ret]. rewrite bind_run, (get_cell_run _ _ _ Hx). done.
Qed.

(** The getter returns [this[VALUE]] whatever the type, also when it
    subscribes the cell on top of the evaluation stack. *)
Lemma get_value_returns_VALUE (c : nat) (s : State) (x : Cell) :
  cells s !! c = Some x -> stack_ok s -> (get_value c s).1 = ROk (VALUE x).
Proof.
  intros Hx Hst. unfold stack_ok in Hst.
  destruct (childStack s) as [|[top|] st] eqn:Hcs;
    try (rewrite (get_value_outside c s x Hx); [done|by rewrite Hcs]).
  destruct (decide (top = c)) as [->|Hne];
    try (rewrite (get_value_outside c s x Hx); [done|by rewrite Hcs]).
  destruct Hst as [t Ht].
  unfold get_value. mpure. rewrite Hcs, decide_False by done.
  mget Ht. mget Hx.
  destruct (decide (TYPE t = INHERIT)).
  - mpure.
    assert (cells (with_cells (alter (fun t0 => set_pendingType
              (max_pending (pendingType t0) (TYPE x)) t0) top) s) !! c = Some x) as H2.
    { cbn [with_cells cells]. by rewrite list_lookup_alter_ne. }
    assert (is_Some (cells (with_cells (alter (fun t0 => set_pendingType
              (max_pending (pendingType t0) (TYPE x)) t0) top) s) !! top)) as [t' H3].
    { cbn [with_cells cells]. rewrite list_lookup_alter_eq, Ht. by eexists. }
    revert H2 H3. generalize (with_cells (alter (fun t0 => set_pendingType
              (max_pending (pendingType t0) (TYPE x)) t0) top) s). clear Hx Ht Hcs s.
    intros s Hx Ht. destruct (decide (TYPE x = STATIC)).
    + mpure. mget Hx. done.
    + mget Ht. unfold onUpdateSub, ADD_LISTENER, warn_static. mget Hx.
      rewrite decide_False by done. mpure. mpure.
      rewrite bind_run. unfold get_cell. cbn [with_cells cells].
      by rewrite list_lookup_alter_eq, Hx.
  - mpure. destruct (decide (TYPE x = STATIC)).
    + mpure. mget Hx. done.
    + mget Ht. unfold onUpdateSub, ADD_LISTENER, warn_static. mget Hx.
      rewrite decide_False by done. mpure. mpure.
      rewrite bind_run. unfold get_cell. cbn [with_cells cells].
      by rewrite list_lookup_alter_eq, Hx.
Qed.

(** C4 (counterexample): the cell [new Dynx(5, DynxType.INVALID)] reads as
    5, not as the invalid sentinel. *)
Lemma C4_counterexample : ~ reads_invalid_sentinel invalid_cell_5 0.
Proof.
  intros H. specialize (H _ eq_refl eq_refl). vm_compute in H. discriminate.
Qed.

(** C4 (amended): for every cell whose type is INVALID, reading [value]
    returns the last stored value [this[VALUE]]; [src/dynx.js] has no
    invalid sentinel. *)
Theorem C4_invalid_reads_stored_value (s : State) (c : nat) (x : Cell) :
  cells s !! c = Some x -> TYPE x = INVALID -> stack_ok s ->
  (get_value c s).1 = ROk (VALUE x).
Proof. intros Hx _ Hst. by apply get_value_returns_VALUE. Qed.

Lemma C4_witness :
  (get_value 0 invalid_cell_5).1 = ROk (VNum 5).
Proof.
  apply (C4_invalid_reads_stored_value invalid_cell_5 0 (mk_cell (VNum 5) INVALID));
    [reflexivity | reflexivity | exact I].
Defined.

(** ** Assignments *)

Lemma stable_no_exp : stable (fun y => EXP y = None).
Proof. split; [split|..]; try done. by left. Qed.

(** Assigning the stored value to a cell that is not STATIC only deletes
    the expression. *)
Lemma set_value_same (fuel : nat) (s : State) (c : nat) (x : Cell) :
  cells s !! c = Some x -> TYPE x <> STATIC ->
  set_value fuel c (VALUE x) s = (ROk tt, with_cells (alter (set_EXP None) c) s).
Proof.
  intros Hx Hns. unfold set_value. mget Hx. rewrite decide_False by done.
  mpure. by rewrite strict_eq_refl.
Qed.

(** C10: assigning to [value] on a cell that is not STATIC always ends with
    the expression deleted; and when the assigned value is identical to the
    stored one the assignment does nothing else: it returns, and the state
    differs only by the deleted expression (no listener is called, no
    handle refreshed, nothing queued). *)
Theorem C10_value_assignment_drops_exp (fuel : nat) (s : State) (c : nat) (x : Cell)
    (v : Value) :
  cells s !! c = Some x -> TYPE x <> STATIC ->
  cell_sat c (fun y => EXP y = None) (set_value fuel c v s).2 /\
  (VALUE x = v ->
   set_value fuel c v s = (ROk tt, with_cells (alter (set_EXP None) c) s)).
Proof.
  intros Hx Hns. unfold set_value. mget Hx. rewrite decide_False by done.
  mpure.
  assert (cell_sat c (fun y => EXP y = None) (with_cells (alter (set_EXP None) c) s)) as H1.
  { exists (set_EXP None x). cbn [with_cells cells].
    by rewrite list_lookup_alter_eq, Hx. }
  split.
  - destruct (strict_eq (VALUE x) v); [done|]. mpure.
    assert (cell_sat c (fun y => EXP y = None)
              (with_cells (alter (set_VALUE v) c) (with_cells (alter (set_EXP None) c) s)))
      as H2.
    { revert H1. apply (cell_sat_mod_cell c _ c (set_VALUE v)). by intros _ y Hy. }
    destruct (decide (TYPE x = INVALID)); [done|].
    by apply (update_preserves c _ stable_no_exp).
  - intros <-. by rewrite strict_eq_refl.
Qed.

Lemma C10_witness :
  let s := with_cells (fun _ => [set_EXP (Some (EFun (Ret (VNum 7)))) (mk_cell (VNum 7) DYNAMIC)])
             empty_state in
  cell_sat 0 (fun y => EXP y = None) (set_value 3 0 (VNum 7) s).2 /\
  (VNum 7 = VNum 7 ->
   set_value 3 0 (VNum 7) s = (ROk tt, with_cells (alter (set_EXP None) 0) s)).
Proof.
  intros s.
  apply (C10_value_assignment_drops_exp 3 s 0
           (set_EXP (Some (EFun (Ret (VNum 7)))) (mk_cell (VNum 7) DYNAMIC)) (VNum 7));
    [reflexivity | discriminate].
Defined.

(** ** Finalization *)

Lemma stable_pinned_at (v : Value) : stable (pinned_at v).
Proof.
  split; [split| | |right; by exists v];
    intros; match goal with H : pinned_at _ _ |- _ => destruct H as (? & ? & ?) end;
    by repeat split.
Qed.

Lemma stable_frozen_at (v : Value) : stable (frozen_at v).
Proof.
  split; [split| | |right; exists v; by intros x (_ & ?)];
    intros; match goal with H : frozen_at _ _ |- _ => destruct H as (? & ? & ? & ?) end;
    by repeat split.
Qed.

(** On a STATIC cell the three setters throw and change nothing. *)
Lemma static_setters_throw (s : State) (c : nat) (x : Cell) :
  cells s !! c = Some x -> TYPE x = STATIC ->
  (forall n w, set_value n c w s = (RThrow ErrStaticValue, s)) /\
  (forall n e, set_exp n c e s = (RThrow ErrStaticValue, s)) /\
  (forall n t, set_type n c t s = (RThrow ErrStaticModify, s)).
Proof.
  intros Hx Ht. repeat split; intros; unfold set_value, set_exp, set_type, set_type_with;
    mget Hx; by rewrite decide_True.
Qed.

(** [[ADD_LiSTENER]] never throws on an existing cell. *)
Lemma ADD_LISTENER_returns (s : State) (c : nat) (x : Cell) g l first :
  cells s !! c = Some x -> (ADD_LISTENER c g l first s).1 = ROk tt.
Proof.
  intros Hx. unfold ADD_LISTENER, warn_static. mget Hx.
  destruct (decide (TYPE x = STATIC)); unfold console_error; mpure; done.
Qed.

Lemma set_value_pins (fuel : nat) (s : State) (c : nat) (x : Cell) (v : Value) :
  cells s !! c = Some x -> TYPE x <> STATIC -> filters x = None ->
  cell_sat c (pinned_at v) (set_value fuel c v s).2.
Proof.
  intros Hx Hns Hf. unfold set_value. mget Hx. rewrite decide_False by done.
  mpure. destruct (strict_eq (VALUE x) v) eqn:E.
  - apply strict_eq_true in E. exists (set_EXP None x). cbn [ret snd with_cells cells].
    by rewrite list_lookup_alter_eq, Hx.
  - mpure.
    assert (cell_sat c (pinned_at v)
              (with_cells (alter (set_VALUE v) c) (with_cells (alter (set_EXP None) c) s)))
      as H2.
    { exists (set_VALUE v (set_EXP None x)). cbn [with_cells cells].
      by rewrite !list_lookup_alter_eq, Hx. }
    destruct (decide (TYPE x = INVALID)); [done|].
    by apply (update_preserves c _ (stable_pinned_at v)).
Qed.

(** Once [finalize(v)] has returned on a cell without filters, the cell is
    a STATIC constant holding [v]. *)
Lemma finalize_freezes (fuel : nat) (s s' : State) (c : nat) (x : Cell) (v : Value) :
  cells s !! c = Some x -> TYPE x <> STATIC -> filters x = None ->
  finalize fuel c v s = (ROk tt, s') ->
  cell_sat c (frozen_at v) s'.
Proof.
  intros Hx Hns Hf H. unfold finalize in H. rewrite bind_run in H.
  pose proof (set_value_pins fuel s c x v Hx Hns Hf) as H1.
  destruct (set_value fuel c v s) as [[[]|e|] s1]; [|done..]. simpl in H1.
  destruct H1 as (y & Hy & HQy).
  unfold set_type, set_type_with in H. rewrite bind_run, (get_cell_run _ _ _ Hy) in H.
  destruct (decide (TYPE y = STATIC)) as [|Hyn]; [done|].
  rewrite bind_run in H. cbn [mod_cell modify] in H.
  assert (cell_sat c (frozen_at v) (with_cells (alter (set_TYPE STATIC) c) s1)) as H2.
  { exists (set_TYPE STATIC y). cbn [with_cells cells].
    rewrite list_lookup_alter_eq, Hy. split; [done|]. by split. }
  revert H2 H. generalize (with_cells (alter (set_TYPE STATIC) c) s1). intros s2 H2 H.
  assert (preserves (cell_sat c (frozen_at v))
            ((if decide (TYPE y = INVALID) then update fuel c true else ret tt);;
             CALL_LISTENERS (update fuel) fuel QTypeChanges c)) as Hp.
  { apply preserves_bind.
    - destruct (decide (TYPE y = INVALID)); [|apply preserves_ret].
      apply update_preserves, stable_frozen_at.
    - intros _. apply CALL_LISTENERS_preserves; [apply stable_frozen_at|].
      intros d force. apply update_preserves, stable_frozen_at. }
  specialize (Hp s2 H2). by rewrite H in Hp.
Qed.


(** C7 (the defect): [finalize(9)] on a DYNAMIC cell with a pre-update
    listener returns and leaves a STATIC cell that still holds the
    listener group: the terminal deletions at the end of [update] are not
    run after [finalize] has set the type. *)
Theorem C7_finalize_keeps_listeners :
  let r := finalize 5 0 (VNum 9) one_listened_cell in
  r.1 = ROk tt /\
  cell_sat 0 (fun y => TYPE y = STATIC /\ g_preupdates y = Some [LUser 7]) r.2 /\
  ~ cell_sat 0 (fun y => TYPE y = STATIC -> compacted y) r.2.
Proof.
  cbv zeta. split; [by vm_compute|]. split.
  - eexists. split; [by vm_compute|]. by split.
  - intros (y & Hy & Hc). vm_compute in Hy. inversion Hy; subst y; clear Hy.
    destruct (Hc eq_refl) as (_ & _ & Hg). specialize (Hg preupdates). discriminate.
Qed.

(** ** Exceptions *)

Lemma reset_pending_returns (c : nat) (s : State) (x : Cell) :
  cells s !! c = Some x -> (reset_pending c s).1 = ROk tt.
Proof.
  intros Hx. unfold reset_pending. mget Hx. by destruct (decide (TYPE x = INHERIT)).
Qed.

Lemma read_stable_VALUE (v : Value) : read_stable (fun y => VALUE y = v).
Proof. by split. Qed.



(** ** Force *)

(** C2 (counterexample): on [new Dynx(0)] with one listener in each of the
    three groups, [update(false)] leaves the value unchanged and calls the
    pre-update and the post-update listener. *)
Lemma C2_counterexample : ~ unforced_update_silent 3 listened_cell 0.
Proof.
  intros H. specialize (H _ eq_refl eq_refl). vm_compute in H. discriminate.
Qed.

(** C2 (amended): for a cell that is not of type INHERIT, whose listeners
    are user callbacks and which is recomputed while no dispatch is in
    progress: assigning the stored value calls no listener; [update(false)]
    whose evaluation returns the stored value calls no update listener but
    does call the pre-update and then the post-update listeners;
    [update(true)] calls the pre-update, the update and the post-update
    listeners, in this order, whatever value the evaluation returns. *)
Theorem C2_force_semantics (fuel : nat) (c : nat) (s : State) (x : Cell)
    (ps us qs : option (list nat)) :
  cells s !! c = Some x -> TYPE x <> INHERIT ->
  get_group preupdates x = user_group ps ->
  get_group updates x = user_group us ->
  get_group postupdates x = user_group qs ->
  updatesQueue s = None -> updatesInProgress s = false ->
  length (default [] us) < fuel ->
  let s1 := with_trace (fun _ => trace s ++ calls c (default [] ps)) s in
  trace (set_value fuel c (VALUE x) s).2 = trace s /\
  (forall s2, evaluate c (VALUE x) s1 = (ROk (VALUE x), s2) ->
     (update (S fuel) c false s).1 = ROk tt /\
     trace (update (S fuel) c false s).2 =
       trace s ++ calls c (default [] ps) ++ calls c (default [] qs)) /\
  (forall nv s2, evaluate c (VALUE x) s1 = (ROk nv, s2) ->
     (update (S fuel) c true s).1 = ROk tt /\
     trace (update (S fuel) c true s).2 =
       trace s ++ calls c (default [] ps) ++ calls c (default [] us)
               ++ calls c (default [] qs)).
Proof.
  intros Hx Ht Hp Hu Hq Hqu Hpr Hf s1. split; [|split].
  - destruct (decide (TYPE x = STATIC)) as [Hs|Hs].
    + unfold set_value. mget Hx. by rewrite decide_True.
    + by rewrite (set_value_same fuel s c x Hx Hs).
  - intros s2 Hev.
    destruct (update_local fuel c false x ps us qs Ht Hp Hu Hq Hf s s2 (VALUE x)
                Hx Hqu Hpr Hev) as (R1 & R2 & _).
    split; [done|]. by rewrite R2, strict_eq_refl.
  - intros nv s2 Hev.
    destruct (update_local fuel c true x ps us qs Ht Hp Hu Hq Hf s s2 nv
                Hx Hqu Hpr Hev) as (R1 & R2 & _).
    split; [done|]. rewrite R2. by rewrite orb_true_r.
Qed.

Lemma C2_witness :
  let s1 := with_trace (fun _ => trace listened_cell ++ calls 0 [1]) listened_cell in
  trace (set_value 2 0 (VNum 0) listened_cell).2 = trace listened_cell /\
  (forall s2, evaluate 0 (VNum 0) s1 = (ROk (VNum 0), s2) ->
     (update 3 0 false listened_cell).1 = ROk tt /\
     trace (update 3 0 false listened_cell).2 =
       trace listened_cell ++ calls 0 [1] ++ calls 0 [3]) /\
  (forall nv s2, evaluate 0 (VNum 0) s1 = (ROk nv, s2) ->
     (update 3 0 true listened_cell).1 = ROk tt /\
     trace (update 3 0 true listened_cell).2 =
       trace listened_cell ++ calls 0 [1] ++ calls 0 [2] ++ calls 0 [3]).
Proof.
  apply (C2_force_semantics 2 0 listened_cell
           (set_group postupdates (Some [LUser 3])
              (set_group updates (Some [LUser 2])
                 (set_group preupdates (Some [LUser 1]) (mk_cell (VNum 0) DYNAMIC))))
           (Some [1]) (Some [2]) (Some [3]));
    first [reflexivity | discriminate | vm_compute; lia].
Defined.

(** ** Minimal subscription *)

Lemma strict_eq_false (a b : Value) : a <> b -> strict_eq a b = false.
Proof. intros H. unfold strict_eq. by apply bool_decide_eq_false. Qed.

(** A forced [update] of a constant cell without filters and pre-update
    listeners, not of type INHERIT, stores nothing new: it is the
    'updates' dispatch followed by the end of [update]. *)
Lemma update_forced_constant (n : nat) (c : nat) (s : State) (x : Cell) :
  cells s !! c = Some x -> EXP x = None -> filters x = None -> TYPE x <> INHERIT ->
  g_preupdates x = None ->
  update (S n) c true s =
  (CALL_LISTENERS (update n) n QUpdates c;;
   fire_group (update n) postupdates c;;
   x ← get_cell c;
   if decide (TYPE x = STATIC) then mod_cell c compact else ret tt) s.
Proof.
  intros Hx He Hf Ht Hp. simpl update. unfold update_body, fire_group at 1.
  mget Hx. cbn [get_group]. rewrite Hp. mpure. mget Hx.
  unfold reset_pending. mget Hx. rewrite decide_False by done. mpure.
  rewrite (bind_ok _ _ _ _ _ (evaluate_constant c (VALUE x) s x Hx He Hf)).
  unfold update_finish. mget Hx. rewrite decide_False by done. mpure.
  mget Hx. rewrite orb_true_r. mpure.
  rewrite (with_cells_alter_id _ c s x Hx (set_VALUE_same x)).
  by rewrite ?bind_assoc.
Qed.

(** Assigning a new value to such a cell of type DYNAMIC: the store, then
    the dispatch. *)
Lemma set_value_constant (n : nat) (c : nat) (s : State) (x : Cell) (w : Value) :
  cells s !! c = Some x -> filters x = None -> TYPE x = DYNAMIC ->
  g_preupdates x = None -> w <> VALUE x ->
  set_value (S n) c w s =
  (CALL_LISTENERS (update n) n QUpdates c;;
   fire_group (update n) postupdates c;;
   x ← get_cell c;
   if decide (TYPE x = STATIC) then mod_cell c compact else ret tt)
    (with_cells (alter (set_VALUE w) c) (with_cells (alter (set_EXP None) c) s)).
Proof.
  intros Hx Hf Ht Hp Hw. unfold set_value. mget Hx. rewrite Ht, decide_False by done.
  mpure. rewrite strict_eq_false by done. mpure. rewrite decide_False by done.
  apply (update_forced_constant n c _ (set_VALUE w (set_EXP None x))); try done.
  - cbn [with_cells cells]. by rewrite !list_lookup_alter_eq, Hx.
  - cbn. by rewrite Ht.
Qed.

Lemma fork_true_in1 :
  cells fork_true !! 1 = Some (set_group updates (Some [LHandle 0]) (mk_cell (VNum 0) DYNAMIC)).
Proof. by vm_compute. Qed.

Lemma fork_true_in2 : cells fork_true !! 2 = Some (mk_cell (VNum 1) DYNAMIC).
Proof. by vm_compute. Qed.

Lemma fork_false_in1 :
  cells fork_false !! 1 = Some (set_group updates (Some [LHandle 0]) (mk_cell (VNum 0) DYNAMIC)).
Proof. by vm_compute. Qed.

Lemma fork_false_in2 :
  cells fork_false !! 2 = Some (set_group updates (Some [LHandle 1]) (mk_cell (VNum 1) DYNAMIC)).
Proof. by vm_compute. Qed.

(** Splits an assignment [set_value 5 c w s] where [c] is one of the input
    cells: either [w] is the stored value, or the assignment is the store
    followed by the dispatch, which computes for each shape of [w]. *)
Ltac assign_input Hx :=
  match type of Hx with
  | cells ?s !! ?c = Some ?x =>
      match goal with
      | |- context [set_value 5 c ?w s] =>
          let Hw := fresh "Hw" in
          destruct (decide (w = VALUE x)) as [Hw|Hw];
          [ try (subst w; rewrite (set_value_same 5 s c x Hx) by done)
          | rewrite (set_value_constant 4 c s x w Hx) by done ]
      end
  end.

(** C1: in the scenario [out = fork ? in1 : in2] (cells 0, 1, 2 and 3 =
    [out]), while [fork] is true assigning any value to [in2] calls no
    listener of [out], and assigning a new value to [in1] recomputes [out]
    (its pre-update and update listeners are called); setting [fork] to
    false recomputes [out]; from then on assigning to [in1] calls no
    listener of [out] and assigning a new value to [in2] recomputes it. *)
Theorem C1_minimal_subscription :
  (fork_setup 5 empty_state).1 = ROk (0, 1, 2, 3) /\
  trace fork_true = [] /\
  (forall w, trace (set_value 5 2 w fork_true).2 = []) /\
  (forall w, w <> VNum 0 ->
             trace (set_value 5 1 w fork_true).2 = [EvCall 100 3; EvCall 101 3]) /\
  trace fork_false = [EvCall 100 3; EvCall 101 3] /\
  (forall w, trace (set_value 5 1 w fork_false).2 = trace fork_false) /\
  (forall w, w <> VNum 1 ->
             trace (set_value 5 2 w fork_false).2 =
             trace fork_false ++ [EvCall 100 3; EvCall 101 3]).
Proof.
  split; [by vm_compute|]. split; [by vm_compute|].
  split; [|split; [|split; [by vm_compute|split]]].
  - intros w. assign_input fork_true_in2; [by vm_compute|].
    destruct w as [|b|z|str|str]; by vm_compute.
  - intros w Hw0. assign_input fork_true_in1; [by destruct Hw0|].
    destruct w as [|b|[|p|p]|str|str]; by vm_compute.
  - intros w. assign_input fork_false_in1; [by vm_compute|].
    destruct w as [|b|z|str|str]; by vm_compute.
  - intros w Hw1. assign_input fork_false_in2; [by destruct Hw1|].
    destruct w as [|b|[|[p|p|]|p]|str|str]; by vm_compute.
Qed.

(** ** Filters on a constant *)

(** C3 (the defect): on [new Dynx(1)], attaching [F1 = x => 2 * x] stores 2;
    attaching [F2 = x => x + 3] then stores [F2(F1(2)) = 7], not
    [F2(F1(1)) = 5]; detaching [F2] stores [F1(7) = 14], not [F1(1) = 2]:
    each recomputation filters the stored, already filtered value. *)
Theorem C3_filters_reapplied_to_stored_value :
  let s1 := (onFilterSub 3 0 double_filter false one_cell).2 in
  let s2 := (onFilterSub 3 0 plus3_filter false s1).2 in
  let s3 := (onFilterUnsub 3 0 plus3_filter s2).2 in
  VALUE <$> cells s1 !! 0 = Some (VNum 2) /\
  VALUE <$> cells s2 !! 0 = Some (VNum 7) /\
  VALUE <$> cells s3 !! 0 = Some (VNum 14).
Proof. by vm_compute. Qed.

(** ** Conditionals on a STATIC parent *)

(** C9 (the defect): on a STATIC parent holding 5, [parent.if(x => false, 1)]
    returns the STATIC conditional 2; [.else(2)] on it returns a new cell 3
    over the same parent and condition list, but [createBasicCond] is
    called with the captured [_elseThen] (undefined): the new cell has no
    else value and reads undefined, and the 2 is stored on the old cell. *)
Theorem C9_else_on_static_loses_value :
  let r1 := proto_if 5 0 (fun _ => false) (VNum 1) static_parent in
  let r2 := cond_else 5 2 (VNum 2) r1.2 in
  r1.1 = ROk 2 /\ TYPE <$> cells r1.2 !! 2 = Some STATIC /\
  r2.1 = ROk 3 /\
  _ifThens <$> cells r2.2 !! 3 = _ifThens <$> cells r2.2 !! 2 /\
  _elseThen <$> cells r2.2 !! 3 = Some VUndef /\
  VALUE <$> cells r2.2 !! 3 = Some VUndef /\
  _elseThen <$> cells r2.2 !! 2 = Some (VNum 2).
Proof. by vm_compute. Qed.

(** * Further properties of the code *)

(** ** The enqueueing loop of [CALL_LISTENERS] *)

Lemma enqueue_loop_spec (hs : list Handle) (kept rest : list Listener) :
  LUndef ∉ rest ->
  enqueue_loop hs kept rest =
  (false,
   (if bool_decide (kept ++ live_listeners hs rest = [] /\ rest <> [])
    then None else Some (kept ++ live_listeners hs rest)),
   live_listeners hs rest).
Proof.
  revert kept. induction rest as [|l rest IH]; intros kept Hun.
  - cbn [enqueue_loop]. unfold live_listeners. rewrite filter_nil.
    case_bool_decide as H; [by destruct H|]. by rewrite app_nil_r.
  - assert (l <> LUndef) as Hl by (intros ->; apply Hun; left).
    assert (LUndef ∉ rest) as Hrest by (intros ?; apply Hun; by right).
    unfold live_listeners. rewrite filter_cons. fold (live_listeners hs rest).
    assert (enqueue_loop hs kept (l :: rest) =
            if is_obsolete hs l then
              match kept ++ rest with
              | [] => (false, None, [])
              | _ => enqueue_loop hs kept rest
              end
            else let '(err, arr, q) := enqueue_loop hs (kept ++ [l]) rest in
                 (err, arr, l :: q)) as -> by (by destruct l).
    destruct (is_obsolete hs l) eqn:Eo.
    + rewrite decide_False by done.
      destruct (kept ++ rest) as [|y r] eqn:Ekr.
      * apply app_eq_nil in Ekr as [-> ->]. unfold live_listeners. rewrite filter_nil.
        case_bool_decide as H; [done|]. destruct H. by split.
      * rewrite (IH kept Hrest).
        repeat case_bool_decide; try done.
        -- match goal with H : ¬ _ |- _ => destruct H end. split; [|done].
           match goal with H : _ /\ _ |- _ => by destruct H end.
        -- match goal with H : ¬ _ |- _ => destruct H end.
           match goal with H : _ /\ _ |- _ => destruct H as [E _] end.
           split; [done|]. intros ->. rewrite app_nil_r in Ekr.
           unfold live_listeners in E. rewrite filter_nil, app_nil_r in E.
           by rewrite E in Ekr.
    + rewrite decide_True by done. rewrite (IH (kept ++ [l]) Hrest).
      case_bool_decide as H1.
      { destruct H1 as [E _]. apply app_eq_nil in E as [E _]. by destruct kept. }
      case_bool_decide as H2.
      { destruct H2 as [E _]. by destruct kept. }
      by rewrite <- app_assoc.
Qed.

(** X1: the loop of [CALL_LISTENERS] over an array without [undefined]
    entries enqueues exactly the listeners that are not obsolete, in array
    order; it leaves exactly those in the array, and deletes the array when
    it held only obsolete listeners (an empty array stays). *)
Theorem X1_dispatch_prunes_obsolete (hs : list Handle) (ls : list Listener) :
  LUndef ∉ ls ->
  enqueue_loop hs [] ls =
  (false,
   (if bool_decide (live_listeners hs ls = [] /\ ls <> [])
    then None else Some (live_listeners hs ls)),
   live_listeners hs ls).
Proof. intros H. apply (enqueue_loop_spec hs [] ls H). Qed.

Lemma X1_witness :
  let hs := [{| owner := 0; obsolete := true |}; {| owner := 0; obsolete := false |}] in
  enqueue_loop hs [] [LHandle 0; LUser 7; LHandle 1] =
  (false, Some [LUser 7; LHandle 1], [LUser 7; LHandle 1]).
Proof.
  intros hs.
  apply (X1_dispatch_prunes_obsolete hs [LHandle 0; LUser 7; LHandle 1]).
  repeat (apply not_elem_of_cons; split; [done|]). apply not_elem_of_nil.
Defined.

(** ** Dispatch while a dispatch is in progress *)

(** X2: when a dispatch of the same name is already in progress,
    [CALL_LISTENERS] calls no listener and does not recurse into [update]:
    it prunes the obsolete listeners of the cell, appends one thunk per
    remaining listener to the shared queue, in array order, and returns. *)
Theorem X2_nested_dispatch_enqueues (rec : nat -> bool -> M unit) (fuel : nat)
    (q : QName) (c : nat) (s : State) (x : Cell) (ls : list Listener) :
  cells s !! c = Some x -> get_group (qgroup q) x = Some ls -> LUndef ∉ ls ->
  get_progress q s = true ->
  CALL_LISTENERS rec fuel q c s =
  (ROk tt,
   with_queue q (Some (default [] (get_queue q s)
                         ++ thunks c (live_listeners (handles s) ls)))
     (with_cells
        (alter (set_group (qgroup q)
                  (if bool_decide (live_listeners (handles s) ls = [] /\ ls <> [])
                   then None else Some (live_listeners (handles s) ls))) c) s)).
Proof.
  intros Hx Hg Hun Hp. unfold CALL_LISTENERS. mpure.
  set (s0 := if get_queue q s is None then with_queue q (Some []) s else s).
  assert ((if get_queue q s is None then modify (with_queue q (Some [])) else ret tt) s
          = (ROk tt, s0)) as H0 by (subst s0; by destruct (get_queue q s)).
  rewrite ?bind_assoc, (bind_ok _ _ _ _ _ H0).
  assert (cells s0 !! c = Some x) as Hx0 by (subst s0; by destruct (get_queue q s)).
  assert (handles s0 = handles s) as Hh0 by (subst s0; by destruct (get_queue q s)).
  assert (get_progress q s0 = true) as Hp0.
  { subst s0. destruct (get_queue q s); [done|]. by destruct q. }
  mget Hx0. rewrite Hg. mpure. rewrite Hh0.
  rewrite (enqueue_loop_spec (handles s) [] ls Hun). cbn [app].
  mpure. mpure. mpure. mpure.
  match goal with |- context [get_progress q ?st] =>
    assert (get_progress q st = true) as -> by (by destruct q) end.
  cbn [ret]. f_equal. subst s0. clear Hx0 Hh0 Hp0 H0.
  destruct q; cbn [get_queue get_progress] in *;
    destruct s as [cs hs ar st [uq|] up [tq|] tp tr co]; by state_eq.
Qed.

Lemma X2_witness :
  let s := with_progress QUpdates true listened_cell in
  CALL_LISTENERS (update 0) 0 QUpdates 0 s =
  (ROk tt,
   with_queue QUpdates
     (Some (default [] (get_queue QUpdates s)
              ++ thunks 0 (live_listeners (handles s) [LUser 2])))
     (with_cells
        (alter (set_group (qgroup QUpdates)
                  (if bool_decide (live_listeners (handles s) [LUser 2] = []
                                   /\ [LUser 2] <> [])
                   then None else Some (live_listeners (handles s) [LUser 2]))) 0) s)).
Proof.
  intros s.
  apply (X2_nested_dispatch_enqueues (update 0) 0 QUpdates 0 s
           (set_group postupdates (Some [LUser 3])
              (set_group updates (Some [LUser 2])
                 (set_group preupdates (Some [LUser 1]) (mk_cell (VNum 0) DYNAMIC))))
           [LUser 2]);
    [reflexivity | reflexivity | | reflexivity].
  repeat (apply not_elem_of_cons; split; [done|]). apply not_elem_of_nil.
Defined.

(** ** The end of [update] *)

Lemma bind_ok_inv {A B} (m : M A) (f : A -> M B) (s s' : State) (b : B) :
  (m ≫= f) s = (ROk b, s') ->
  exists a s1, m s = (ROk a, s1) /\ f a s1 = (ROk b, s').
Proof.
  rewrite bind_run. destruct (m s) as [[a|e|] s1]; [|done..]. intros H. by exists a, s1.
Qed.

(** X3: whenever [update] returns on a cell whose type is then STATIC, the
    cell holds no expression, no filters and no pre-update, update or
    post-update listeners: the deletions at the end of [update]. *)
Theorem X3_update_releases_static (fuel : nat) (c : nat) (force : bool) (s s' : State) :
  update fuel c force s = (ROk tt, s') ->
  cell_sat c (fun y => TYPE y = STATIC -> released y) s'.
Proof.
  destruct fuel as [|n]; [done|]. simpl update. unfold update_body. intros H.
  apply bind_ok_inv in H as (u1 & s1 & _ & H).
  apply bind_ok_inv in H as (x0 & s2 & _ & H).
  apply bind_ok_inv in H as (u2 & s3 & _ & H).
  apply bind_ok_inv in H as (nv & s4 & _ & H).
  unfold update_finish in H.
  apply bind_ok_inv in H as (x1 & s5 & _ & H).
  apply bind_ok_inv in H as (u3 & s6 & _ & H).
  apply bind_ok_inv in H as (x2 & s7 & _ & H).
  apply bind_ok_inv in H as (u4 & s8 & _ & H).
  apply bind_ok_inv in H as (u5 & s9 & _ & H).
  apply bind_ok_inv in H as (y & s10 & Hy & H).
  apply get_cell_inv in Hy as [-> Hy].
  destruct (decide (TYPE y = STATIC)) as [Hs|Hs].
  - rewrite mod_cell_run in H. inversion H; subst s'. exists (compact y).
    cbn [with_cells cells]. rewrite list_lookup_alter_eq, Hy. split; [done|].
    intros _. by repeat split.
  - inversion H; subst s'. exists y. split; [done|]. intros Hy'. by destruct Hs.
Qed.

Lemma X3_witness :
  cell_sat 0 (fun y => TYPE y = STATIC -> released y)
    (update 3 0 false
       (with_cells (alter (set_TYPE STATIC) 0) listened_cell)).2.
Proof.
  apply (X3_update_releases_static 3 0 false
           (with_cells (alter (set_TYPE STATIC) 0) listened_cell)).
  by vm_compute.
Defined.

(** ** The type setter *)

(** X4: assigning a different type to a cell that is neither STATIC nor
    INVALID, whose type-change listeners are user callbacks, while no
    'typeChanges' dispatch is in progress: the type is stored, each
    type-change listener is called once, in order, and nothing else
    changes (the cell is not recomputed). *)
Theorem X4_type_change_notifies (fuel : nat) (c : nat) (s : State) (x : Cell)
    (t : DynxType) (tags : option (list nat)) :
  cells s !! c = Some x -> TYPE x <> STATIC -> TYPE x <> INVALID -> TYPE x <> t ->
  get_group typeChanges x = user_group tags ->
  typeChangesQueue s = None -> typeChangesInProgress s = false ->
  length (default [] tags) < fuel ->
  set_type fuel c t s =
  (ROk tt, with_trace (fun _ => trace s ++ calls c (default [] tags))
             (with_cells (alter (set_TYPE t) c) s)).
Proof.
  intros Hx Hs Hi Ht Hg Hq Hp Hf. unfold set_type, set_type_with. mget Hx.
  rewrite decide_False by done. rewrite decide_False by done. mpure.
  rewrite decide_False by done. mpure.
  assert (cells (with_cells (alter (set_TYPE t) c) s) !! c = Some (set_TYPE t x)) as Hx1.
  { cbn [with_cells cells]. by rewrite list_lookup_alter_eq, Hx. }
  by rewrite (CALL_LISTENERS_user (update fuel) fuel QTypeChanges c _ _ tags Hx1).
Qed.

Lemma X4_witness :
  let x := set_group typeChanges (Some [LUser 4]) (mk_cell (VNum 0) DYNAMIC) in
  let s := with_cells (fun _ => [x]) empty_state in
  set_type 2 0 INVALID s =
  (ROk tt, with_trace (fun _ => trace s ++ calls 0 (default [] (Some [4])))
             (with_cells (alter (set_TYPE INVALID) 0) s)).
Proof.
  intros x s. apply (X4_type_change_notifies 2 0 s x INVALID (Some [4]));
    first [reflexivity | discriminate | vm_compute; lia].
Defined.

(** ** Listener storage *)

Lemma get_set_group (g : Group) (a : option (list Listener)) (x : Cell) :
  get_group g (set_group g a x) = a.
Proof. by destruct g. Qed.

Lemma set_set_group (g : Group) (a b : option (list Listener)) (x : Cell) :
  set_group g a (set_group g b x) = set_group g a x.
Proof. by destruct g. Qed.

Lemma same_listener_refl (l : Listener) : same_listener l l = true.
Proof. unfold same_listener. by apply bool_decide_eq_true. Qed.

Lemma remove_first_absent (x : Listener) (l : list Listener) :
  x ∉ l -> remove_first same_listener x l = None.
Proof.
  induction l as [|y l IH]; intros Hx; [done|]. simpl.
  apply not_elem_of_cons in Hx as [Hne Hx]. unfold same_listener at 1.
  rewrite bool_decide_eq_false_2 by congruence. by rewrite IH.
Qed.

Lemma remove_first_last (x : Listener) (l : list Listener) :
  x ∉ l -> remove_first same_listener x (l ++ [x]) = Some l.
Proof.
  induction l as [|y l IH]; intros Hx; simpl.
  - by rewrite same_listener_refl.
  - apply not_elem_of_cons in Hx as [Hne Hx]. unfold same_listener at 1.
    rewrite bool_decide_eq_false_2 by congruence. by rewrite IH.
Qed.

Lemma remove_add (first : bool) (func : Listener) (o : option (list Listener)) :
  first = true \/ func ∉ default [] o -> o <> Some [] ->
  remove_from same_listener func (add_to first func o) = o.
Proof.
  intros Hf Ho. unfold remove_from, add_to. destruct o as [l|]; simpl.
  - destruct first.
    + simpl. rewrite same_listener_refl. by destruct l.
    + destruct Hf as [|Hf]; [done|]. simpl in Hf. rewrite remove_first_last by done.
      by destruct l.
  - destruct first; simpl; by rewrite same_listener_refl.
Qed.

Lemma alter_id_at (f : Cell -> Cell) (c : nat) (l : list Cell) (x : Cell) :
  l !! c = Some x -> f x = x -> alter f c l = l.
Proof.
  intros Hx Hf. apply list_eq. intros i. destruct (decide (c = i)) as [<-|Hne].
  - by rewrite list_lookup_alter_eq, Hx; simpl; rewrite Hf.
  - by rewrite list_lookup_alter_ne.
Qed.

(** X5: unsubscribing a handler right after subscribing it restores the
    cells (only the console may have gained the warning for a STATIC cell),
    provided the handler was put in front or was not in the group before,
    and the group was not an empty array (which would be deleted). *)
Theorem X5_unsubscribe_undoes_subscribe (c : nat) (g : Group) (func : Listener)
    (first : bool) (s : State) (x : Cell) :
  cells s !! c = Some x ->
  first = true \/ func ∉ default [] (get_group g x) ->
  get_group g x <> Some [] ->
  ((ADD_LISTENER c g func first;; REMOVE_LISTENER c g func) s).1 = ROk tt /\
  cells ((ADD_LISTENER c g func first;; REMOVE_LISTENER c g func) s).2 = cells s.
Proof.
  intros Hx Hf Ho. unfold ADD_LISTENER, REMOVE_LISTENER, warn_static. mget Hx.
  set (s0 := if decide (TYPE x = STATIC)
             then with_console (fun t => t ++ ["[Dynx] Subscription to a STATIC is unnecessary!"%string]) s
             else s).
  assert ((if decide (TYPE x = STATIC)
           then console_error "[Dynx] Subscription to a STATIC is unnecessary!"
           else ret tt) s = (ROk tt, s0)) as H0 by (subst s0; by destruct (decide _)).
  rewrite ?bind_assoc, (bind_ok _ _ _ _ _ H0).
  assert (cells s0 = cells s) as Hc0 by (subst s0; by destruct (decide _)).
  mpure.
  assert (cells (with_cells
                   (alter (fun x0 => set_group g (add_to first func (get_group g x0)) x0) c)
                   s0) !! c =
          Some (set_group g (add_to first func (get_group g x)) x)) as Hx1
    by (cbn [with_cells cells]; by rewrite Hc0, list_lookup_alter_eq, Hx).
  mget Hx1. rewrite mod_cell_run. cbn [fst snd with_cells cells]. split; [done|].
  rewrite Hc0, list_alter_alter_eq. apply (alter_id_at _ c _ x Hx). cbn [compose].
  rewrite get_set_group, set_set_group, remove_add by done. apply set_group_same.
Qed.

Lemma X5_witness :
  ((ADD_LISTENER 0 updates (LUser 9) false;; REMOVE_LISTENER 0 updates (LUser 9))
     listened_cell).1 = ROk tt /\
  cells ((ADD_LISTENER 0 updates (LUser 9) false;; REMOVE_LISTENER 0 updates (LUser 9))
           listened_cell).2 = cells listened_cell.
Proof.
  apply (X5_unsubscribe_undoes_subscribe 0 updates (LUser 9) false listened_cell
           (set_group postupdates (Some [LUser 3])
              (set_group updates (Some [LUser 2])
                 (set_group preupdates (Some [LUser 1]) (mk_cell (VNum 0) DYNAMIC)))));
    [reflexivity | right | discriminate].
  repeat (apply not_elem_of_cons; split; [done|]). apply not_elem_of_nil.
Defined.

(** X6: unsubscribing a handler that is not in the group (or from a group
    that does not exist) changes nothing at all. *)
Theorem X6_unsubscribe_absent (c : nat) (g : Group) (func : Listener)
    (s : State) (x : Cell) :
  cells s !! c = Some x -> func ∉ default [] (get_group g x) ->
  REMOVE_LISTENER c g func s = (ROk tt, s).
Proof.
  intros Hx Hf. unfold REMOVE_LISTENER. mget Hx. rewrite mod_cell_run. f_equal.
  apply (with_cells_alter_id _ c s x Hx). unfold remove_from.
  destruct (get_group g x) as [l|] eqn:Eg.
  - simpl in Hf. rewrite remove_first_absent by done. rewrite <- Eg. apply set_group_same.
  - rewrite <- Eg. apply set_group_same.
Qed.

Lemma X6_witness :
  REMOVE_LISTENER 0 updates (LUser 9) listened_cell = (ROk tt, listened_cell).
Proof.
  apply (X6_unsubscribe_absent 0 updates (LUser 9) listened_cell
           (set_group postupdates (Some [LUser 3])
              (set_group updates (Some [LUser 2])
                 (set_group preupdates (Some [LUser 1]) (mk_cell (VNum 0) DYNAMIC)))));
    [reflexivity|].
  repeat (apply not_elem_of_cons; split; [done|]). apply not_elem_of_nil.
Defined.

(** ** Reads that record nothing *)

Lemma type_max_STATIC (a : DynxType) : type_max a STATIC = a.
Proof. by destruct a. Qed.

(** X7: reading a STATIC cell returns its stored value and changes nothing
    in the state, whichever cell is being evaluated: no subscription is
    recorded, and the pending type of an INHERIT cell under evaluation is
    not raised. *)
Theorem X7_reading_static_records_nothing (c : nat) (s : State) (x : Cell) :
  cells s !! c = Some x -> TYPE x = STATIC -> stack_ok s ->
  get_value c s = (ROk (VALUE x), s).
Proof.
  intros Hx Hs Hst. unfold stack_ok in Hst.
  destruct (childStack s) as [|[top|] st] eqn:Hcs;
    try (apply get_value_outside; [done|by rewrite Hcs]).
  destruct (decide (top = c)) as [->|Hne];
    try (apply get_value_outside; [done|by rewrite Hcs]).
  destruct Hst as [t Ht].
  unfold get_value. mpure. rewrite Hcs, decide_False by done.
  mget Ht. mget Hx. rewrite Hs.
  destruct (decide (TYPE t = INHERIT)).
  - mpure.
    rewrite (with_cells_alter_id _ top s t Ht).
    + rewrite decide_True by done. mpure. mget Hx. done.
    + rewrite <- (set_group_same updates t) at 2. destruct t as [? ? ? [p|] ? ? ? ? ? ? ? ? ?];
        cbn; by rewrite ?type_max_STATIC.
  - mpure. rewrite decide_True by done. mpure. mget Hx. done.
Qed.

Lemma X7_witness :
  childStack static_read_state = [Some 1] /\
  TYPE <$> cells static_read_state !! 1 = Some INHERIT /\
  get_value 0 static_read_state = (ROk (VNum 5), static_read_state).
Proof.
  split; [reflexivity|]. split; [reflexivity|].
  apply (X7_reading_static_records_nothing 0 static_read_state (mk_cell (VNum 5) STATIC));
    [reflexivity | reflexivity | by eexists].
Defined.

(** ** What recomputation never does *)

Lemma stable_static : stable (fun y => TYPE y = STATIC).
Proof. split; [split|..]; try done. by left. Qed.

(** X8: a STATIC cell stays STATIC through every recomputation, of itself
    or of any other cell, whatever the outcome (return, exception, fuel). *)
Theorem X8_static_is_terminal (c : nat) (s : State) (fuel : nat) (d : nat) (force : bool) :
  cell_sat c (fun y => TYPE y = STATIC) s ->
  cell_sat c (fun y => TYPE y = STATIC) (update fuel d force s).2.
Proof. apply update_preserves, stable_static. Qed.

Lemma X8_witness :
  cell_sat 0 (fun y => TYPE y = STATIC) (update 3 0 true static_parent).2.
Proof.
  apply (X8_static_is_terminal 0 static_parent 3 0 true).
  exists (mk_cell (VNum 5) STATIC). by split.
Defined.

(** X9: a constant cell without filters keeps its value, and gains neither
    an expression nor filters, through every recomputation, of itself (also
    forced) or of any other cell, whatever the outcome. *)
Theorem X9_constant_keeps_value (c : nat) (v : Value) (s : State) (fuel : nat)
    (d : nat) (force : bool) :
  cell_sat c (pinned_at v) s ->
  cell_sat c (pinned_at v) (update fuel d force s).2.
Proof. apply update_preserves, stable_pinned_at. Qed.

Lemma X9_witness :
  cell_sat 0 (pinned_at (VNum 0)) (update 3 0 true listened_cell).2.
Proof.
  apply (X9_constant_keeps_value 0 (VNum 0) listened_cell 3 0 true).
  eexists. split; [reflexivity|]. by repeat split.
Defined.

(** ** Assignment to a constant *)

(** X10: assigning to [value] on a DYNAMIC cell without filters whose
    listeners are user callbacks, while no dispatch is in progress: a value
    identical to the stored one calls no listener; a new value is stored and
    the pre-update, update and post-update listeners are called once each,
    in this order. *)
Theorem X10_assignment_notifies (fuel : nat) (c : nat) (s : State) (x : Cell)
    (w : Value) (ps us qs : option (list nat)) :
  cells s !! c = Some x -> TYPE x = DYNAMIC -> filters x = None ->
  get_group preupdates x = user_group ps ->
  get_group updates x = user_group us ->
  get_group postupdates x = user_group qs ->
  updatesQueue s = None -> updatesInProgress s = false ->
  length (default [] us) < fuel ->
  let r := set_value (S fuel) c w s in
  r.1 = ROk tt /\
  cell_sat c (fun y => VALUE y = w /\ EXP y = None) r.2 /\
  trace r.2 = trace s ++
    (if strict_eq (VALUE x) w then []
     else calls c (default [] ps) ++ calls c (default [] us) ++ calls c (default [] qs)).
Proof.
  intros Hx Ht Hf Hp Hu Hq Hqu Hpr Hfu r. subst r. unfold set_value. mget Hx.
  rewrite Ht, decide_False by done. mpure.
  assert (cells (with_cells (alter (set_EXP None) c) s) !! c = Some (set_EXP None x)) as Hx1
    by (cbn [with_cells cells]; by rewrite list_lookup_alter_eq, Hx).
  destruct (strict_eq (VALUE x) w) eqn:E.
  - apply strict_eq_true in E. cbn [ret fst snd with_cells trace]. split; [done|].
    split; [|by rewrite app_nil_r]. by exists (set_EXP None x).
  - mpure. rewrite decide_False by done.
    set (s1 := with_cells (alter (set_VALUE w) c) (with_cells (alter (set_EXP None) c) s)).
    assert (cells s1 !! c = Some (set_VALUE w (set_EXP None x))) as Hx2
      by (subst s1; cbn [with_cells cells]; by rewrite !list_lookup_alter_eq, Hx).
    assert (evaluate c w (with_trace (fun _ => trace s1 ++ calls c (default [] ps)) s1)
            = (ROk w, with_trace (fun _ => trace s1 ++ calls c (default [] ps)) s1)) as Hev.
    { apply (evaluate_constant c w _ (set_VALUE w (set_EXP None x))); [exact Hx2|done|].
      cbn. exact Hf. }
    assert (TYPE (set_VALUE w (set_EXP None x)) <> INHERIT) as Ht' by (cbn; by rewrite Ht).
    destruct (update_local fuel c true (set_VALUE w (set_EXP None x)) ps us qs
                Ht' Hp Hu Hq Hfu s1 _ w Hx2 Hqu Hpr Hev) as (R1 & R2 & R3).
    split; [done|]. split.
    + pose proof (update_preserves c _ stable_no_exp (S fuel) c true s1) as Hne.
      destruct Hne as (y & Hy & Hey); [by eexists|].
      destruct R3 as (y' & Hy' & Hvy). exists y. split; [done|].
      split; [congruence|done].
    + rewrite R2. by rewrite orb_true_r.
Qed.

Lemma X10_witness :
  let r := set_value 3 0 (VNum 4) listened_cell in
  r.1 = ROk tt /\
  cell_sat 0 (fun y => VALUE y = VNum 4 /\ EXP y = None) r.2 /\
  trace r.2 = trace listened_cell ++
    (if strict_eq (VNum 0) (VNum 4) then []
     else calls 0 (default [] (Some [1])) ++ calls 0 (default [] (Some [2]))
          ++ calls 0 (default [] (Some [3]))).
Proof.
  apply (X10_assignment_notifies 2 0 listened_cell
           (set_group postupdates (Some [LUser 3])
              (set_group updates (Some [LUser 2])
                 (set_group preupdates (Some [LUser 1]) (mk_cell (VNum 0) DYNAMIC))))
           (VNum 4) (Some [1]) (Some [2]) (Some [3]));
    first [reflexivity | vm_compute; lia].
Defined.

(** ** Filters *)

Lemma apply_filters_pure (fs : list (nat * (Value -> Value))) (v : Value) (s : State) :
  apply_filters (map (fun p => pure_filter p.1 p.2) fs) v s = (ROk (filtered fs v), s).
Proof.
  revert v. induction fs as [|[id f] fs IH]; intros v; [done|].
  cbn [map apply_filters pure_filter fbody fst snd eval_prog]. mpure.
  rewrite IH. done.
Qed.

Lemma REFRESH_HANDLE_cell (c : nat) (s : State) (x : Cell) :
  cells s !! c = Some x ->
  exists s' h, REFRESH_HANDLE c s = (ROk tt, s') /\
               cells s' !! c = Some (set_updateHandle (Some h) x).
Proof.
  intros Hx. unfold REFRESH_HANDLE. mget Hx.
  destruct (updateHandle x) as [h0|].
  - mpure. mpure. mpure. rewrite mod_cell_run. eexists _, _. split; [done|].
    cbn [with_cells with_handles cells]. by rewrite list_lookup_alter_eq, Hx.
  - mpure. mpure. mpure. rewrite mod_cell_run. eexists _, _. split; [done|].
    cbn [with_cells with_handles cells]. by rewrite list_lookup_alter_eq, Hx.
Qed.

Lemma evaluate_pure_filters (c : nat) (v : Value) (s : State) (x : Cell)
    (fs : list (nat * (Value -> Value))) :
  cells s !! c = Some x -> EXP x = None ->
  filters x = Some (map (fun p => pure_filter p.1 p.2) fs) ->
  exists s2, evaluate c v s = (ROk (filtered fs v), s2).
Proof.
  intros Hx He Hf. unfold evaluate. mget Hx. rewrite He, Hf.
  match goal with |- context [bool_decide ?P || bool_decide ?Q] =>
    change (bool_decide P || bool_decide Q) with true end.
  destruct (REFRESH_HANDLE_cell c s x Hx) as (s1 & h & Hr & Hx1).
  rewrite ?bind_assoc, (bind_ok _ _ _ _ _ Hr). mpure.
  assert (cells (with_childStack (cons (Some c)) s1) !! c
          = Some (set_updateHandle (Some h) x)) as Hx2 by done.
  mget Hx2. cbn [EXP set_updateHandle]. rewrite He. mpure. mget Hx2.
  cbn [filters set_updateHandle]. rewrite Hf.
  rewrite ?bind_assoc, (bind_ok _ _ _ _ _ (apply_filters_pure fs v _)).
  mpure. by eexists.
Qed.

(** X11: every [update] of a constant cell applies its filters, in array
    order, to the value the cell stores at that moment and stores the
    result: the filters are re-applied to a value they have already
    filtered (for filters that only compute, on a cell that is not of type
    INHERIT, whose listeners are user callbacks, outside a dispatch). *)
Theorem X11_update_filters_stored_value (fuel : nat) (c : nat) (force : bool)
    (s : State) (x : Cell) (fs : list (nat * (Value -> Value)))
    (ps us qs : option (list nat)) :
  cells s !! c = Some x -> TYPE x <> INHERIT -> EXP x = None ->
  filters x = Some (map (fun p => pure_filter p.1 p.2) fs) ->
  get_group preupdates x = user_group ps ->
  get_group updates x = user_group us ->
  get_group postupdates x = user_group qs ->
  updatesQueue s = None -> updatesInProgress s = false ->
  length (default [] us) < fuel ->
  (update (S fuel) c force s).1 = ROk tt /\
  cell_sat c (fun y => VALUE y = filtered fs (VALUE x)) (update (S fuel) c force s).2.
Proof.
  intros Hx Ht He Hf Hp Hu Hq Hqu Hpr Hfu.
  destruct (evaluate_pure_filters c (VALUE x)
              (with_trace (fun _ => trace s ++ calls c (default [] ps)) s) x fs)
    as (s2 & Hev); try done.
  destruct (update_local fuel c force x ps us qs Ht Hp Hu Hq Hfu s s2 _ Hx Hqu Hpr Hev)
    as (R1 & _ & R3).
  by split.
Qed.

Lemma X11_witness :
  (update 2 0 false one_filtered_cell).1 = ROk tt /\
  cell_sat 0 (fun y => VALUE y = filtered [(1, fun v => match v with
                                                       | VNum z => VNum (2 * z)
                                                       | _ => VUndef
                                                       end)] (VNum 2))
    (update 2 0 false one_filtered_cell).2.
Proof.
  apply (X11_update_filters_stored_value 1 0 false one_filtered_cell
           (set_updateHandle (Some 0)
              (set_VALUE (VNum 2)
                 (set_filters (Some [double_filter]) (mk_cell (VNum 1) DYNAMIC))))
           [(1, fun v => match v with VNum z => VNum (2 * z) | _ => VUndef end)]
           None None None);
    first [by vm_compute | vm_compute; lia | discriminate].
Defined.

(** ** Immune blocks *)

Lemma get_value_no_top (d : nat) (s : State) :
  match childStack s with Some _ :: _ => False | _ => True end ->
  exists r, get_value d s = (r, s).
Proof.
  intros Hst. unfold get_value. mpure.
  destruct (childStack s) as [|[top|] st]; [|done|]; mpure;
    unfold get_cell; rewrite bind_run; destruct (cells s !! d); by eexists.
Qed.

Lemma eval_prog_no_top (p : Prog) (s : State) :
  match childStack s with Some _ :: _ => False | _ => True end ->
  exists r, eval_prog p s = (r, s).
Proof.
  intros Hst. induction p as [v|msg|d k IH]; simpl.
  - by eexists.
  - by eexists.
  - destruct (get_value_no_top d s Hst) as [[v|e|] Hr]; rewrite bind_run, Hr.
    + apply IH.
    + by eexists.
    + by eexists.
Qed.



(** ** A cell that follows another *)

Lemma live_listeners_app (hs : list Handle) (a b : list Listener) :
  live_listeners hs (a ++ b) = live_listeners hs a ++ live_listeners hs b.
Proof. unfold live_listeners. apply list.filter_app. Qed.

Lemma live_listeners_obsolete (hs : list Handle) (olds : list Listener) :
  Forall (fun l => is_obsolete hs l = true) olds -> live_listeners hs olds = [].
Proof.
  induction 1 as [|l olds Hl _ IH]; [done|]. unfold live_listeners.
  rewrite filter_cons, decide_False by congruence. apply IH.
Qed.

Lemma obsolete_not_undef (hs : list Handle) (olds : list Listener) :
  Forall (fun l => is_obsolete hs l = true) olds -> LUndef ∉ olds.
Proof.
  intros H Hin. rewrite list.Forall_forall in H. specialize (H _ Hin). done.
Qed.

Lemma with_queue_updates (v : option (list Thunk)) (s : State) :
  with_queue QUpdates v s =
  {| cells := cells s; handles := handles s; arrays := arrays s;
     childStack := childStack s; updatesQueue := v;
     updatesInProgress := updatesInProgress s;
     typeChangesQueue := typeChangesQueue s;
     typeChangesInProgress := typeChangesInProgress s;
     trace := trace s; console := console s |}.
Proof. reflexivity. Qed.

Lemma with_progress_updates (b : bool) (s : State) :
  with_progress QUpdates b s =
  {| cells := cells s; handles := handles s; arrays := arrays s;
     childStack := childStack s; updatesQueue := updatesQueue s;
     updatesInProgress := b;
     typeChangesQueue := typeChangesQueue s;
     typeChangesInProgress := typeChangesInProgress s;
     trace := trace s; console := console s |}.
Proof. reflexivity. Qed.

(** Lookups in the cells after field updates of single cells. *)
Ltac cell_lookup :=
  rewrite ?with_queue_updates, ?with_progress_updates;
  cbn [cells handles with_cells with_handles with_arrays with_childStack with_trace
       with_console];
  repeat first [ rewrite list_lookup_alter_eq
               | rewrite list_lookup_alter_ne by congruence ].

(** The next [get_cell], its lookup solved from the hypotheses on the
    cells of the initial state. *)
Ltac mcell H :=
  rewrite ?bind_assoc;
  erewrite bind_ok by (apply get_cell_run; cell_lookup; rewrite H; reflexivity).

(** Projections of a state built by field updates. *)
Ltac st_simpl :=
  rewrite ?with_queue_updates, ?with_progress_updates;
  cbn [cells handles arrays childStack updatesQueue updatesInProgress
       typeChangesQueue typeChangesInProgress trace console
       with_cells with_handles with_arrays with_childStack with_trace
       with_console get_queue get_progress
       default from_option id app map qgroup].

(** Fields of a cell built by field updates. *)
Ltac cell_simpl :=
  cbn [VALUE TYPE EXP pendingType updateHandle g_preupdates filters g_updates
       g_postupdates g_typeChanges get_group
       set_VALUE set_TYPE set_EXP set_pendingType set_updateHandle set_filters
       set_group decide decide_rel Group_eq_dec Group_rec Group_rect
       sumbool_rec sumbool_rect].

Lemma get_handle_run (h : nat) (s : State) (hd : Handle) :
  handles s !! h = Some hd -> get_handle h s = (ROk hd, s).
Proof. intros H. unfold get_handle. by rewrite H. Qed.

Ltac mhandle H :=
  rewrite ?bind_assoc;
  erewrite bind_ok by (apply get_handle_run; cell_lookup; rewrite H; reflexivity).

Lemma drain_unfold (rec : nat -> bool -> M unit) (k : nat) (q : QName) :
  drain rec (S k) q =
  (qu ← gets (get_queue q);
   match qu with
   | None => throw ErrType
   | Some [] => ret tt
   | Some ((l, this) :: tl) =>
       modify (with_queue q (Some tl));;
       call_listener rec l this;;
       drain rec k q
   end).
Proof. reflexivity. Qed.

Lemma update_unfold (n : nat) (c : nat) (force : bool) :
  update (S n) c force = update_body (update n) n c force.
Proof. reflexivity. Qed.

Lemma fire_group_none (rec : nat -> bool -> M unit) (g : Group) (c : nat)
    (s : State) (x : Cell) :
  cells s !! c = Some x -> get_group g x = None -> fire_group rec g c s = (ROk tt, s).
Proof. intros Hx Hg. unfold fire_group. mget Hx. by rewrite Hg. Qed.

Lemma reset_pending_skip (c : nat) (s : State) (x : Cell) :
  cells s !! c = Some x -> TYPE x <> INHERIT -> reset_pending c s = (ROk tt, s).
Proof. intros Hx Ht. unfold reset_pending. mget Hx. by rewrite decide_False. Qed.

Lemma REFRESH_HANDLE_some (c : nat) (s : State) (x : Cell) (h : nat) :
  cells s !! c = Some x -> updateHandle x = Some h ->
  REFRESH_HANDLE c s = (ROk tt, refreshed c h s).
Proof.
  intros Hx Hh. unfold REFRESH_HANDLE. mget Hx. rewrite Hh. mpure. mpure. mpure.
  rewrite mod_cell_run. unfold refreshed. cbn [with_handles handles].
  by rewrite length_alter.
Qed.

Lemma get_value_subscribes (c top : nat) (s : State) (x t : Cell) (h : nat)
    (st : list (option nat)) :
  childStack s = Some top :: st -> top <> c ->
  cells s !! top = Some t -> cells s !! c = Some x ->
  TYPE t <> INHERIT -> TYPE x <> STATIC -> updateHandle t = Some h ->
  get_value c s = (ROk (VALUE x), subscribed c h s).
Proof.
  intros Hst Hne Ht Hx Hti Hxs Hh. unfold get_value. mpure. rewrite Hst.
  destruct (decide (top = c)) as [|_]; [done|]. mget Ht. mget Hx.
  destruct (decide (TYPE t = INHERIT)) as [|_]; [done|]. mpure.
  destruct (decide (TYPE x = STATIC)) as [|_]; [done|]. mget Ht. rewrite Hh.
  unfold onUpdateSub, ADD_LISTENER, warn_static. mget Hx.
  destruct (decide (TYPE x = STATIC)) as [|_]; [done|]. mpure. mpure. unfold subscribed.
  rewrite bind_run. unfold get_cell. cbn [with_cells cells handle_listener].
  by rewrite list_lookup_alter_eq, Hx.
Qed.

Section Follow.
Variables (p d : nat) (f : Value -> Value).

Lemma evaluate_follower (v : Value) (s : State) (xp xd : Cell) (h : nat) :
  p <> d -> cells s !! p = Some xp -> cells s !! d = Some xd ->
  TYPE xp <> STATIC -> TYPE xd <> INHERIT ->
  EXP xd = Some (map_exp p f) -> filters xd = None -> updateHandle xd = Some h ->
  evaluate d v s = (ROk (f (VALUE xp)), reevaluated p d h s).
Proof.
  intros Hne Hp Hd Hps Hdi He Hf Hh. unfold evaluate. mget Hd. rewrite He.
  match goal with |- context [bool_decide ?P || bool_decide ?Q] =>
    change (bool_decide P || bool_decide Q) with true end.
  cbv iota. rewrite ?bind_assoc, (bind_ok _ _ _ _ _ (REFRESH_HANDLE_some d s xd h Hd Hh)).
  mpure.
  assert (cells (with_childStack (cons (Some d)) (refreshed d h s)) !! d
          = Some (set_updateHandle (Some (length (handles s))) xd)) as Hd1.
  { unfold refreshed. cell_lookup. by rewrite Hd. }
  assert (cells (with_childStack (cons (Some d)) (refreshed d h s)) !! p = Some xp) as Hp1.
  { unfold refreshed. cell_lookup. by rewrite Hp. }
  mget Hd1. cell_simpl. rewrite He. unfold map_exp. cbn [eval_exp eval_prog].
  rewrite ?bind_assoc.
  erewrite bind_ok;
    [|apply (get_value_subscribes p d
               (with_childStack (cons (Some d)) (refreshed d h s)) xp
               (set_updateHandle (Some (length (handles s))) xd)
               (length (handles s)) (childStack s));
      [reflexivity | congruence | exact Hd1 | exact Hp1 | exact Hdi | exact Hps
      | reflexivity]].
  mpure.
  assert (cells (subscribed p (length (handles s))
                   (with_childStack (cons (Some d)) (refreshed d h s))) !! d
          = Some (set_updateHandle (Some (length (handles s))) xd)) as Hd2.
  { unfold subscribed, refreshed. cell_lookup. by rewrite Hd. }
  mget Hd2. cell_simpl. rewrite Hf. mpure. mpure. done.
Qed.

(** The recomputation of the follower [d] from inside a dispatch. *)
Lemma update_follower (n : nat) (s : State) (xp xd : Cell) (h : nat) (q0 : list Thunk) :
  p <> d -> cells s !! p = Some xp -> cells s !! d = Some xd ->
  TYPE xp <> STATIC -> TYPE xd = DYNAMIC ->
  EXP xd = Some (map_exp p f) -> filters xd = None -> updateHandle xd = Some h ->
  g_preupdates xd = None -> g_updates xd = None -> g_postupdates xd = None ->
  updatesQueue s = Some q0 -> updatesInProgress s = true ->
  update (S n) d false s =
  (ROk tt, with_cells (alter (set_VALUE (f (VALUE xp))) d) (reevaluated p d h s)).
Proof.
  intros Hne Hp Hd Hps Hdt He Hf Hh Hpre Hupd Hpost Hq Hpr.
  assert (TYPE xd <> INHERIT) as Hdi by (by rewrite Hdt).
  rewrite update_unfold. unfold update_body.
  rewrite (bind_ok _ _ _ _ _ (fire_group_none _ preupdates d s xd Hd Hpre)).
  mget Hd. rewrite (bind_ok _ _ _ _ _ (reset_pending_skip d s xd Hd Hdi)).
  rewrite (bind_ok _ _ _ _ _
             (evaluate_follower (VALUE xd) s xp xd h Hne Hp Hd Hps Hdi He Hf Hh)).
  assert (cells (reevaluated p d h s) !! d
          = Some (set_updateHandle (Some (length (handles s))) xd)) as Hd1.
  { unfold reevaluated, subscribed, refreshed. cell_lookup. by rewrite Hd. }
  set (s1 := reevaluated p d h s) in *.
  set (xd1 := set_updateHandle (Some (length (handles s))) xd) in *.
  assert (updatesQueue s1 = Some q0) as Hq1 by done.
  assert (updatesInProgress s1 = true) as Hpr1 by done.
  unfold update_finish. mget Hd1. subst xd1. cell_simpl.
  destruct (decide (TYPE xd = INHERIT)) as [|_]; [done|]. mpure. mget Hd1. cell_simpl.
  rewrite orb_false_r.
  set (xd1 := set_updateHandle (Some (length (handles s))) xd) in *.
  destruct (strict_eq (f (VALUE xp)) (VALUE xd)) eqn:E; cbn [negb].
  - apply strict_eq_true in E. mpure.
    rewrite (with_cells_alter_id (set_VALUE (f (VALUE xp))) d s1 xd1 Hd1)
      by (rewrite E; exact (set_VALUE_same xd1)).
    rewrite (bind_ok _ _ _ _ _ (fire_group_none _ postupdates d s1 xd1 Hd1 Hpost)).
    mget Hd1. subst xd1. cell_simpl. by rewrite Hdt.
  - mpure. set (s2 := with_cells (alter (set_VALUE (f (VALUE xp))) d) s1).
    assert (cells s2 !! d = Some (set_VALUE (f (VALUE xp)) xd1)) as Hd2.
    { subst s2. cbn [with_cells cells]. by rewrite list_lookup_alter_eq, Hd1. }
    unfold CALL_LISTENERS. mpure.
    assert (get_queue QUpdates s2 = Some q0) as -> by done. mpure. mget Hd2.
    subst xd1. cbn [qgroup]. cell_simpl. rewrite Hupd. mpure. mpure.
    assert (get_progress QUpdates s2 = true) as -> by done. mpure.
    erewrite bind_ok; [|by apply (fire_group_none _ postupdates d s2 _ Hd2)].
    mget Hd2. cell_simpl. by rewrite Hdt.
Qed.

Lemma follow_step (n : nat) (s : State) (xp xd : Cell) (h : nat)
    (olds : list Listener) (w : Value) :
  linked p d f s xp xd h olds -> w <> VALUE xp ->
  exists s' xp' xd',
    set_value (S (S (S n))) p w s = (ROk tt, s') /\
    linked p d f s' xp' xd' (length (handles s)) [LHandle h] /\
    VALUE xp' = w /\ trace s' = trace s.
Proof.
  intros L Hw. destruct L.
  rewrite (set_value_constant (S (S n)) p s xp w) by done.
  pose (sB := with_cells (alter (set_VALUE w) p) (with_cells (alter (set_EXP None) p) s)).
  pose (xpB := set_VALUE w (set_EXP None xp)).
  assert (cells sB !! p = Some xpB) as HpB by (subst sB; cell_lookup; by rewrite lk_p0).
  unfold CALL_LISTENERS. mpure.
  match goal with |- context [get_queue QUpdates ?st] =>
    assert (get_queue QUpdates st = None) as -> by exact lk_queue0 end.
  mpure. mget HpB.
  match goal with |- context [get_group (qgroup QUpdates) ?y] =>
    assert (get_group (qgroup QUpdates) y = Some (olds ++ [LHandle h])) as ->
      by exact lk_p_upd0 end.
  mpure.
  match goal with |- context [enqueue_loop ?hs _ _] => change hs with (handles s) end.
  rewrite (enqueue_loop_spec (handles s) [] (olds ++ [LHandle h])).
  2:{ intros Hin. apply elem_of_app in Hin as [Hin|Hin].
      - by apply (obsolete_not_undef (handles s) olds).
      - apply elem_of_cons in Hin as [Hin|Hin]; [done|]. by apply elem_of_nil in Hin. }
  rewrite live_listeners_app, (live_listeners_obsolete _ _ lk_olds0).
  assert (live_listeners (handles s) [LHandle h] = [LHandle h]) as ->.
  { unfold live_listeners. rewrite filter_cons, decide_True; [done|].
    cbn [is_obsolete]. by rewrite lk_handle0. }
  cbn [app]. rewrite bool_decide_eq_false_2 by (by intros [? _]).
  mpure. mpure. mpure. mpure.
  match goal with |- context [get_progress QUpdates ?st] =>
    assert (get_progress QUpdates st = false) as -> by (subst sB; exact lk_progress0) end.
  mpure. rewrite drain_unfold. mpure. st_simpl. mpure.
  cbn [call_listener]. mhandle lk_handle0. cbn [owner]. st_simpl.
  rewrite ?bind_assoc.
  match goal with |- exists _ _ _, ?m ?st = _ /\ _ => pose (sC := st) end.
  assert (cells sC !! p = Some (set_group updates (Some [LHandle h]) xpB)) as HpC.
  { subst sC sB. cell_lookup. by rewrite lk_p0. }
  assert (cells sC !! d = Some xd) as HdC.
  { subst sC sB. cell_lookup. by rewrite lk_d0. }
  rewrite ?bind_assoc.
  erewrite bind_ok;
    [|apply (update_follower (S n) sC _ xd h [] lk_ne0 HpC HdC); try done;
      cbn; by rewrite lk_p_type0].
  cbn [VALUE set_group]. subst xpB. cbn [VALUE set_VALUE].
  rewrite drain_unfold. mpure.
  match goal with |- context [get_queue QUpdates ?st] =>
    assert (get_queue QUpdates st = Some []) as -> by done end.
  mpure. mpure. mpure.
  rewrite ?bind_assoc.
  match goal with |- exists _ _ _, ?m ?st = _ /\ _ => pose (sF := st) end.
  pose (h' := length (handles s)).
  pose (xpF := set_group updates (Some ([LHandle h] ++ [LHandle h']))
                 (set_VALUE w (set_EXP None xp))).
  assert (cells sF !! p = Some xpF) as HpF.
  { subst sF sC sB xpF. unfold reevaluated, subscribed, refreshed. cell_lookup.
    rewrite lk_p0. cbn. by destruct xp. }
  assert (cells sF !! d = Some (set_VALUE (f w) (set_updateHandle (Some h') xd))) as HdF.
  { subst sF sC sB. unfold reevaluated, subscribed, refreshed. cell_lookup.
    by rewrite lk_d0. }
  erewrite bind_ok; [|by apply (fire_group_none _ postupdates p sF xpF HpF)].
  mget HpF.
  case_decide as E; [exfalso; revert E; cbn; by rewrite lk_p_type0|].
  exists sF, xpF, (set_VALUE (f w) (set_updateHandle (Some h') xd)).
  split; [done|]. split; [|split; [done|done]].
  assert (handles sF = alter (fun hd => {| owner := owner hd; obsolete := true |}) h (handles s)
                         ++ [{| owner := d; obsolete := false |}]) as HhF by done.
  assert (h < length (handles s)) as Hlt by (by eapply lookup_lt_Some).
  split; try done.
  - repeat constructor. cbn [is_obsolete]. rewrite HhF.
    rewrite lookup_app_l by (by rewrite length_alter).
    by rewrite list_lookup_alter_eq, lk_handle0.
  - rewrite HhF. rewrite lookup_app_r by (by rewrite length_alter).
    rewrite length_alter. subst h'. by rewrite Nat.sub_diag.
Qed.
End Follow.

Lemma follow_same (n : nat) (p d : nat) (f : Value -> Value) (s : State)
    (xp xd : Cell) (h : nat) (olds : list Listener) :
  linked p d f s xp xd h olds -> set_value n p (VALUE xp) s = (ROk tt, s).
Proof.
  intros L. destruct L.
  rewrite (set_value_same n s p xp) by (by rewrite ?lk_p_type0).
  f_equal. apply (with_cells_alter_id _ p s xp lk_p0).
  destruct xp. cbn in *. by subst.
Qed.



(** ** [transform] *)

Lemma CALL_LISTENERS_idle (rec : nat -> bool -> M unit) (k : nat) (q : QName) (c : nat)
    (s : State) (x : Cell) :
  cells s !! c = Some x -> get_group (qgroup q) x = None ->
  get_queue q s = None -> get_progress q s = false ->
  CALL_LISTENERS rec (S k) q c s = (ROk tt, s).
Proof.
  intros Hx Hg Hq Hp.
  rewrite (CALL_LISTENERS_user rec (S k) q c s x None Hx Hg Hq Hp) by (cbn; lia).
  by rewrite with_trace_nil.
Qed.

Lemma is_obsolete_app (hs more : list Handle) (l : Listener) :
  is_obsolete hs l = true -> is_obsolete (hs ++ more) l = true.
Proof.
  destruct l as [h| |]; cbn [is_obsolete]; try done.
  destruct (hs !! h) as [hd|] eqn:E; [|done].
  by rewrite (lookup_app_l_Some _ _ _ _ E).
Qed.

(** Fields of a cell read back from the heap. *)
Ltac cell_eval :=
  cbn [fmap option_fmap option_map mk_cell
       VALUE TYPE EXP pendingType updateHandle g_preupdates filters g_updates
       g_postupdates g_typeChanges get_group
       set_VALUE set_TYPE set_EXP set_pendingType set_updateHandle set_filters
       set_group decide decide_rel Group_eq_dec Group_rec Group_rect
       sumbool_rec sumbool_rect].

Section Transform.
Variables (p d : nat) (f : Value -> Value).

Lemma fold_inherit (n : nat) (s : State) (xp : Cell) :
  p <> d -> idle s ->
  cells s !! p = Some xp -> cells s !! d = Some (mk_cell VUndef INHERIT) ->
  TYPE xp = STATIC ->
  exists s',
    set_exp (S (S n)) d (AFun (map_exp p f)) s = (ROk tt, s') /\
    cell_sat d (fun y => TYPE y = STATIC /\ VALUE y = f (VALUE xp) /\ released y) s' /\
    cells s' !! p = Some xp /\ idle s' /\ trace s' = trace s.
Proof.
  intros Hne (Hq & Hpr & Htq & Htp) Hp Hd Hpt.
  unfold set_exp. mget Hd. cbn [TYPE mk_cell].
  destruct (decide (INHERIT = STATIC)) as [|_]; [done|]. unfold map_exp. mpure.
  destruct (decide (INHERIT = INVALID)) as [|_]; [done|].
  rewrite update_unfold. unfold update_body.
  erewrite bind_ok; [|eapply fire_group_none; [cell_lookup; by rewrite Hd|done]].
  mcell Hd. cbn [fmap option_fmap option_map].
  unfold reset_pending. mcell Hd. cell_eval.
  destruct (decide (INHERIT = INHERIT)) as [_|]; [|done].
  mpure.
  unfold evaluate. mcell Hd. cell_eval.
  match goal with |- context [bool_decide ?P || bool_decide ?Q] =>
    change (bool_decide P || bool_decide Q) with true end.
  cbv iota. unfold REFRESH_HANDLE. mcell Hd. cell_eval.
  mpure. mpure. mpure. mpure. mpure.
  mcell Hd. cell_eval.
  cbn [eval_exp eval_prog]. st_simpl.
  unfold get_value. mpure. st_simpl.
  destruct (decide (d = p)) as [|_]; [congruence|].
  mcell Hd. cell_eval.
  mcell Hp. cell_eval.
  destruct (decide (INHERIT = INHERIT)) as [_|]; [|done].
  mpure. rewrite Hpt. destruct (decide (STATIC = STATIC)) as [_|]; [|done]. mpure.
  mcell Hp. cell_eval. mpure. mpure.
  mcell Hd. cell_eval.
  mpure. mpure. mpure.
  unfold update_finish.
  mcell Hd. cell_eval.
  destruct (decide (INHERIT = INHERIT)) as [_|]; [|done].
  change (max_pending (Some STATIC) STATIC) with (Some STATIC). cbv iota.
  unfold set_type_with.
  mcell Hd. cell_eval.
  destruct (decide (INHERIT = STATIC)) as [|_]; [done|].
  
  mpure. destruct (decide (INHERIT = INVALID)) as [|_]; [done|]. mpure.
  rewrite ?bind_assoc.
  erewrite bind_ok;
    [|eapply CALL_LISTENERS_idle;
      [cell_lookup; rewrite Hd; reflexivity | reflexivity | exact Htq | exact Htp]].
  mpure.
  mcell Hd. cell_eval.
  rewrite orb_false_r.
  destruct (strict_eq (f (VALUE xp)) VUndef) eqn:E; cbn [negb].
  - apply strict_eq_true in E. mpure.
    erewrite bind_ok;
      [|eapply fire_group_none; [cell_lookup; rewrite Hd; reflexivity|reflexivity]].
    mcell Hd. cell_eval. eexists. split; [reflexivity|].
    split; [|split; [by cell_lookup|done]].
    eexists. split; [cell_lookup; rewrite Hd; reflexivity|]. by rewrite E.
  - mpure. rewrite ?bind_assoc.
    erewrite bind_ok;
      [|eapply CALL_LISTENERS_idle;
        [cell_lookup; rewrite Hd; reflexivity | reflexivity | exact Hq | exact Hpr]].
    erewrite bind_ok;
      [|eapply fire_group_none; [cell_lookup; rewrite Hd; reflexivity|reflexivity]].
    mcell Hd. cell_eval. eexists. split; [reflexivity|].
    split; [|split; [by cell_lookup|done]].
    eexists. split; [cell_lookup; rewrite Hd; reflexivity|]. done.
Qed.

Lemma link_inherit (n : nat) (s : State) (xp : Cell) :
  p <> d -> idle s ->
  cells s !! p = Some xp -> cells s !! d = Some (mk_cell VUndef INHERIT) ->
  TYPE xp = DYNAMIC -> unobserved (handles s) xp ->
  exists s',
    set_exp (S (S n)) d (AFun (map_exp p f)) s = (ROk tt, s') /\
    follows p d f s' /\ trace s' = trace s.
Proof.
  intros Hne (Hq & Hpr & Htq & Htp) Hp Hd Hpt (Hpe & Hpf & Hppre & Hppost & Hpo).
  unfold set_exp. mget Hd. cbn [TYPE mk_cell].
  destruct (decide (INHERIT = STATIC)) as [|_]; [done|]. unfold map_exp. mpure.
  destruct (decide (INHERIT = INVALID)) as [|_]; [done|].
  rewrite update_unfold. unfold update_body.
  erewrite bind_ok; [|eapply fire_group_none; [cell_lookup; by rewrite Hd|done]].
  mcell Hd. cbn [fmap option_fmap option_map].
  unfold reset_pending. mcell Hd. cell_eval.
  destruct (decide (INHERIT = INHERIT)) as [_|]; [|done].
  mpure.
  unfold evaluate. mcell Hd. cell_eval.
  match goal with |- context [bool_decide ?P || bool_decide ?Q] =>
    change (bool_decide P || bool_decide Q) with true end.
  cbv iota. unfold REFRESH_HANDLE. mcell Hd. cell_eval.
  mpure. mpure. mpure. mpure. mpure.
  mcell Hd. cell_eval.
  cbn [eval_exp eval_prog]. st_simpl.
  unfold get_value. mpure. st_simpl.
  destruct (decide (d = p)) as [|_]; [congruence|].
  mcell Hd. cell_eval.
  mcell Hp. cell_eval.
  destruct (decide (INHERIT = INHERIT)) as [_|]; [|done].
  mpure. rewrite Hpt. destruct (decide (DYNAMIC = STATIC)) as [|_]; [done|].
  mcell Hd. cell_eval. cbn [handle_listener].
  unfold onUpdateSub, ADD_LISTENER, warn_static. mcell Hp. rewrite Hpt.
  destruct (decide (DYNAMIC = STATIC)) as [|_]; [done|]. mpure. mpure.
  mcell Hp. cell_eval. mpure. mpure.
  mcell Hd. cell_eval.
  mpure. mpure. mpure.
  unfold update_finish.
  mcell Hd. cell_eval.
  destruct (decide (INHERIT = INHERIT)) as [_|]; [|done].
  change (max_pending (Some STATIC) DYNAMIC) with (Some DYNAMIC). cbv iota.
  unfold set_type_with.
  mcell Hd. cell_eval.
  destruct (decide (INHERIT = STATIC)) as [|_]; [done|].
  destruct (decide (INHERIT = DYNAMIC)) as [|_]; [done|].
  mpure. destruct (decide (INHERIT = INVALID)) as [|_]; [done|]. mpure.
  rewrite ?bind_assoc.
  erewrite bind_ok;
    [|eapply CALL_LISTENERS_idle;
      [cell_lookup; rewrite Hd; reflexivity | reflexivity | exact Htq | exact Htp]].
  mpure.
  mcell Hd. cell_eval.
  rewrite orb_false_r.
  pose (h' := length (handles s)).
  pose (xpF := set_group updates (add_to false (LHandle h') (g_updates xp)) xp).
  assert (forall sF xdF,
            cells sF !! p = Some xpF -> cells sF !! d = Some xdF ->
            handles sF = handles s ++ [{| owner := d; obsolete := false |}] ->
            updatesQueue sF = None -> updatesInProgress sF = false ->
            trace sF = trace s ->
            VALUE xdF = f (VALUE xp) -> TYPE xdF = DYNAMIC ->
            EXP xdF = Some (map_exp p f) -> filters xdF = None ->
            updateHandle xdF = Some h' -> g_preupdates xdF = None ->
            g_updates xdF = None -> g_postupdates xdF = None ->
            exists s',
              (fire_group (update (S n)) postupdates d;;
               x ← get_cell d;
               if decide (TYPE x = STATIC) then mod_cell d compact else ret tt) sF
              = (ROk tt, s') /\ follows p d f s' /\ trace s' = trace s) as Fin.
  { intros sF xdF HpF HdF HhF HqF HprF HtrF Hv Ht He Hf Hh Hpre Hupd Hpost.
    erewrite bind_ok; [|by apply (fire_group_none _ postupdates d sF xdF)].
    mget HdF. rewrite Ht. destruct (decide (DYNAMIC = STATIC)) as [|_]; [done|].
    exists sF. split; [done|]. split; [|done].
    exists xpF, xdF, h', (default [] (g_updates xp)).
    split; try done.
    - rewrite HhF. eapply list.Forall_impl; [exact Hpo|]. intros l. apply is_obsolete_app.
    - rewrite HhF. subst h'. by rewrite lookup_app_r, Nat.sub_diag by lia. }
  destruct (strict_eq (f (VALUE xp)) VUndef) eqn:E; cbn [negb].
  - apply strict_eq_true in E. mpure.
    eapply Fin;
      [unfold xpF, h'; cell_lookup; by rewrite Hp
      |cell_lookup; rewrite Hd; reflexivity|..]; try done.
  - mpure. rewrite ?bind_assoc.
    erewrite bind_ok;
      [|eapply CALL_LISTENERS_idle;
        [cell_lookup; rewrite Hd; reflexivity | reflexivity | exact Hq | exact Hpr]].
    eapply Fin;
      [unfold xpF, h'; cell_lookup; by rewrite Hp
      |cell_lookup; rewrite Hd; reflexivity|..]; try done.
Qed.
End Transform.

(** The first two statements of [transform]: the new cell, made INHERIT. *)
Lemma transform_prefix (k : nat) (p : nat) (func : Value -> Prog) (s : State) :
  idle s ->
  transform (S k) p func s =
  (set_exp (S k) (length (cells s)) (AFun (EFun (Read p func)));; ret (length (cells s)))
    (with_cells (alter (set_TYPE INHERIT) (length (cells s)))
       (with_cells (fun l => l ++ [mk_cell VUndef DYNAMIC]) s)).
Proof.
  intros (Hq & Hpr & Htq & Htp). unfold transform. unfold new_Dynx at 1. mpure.
  assert ((cells s ++ [mk_cell VUndef DYNAMIC]) !! length (cells s)
          = Some (mk_cell VUndef DYNAMIC)) as Hd by (by apply list_lookup_middle).
  unfold set_type, set_type_with. mget Hd. cell_eval.
  destruct (decide (DYNAMIC = STATIC)) as [|_]; [done|].
  destruct (decide (DYNAMIC = INHERIT)) as [|_]; [done|].
  mpure. destruct (decide (DYNAMIC = INVALID)) as [|_]; [done|]. mpure.
  rewrite ?bind_assoc.
  erewrite bind_ok;
    [|eapply CALL_LISTENERS_idle;
      [cell_lookup; rewrite Hd; reflexivity | reflexivity | exact Htq | exact Htp]].
  reflexivity.
Qed.

Lemma transform_cells (p : nat) (s : State) (xp : Cell) :
  cells s !! p = Some xp ->
  p <> length (cells s) /\
  cells (with_cells (alter (set_TYPE INHERIT) (length (cells s)))
           (with_cells (fun l => l ++ [mk_cell VUndef DYNAMIC]) s)) !! p = Some xp /\
  cells (with_cells (alter (set_TYPE INHERIT) (length (cells s)))
           (with_cells (fun l => l ++ [mk_cell VUndef DYNAMIC]) s)) !! length (cells s)
  = Some (mk_cell VUndef INHERIT).
Proof.
  intros Hp. assert (p < length (cells s)) as Hlt by (by eapply lookup_lt_Some).
  split; [lia|]. cbn [with_cells cells]. split.
  - rewrite list_lookup_alter_ne by lia. by rewrite lookup_app_l.
  - rewrite list_lookup_alter_eq, list_lookup_middle by done. done.
Qed.



(** X15: [p.transform(f)] on a STATIC [p], while no dispatch is in
    progress: the call returns a new cell that is itself STATIC, stores [f]
    of the value of [p] and holds neither expression, filters nor
    update listeners; [p] is left as it was (nothing is subscribed to it),
    and no user callback runs. *)
Theorem X15_transform_of_static (n : nat) (p : nat) (f : Value -> Value) (s : State)
    (xp : Cell) :
  idle s -> cells s !! p = Some xp -> TYPE xp = STATIC ->
  exists s',
    transform (S (S n)) p (fun v => Ret (f v)) s = (ROk (length (cells s)), s') /\
    cell_sat (length (cells s))
      (fun y => TYPE y = STATIC /\ VALUE y = f (VALUE xp) /\ released y) s' /\
    cells s' !! p = Some xp /\ idle s' /\ trace s' = trace s.
Proof.
  intros Hi Hp Ht. rewrite transform_prefix by done.
  destruct (transform_cells p s xp Hp) as (Hne & Hp' & Hd').
  match type of Hp' with cells ?s2 !! _ = _ =>
    destruct (fold_inherit p (length (cells s)) f n s2 xp Hne Hi Hp' Hd' Ht)
      as (s' & Hrun & H) end.
  exists s'. split; [|done]. unfold map_exp in Hrun. by rewrite (bind_ok _ _ _ _ _ Hrun).
Qed.

Lemma X15_witness :
  exists s',
    transform 2 0 (fun v => Ret (bump v)) static_parent
    = (ROk (length (cells static_parent)), s') /\
    cell_sat (length (cells static_parent))
      (fun y => TYPE y = STATIC /\ VALUE y = bump (VALUE (mk_cell (VNum 5) STATIC))
                /\ released y) s' /\
    cells s' !! 0 = Some (mk_cell (VNum 5) STATIC) /\ idle s' /\
    trace s' = trace static_parent.
Proof.
  apply (X15_transform_of_static 0 0 bump static_parent (mk_cell (VNum 5) STATIC)).
  - by repeat split.
  - reflexivity.
  - reflexivity.
Defined.

(** ** Conditionals on a DYNAMIC parent *)

Lemma get_array_run (a : nat) (s : State) (arr : list IfThen) :
  arrays s !! a = Some arr -> get_array a s = (ROk arr, s).
Proof. intros H. unfold get_array. by rewrite H. Qed.

(** Fields of a cell read back from the heap, with those of conditionals. *)
Ltac cond_eval :=
  cbn [fmap option_fmap option_map mk_cell
       VALUE TYPE EXP pendingType updateHandle g_preupdates filters g_updates
       g_postupdates g_typeChanges get_group _ifThens _elseThen condEnv
       set_VALUE set_TYPE set_EXP set_pendingType set_updateHandle set_filters
       set_ifThens set_elseThen set_condEnv
       set_group decide decide_rel Group_eq_dec Group_rec Group_rect
       sumbool_rec sumbool_rect].

Lemma CALL_LISTENERS_quiet (rec : nat -> bool -> M unit) (n : nat) (c : nat)
    (s : State) (x : Cell) :
  cells s !! c = Some x -> g_updates x = None ->
  updates_idle s /\ 0 < n \/ updates_busy s ->
  CALL_LISTENERS rec n QUpdates c s = (ROk tt, s).
Proof.
  intros Hx Hg [[[Hq Hp] Hn]|[[q Hq] Hp]].
  - destruct n as [|k]; [lia|]. by apply (CALL_LISTENERS_idle rec k QUpdates c s x).
  - unfold CALL_LISTENERS. mpure. cbn [get_queue]. rewrite Hq. mpure. mget Hx.
    cbn [qgroup get_group]. cell_eval. rewrite Hg. mpure. mpure.
    cbn [get_progress]. by rewrite Hp.
Qed.

Section Cond.
Variables (p d a : nat).

(** A recomputation of the conditional [d], from outside a dispatch. *)
Lemma update_cond (n : nat) (s : State) (xp xd : Cell) (h : nat)
    (olds : list Listener) (arr : list IfThen) :
  cond_ready p d a s xp xd h olds arr ->
  updates_idle s /\ 0 < n \/ updates_busy s ->
  exists s' xp' xd',
    update (S n) d false s = (ROk tt, s') /\
    cond_ready p d a s' xp' xd' (length (handles s)) (olds ++ [LHandle h]) arr /\
    VALUE xd' = cond_value arr (_elseThen xd) (VALUE xp) /\
    _elseThen xd' = _elseThen xd /\ VALUE xp' = VALUE xp /\ trace s' = trace s /\
    updatesQueue s' = updatesQueue s /\ updatesInProgress s' = updatesInProgress s.
Proof.
  intros R Hq. destruct R.
  rewrite update_unfold. unfold update_body.
  rewrite (bind_ok _ _ _ _ _ (fire_group_none _ preupdates d s xd cr_d0 cr_d_pre0)).
  mget cr_d0.
  rewrite (bind_ok _ _ _ _ _ (reset_pending_skip d s xd cr_d0 ltac:(by rewrite cr_d_type0))).
  unfold evaluate. mget cr_d0. rewrite cr_d_exp0.
  match goal with |- context [bool_decide ?P || bool_decide ?Q] =>
    change (bool_decide P || bool_decide Q) with true end.
  cbv iota.
  rewrite ?bind_assoc, (bind_ok _ _ _ _ _ (REFRESH_HANDLE_some d s xd h cr_d0 cr_d_handle0)).
  mpure. unfold refreshed.
  mcell cr_d0. cond_eval. rewrite cr_d_exp0. cbn [eval_exp].
  unfold get_value. mpure. st_simpl.
  destruct (decide (d = p)) as [|_]; [congruence|].
  mcell cr_d0. cond_eval. mcell cr_p0. rewrite cr_d_type0.
  destruct (decide (DYNAMIC = INHERIT)) as [|_]; [done|]. mpure.
  rewrite cr_p_type0. destruct (decide (DYNAMIC = STATIC)) as [|_]; [done|].
  mcell cr_d0. cond_eval. cbn [handle_listener].
  unfold onUpdateSub, ADD_LISTENER, warn_static. mcell cr_p0. rewrite cr_p_type0.
  destruct (decide (DYNAMIC = STATIC)) as [|_]; [done|]. mpure. mpure.
  mcell cr_p0. cond_eval. mpure.
  mcell cr_d0. cond_eval. rewrite cr_d_ifThens0.
  rewrite ?bind_assoc. erewrite bind_ok by (apply get_array_run; exact cr_arr0).
  assert ((match find (fun it => condition it (VALUE xp)) arr with
           | Some it => ret (then_ it)
           | None => ret (_elseThen xd)
           end : M Value) = ret (cond_value arr (_elseThen xd) (VALUE xp))) as ->
    by (unfold cond_value; by destruct find).
  set (v := cond_value arr (_elseThen xd) (VALUE xp)).
  mpure. mcell cr_d0. cond_eval. rewrite cr_d_filters0. mpure. mpure. mpure.
  unfold update_finish. mcell cr_d0. cond_eval. rewrite cr_d_type0.
  destruct (decide (DYNAMIC = INHERIT)) as [|_]; [done|]. mpure.
  mcell cr_d0. cond_eval. rewrite orb_false_r.
  pose (h' := length (handles s)).
  pose (xpF := set_group updates (add_to false (LHandle h') (g_updates xp)) xp).
  assert (h < length (handles s)) as Hlt by (by eapply lookup_lt_Some).
  assert (forall sF,
            cells sF !! p = Some xpF ->
            cells sF !! d = Some (set_VALUE v (set_updateHandle (Some h') xd)) ->
            arrays sF = arrays s ->
            handles sF = alter (fun hd => {| owner := owner hd; obsolete := true |}) h
                           (handles s) ++ [{| owner := d; obsolete := false |}] ->
            updatesQueue sF = updatesQueue s ->
            updatesInProgress sF = updatesInProgress s ->
            trace sF = trace s ->
            exists s' xp' xd',
              (fire_group (update n) postupdates d;;
               x ← get_cell d;
               if decide (TYPE x = STATIC) then mod_cell d compact else ret tt) sF
              = (ROk tt, s') /\
              cond_ready p d a s' xp' xd' h' (olds ++ [LHandle h]) arr /\
              VALUE xd' = v /\ _elseThen xd' = _elseThen xd /\
              VALUE xp' = VALUE xp /\ trace s' = trace s /\
              updatesQueue s' = updatesQueue s /\
              updatesInProgress s' = updatesInProgress s) as Fin.
  { intros sF HpF HdF HaF HhF HqF HprF HtrF.
    erewrite bind_ok; [|by apply (fire_group_none _ postupdates d sF _ HdF)].
    mget HdF. cond_eval. rewrite cr_d_type0.
    destruct (decide (DYNAMIC = STATIC)) as [|_]; [done|].
    exists sF, xpF, (set_VALUE v (set_updateHandle (Some h') xd)).
    split; [done|]. split; [|done].
    split; try done.
    - by rewrite HaF.
    - unfold xpF. cond_eval. by rewrite cr_p_upd0.
    - rewrite HhF. apply Forall_app. split.
      + eapply list.Forall_impl; [exact cr_olds0|]. intros l Hl.
        apply is_obsolete_app. destruct l as [k| |]; try done.
        cbn [is_obsolete] in *. destruct (decide (k = h)) as [->|Hk].
        * by rewrite list_lookup_alter_eq, cr_handle0.
        * by rewrite list_lookup_alter_ne.
      + repeat constructor. cbn [is_obsolete].
        rewrite lookup_app_l by (by rewrite length_alter).
        by rewrite list_lookup_alter_eq, cr_handle0.
    - rewrite HhF. rewrite lookup_app_r by (by rewrite length_alter).
      rewrite length_alter. unfold h'. by rewrite Nat.sub_diag. }
  destruct (strict_eq v (VALUE xd)) eqn:E; cbn [negb].
  - apply strict_eq_true in E. mpure.
    eapply Fin; try done.
    + unfold xpF, h'. cell_lookup. by rewrite cr_p0.
    + cell_lookup. rewrite cr_d0. cbn [fmap option_fmap option_map]. do 2 f_equal.
      rewrite E. by destruct xd.
  - mpure. rewrite ?bind_assoc.
    erewrite bind_ok;
      [|eapply (CALL_LISTENERS_quiet _ n);
        [cell_lookup; rewrite cr_d0; reflexivity | exact cr_d_upd0 | exact Hq]].
    eapply Fin; try done.
    + unfold xpF, h'. cell_lookup. by rewrite cr_p0.
    + cell_lookup. by rewrite cr_d0.
Qed.

Lemma cond_ready_pushed (s : State) (xp xd : Cell) (h : nat) (olds : list Listener)
    (arr : list IfThen) (it : IfThen) :
  cond_ready p d a s xp xd h olds arr ->
  cond_ready p d a (with_arrays (alter (fun l => l ++ [it]) a) s) xp xd h olds
    (arr ++ [it]).
Proof.
  intros R. destruct R. split; try done.
  cbn [with_arrays arrays]. by rewrite list_lookup_alter_eq, cr_arr0.
Qed.

Lemma cond_ready_else (s : State) (xp xd : Cell) (h : nat) (olds : list Listener)
    (arr : list IfThen) (e : Value) :
  cond_ready p d a s xp xd h olds arr ->
  cond_ready p d a (with_cells (alter (set_elseThen e) d) s) xp (set_elseThen e xd)
    h olds arr.
Proof.
  intros R. destruct R. split; try done.
  - cbn [with_cells cells]. by rewrite list_lookup_alter_ne.
  - cbn [with_cells cells]. by rewrite list_lookup_alter_eq, cr_d0.
Qed.
Lemma link_cond (n : nat) (s : State) (xp : Cell) (arr : list IfThen) (e : Value) :
  p <> d -> idle s -> cells s !! p = Some xp ->
  cells s !! d
  = Some (set_condEnv (Some {| env_parentDynx := p; env_ifThens := a; env_elseThen := e |})
            (set_elseThen e (set_ifThens (Some a) (mk_cell VUndef INHERIT)))) ->
  arrays s !! a = Some arr -> TYPE xp = DYNAMIC -> unobserved (handles s) xp ->
  exists s',
    set_exp (S (S n)) d (AFun (ECond p)) s = (ROk tt, s') /\
    conditional p d arr e s' /\
    VALUE <$> cells s' !! p = Some (VALUE xp) /\ trace s' = trace s.
Proof.
  intros Hne (Hq & Hpr & Htq & Htp) Hp Hd Ha Hpt (Hpe & Hpf & Hppre & Hppost & Hpo).
  unfold set_exp. mget Hd. cond_eval.
  destruct (decide (INHERIT = STATIC)) as [|_]; [done|]. mpure.
  destruct (decide (INHERIT = INVALID)) as [|_]; [done|].
  rewrite update_unfold. unfold update_body.
  erewrite bind_ok; [|eapply fire_group_none; [cell_lookup; by rewrite Hd|done]].
  mcell Hd. cond_eval.
  unfold reset_pending. mcell Hd. cond_eval.
  destruct (decide (INHERIT = INHERIT)) as [_|]; [|done].
  mpure.
  unfold evaluate. mcell Hd. cond_eval.
  match goal with |- context [bool_decide ?P || bool_decide ?Q] =>
    change (bool_decide P || bool_decide Q) with true end.
  cbv iota. unfold REFRESH_HANDLE. mcell Hd. cond_eval.
  mpure. mpure. mpure. mpure. mpure.
  mcell Hd. cond_eval.
  cbn [eval_exp]. st_simpl.
  unfold get_value. mpure. st_simpl.
  destruct (decide (d = p)) as [|_]; [congruence|].
  mcell Hd. cond_eval.
  mcell Hp. cond_eval.
  destruct (decide (INHERIT = INHERIT)) as [_|]; [|done].
  mpure. rewrite Hpt. destruct (decide (DYNAMIC = STATIC)) as [|_]; [done|].
  mcell Hd. cond_eval. cbn [handle_listener].
  unfold onUpdateSub, ADD_LISTENER, warn_static. mcell Hp. rewrite Hpt.
  destruct (decide (DYNAMIC = STATIC)) as [|_]; [done|]. mpure. mpure.
  mcell Hp. cond_eval. mpure.
  mcell Hd. cond_eval.
  rewrite ?bind_assoc. erewrite bind_ok by (apply get_array_run; exact Ha).
  assert ((match find (fun it => condition it (VALUE xp)) arr with
           | Some it => ret (then_ it)
           | None => ret e
           end : M Value) = ret (cond_value arr e (VALUE xp))) as ->
    by (unfold cond_value; by destruct find).
  set (v := cond_value arr e (VALUE xp)).
  mpure. mcell Hd. cond_eval. mpure. mpure. mpure.
  unfold update_finish.
  mcell Hd. cond_eval.
  destruct (decide (INHERIT = INHERIT)) as [_|]; [|done].
  change (max_pending (Some STATIC) DYNAMIC) with (Some DYNAMIC). cbv iota.
  unfold set_type_with.
  mcell Hd. cond_eval.
  destruct (decide (INHERIT = STATIC)) as [|_]; [done|].
  destruct (decide (INHERIT = DYNAMIC)) as [|_]; [done|].
  mpure. destruct (decide (INHERIT = INVALID)) as [|_]; [done|]. mpure.
  rewrite ?bind_assoc.
  erewrite bind_ok;
    [|eapply CALL_LISTENERS_idle;
      [cell_lookup; rewrite Hd; reflexivity | reflexivity | exact Htq | exact Htp]].
  mpure.
  mcell Hd. cond_eval.
  rewrite orb_false_r.
  pose (h' := length (handles s)).
  pose (xpF := set_group updates (add_to false (LHandle h') (g_updates xp)) xp).
  assert (forall sF xdF,
            cells sF !! p = Some xpF -> cells sF !! d = Some xdF ->
            arrays sF = arrays s ->
            handles sF = handles s ++ [{| owner := d; obsolete := false |}] ->
            updatesQueue sF = None -> updatesInProgress sF = false ->
            trace sF = trace s ->
            VALUE xdF = v -> TYPE xdF = DYNAMIC ->
            EXP xdF = Some (ECond p) -> filters xdF = None ->
            updateHandle xdF = Some h' -> g_preupdates xdF = None ->
            g_updates xdF = None -> g_postupdates xdF = None ->
            _ifThens xdF = Some a -> _elseThen xdF = e ->
            condEnv xdF = Some {| env_parentDynx := p; env_ifThens := a;
                                  env_elseThen := e |} ->
            exists s',
              (fire_group (update (S n)) postupdates d;;
               x ← get_cell d;
               if decide (TYPE x = STATIC) then mod_cell d compact else ret tt) sF
              = (ROk tt, s') /\ conditional p d arr e s' /\
              VALUE <$> cells s' !! p = Some (VALUE xp) /\ trace s' = trace s) as Fin.
  { intros sF xdF HpF HdF HaF HhF HqF HprF HtrF Hv Ht He Hf Hh Hpre Hupd Hpost Hi Hel Hen.
    erewrite bind_ok; [|by apply (fire_group_none _ postupdates d sF xdF)].
    mget HdF. rewrite Ht. destruct (decide (DYNAMIC = STATIC)) as [|_]; [done|].
    exists sF. split; [done|]. split; [|split; [by rewrite HpF|done]].
    exists a, xpF, xdF, h', (default [] (g_updates xp)).
    split; [|by split].
    split; try done.
    - by rewrite HaF.
    - rewrite HhF. eapply list.Forall_impl; [exact Hpo|]. intros l. apply is_obsolete_app.
    - rewrite HhF. unfold h'. by rewrite lookup_app_r, Nat.sub_diag by lia.
    - by exists e. }
  destruct (strict_eq v VUndef) eqn:E; cbn [negb].
  - apply strict_eq_true in E. mpure.
    eapply Fin;
      [unfold xpF, h'; cell_lookup; by rewrite Hp
      |cell_lookup; rewrite Hd; reflexivity|..]; try done.
  - mpure. rewrite ?bind_assoc.
    erewrite bind_ok;
      [|eapply CALL_LISTENERS_idle;
        [cell_lookup; rewrite Hd; reflexivity | reflexivity | exact Hq | exact Hpr]].
    eapply Fin;
      [unfold xpF, h'; cell_lookup; by rewrite Hp
      |cell_lookup; rewrite Hd; reflexivity|..]; try done.
Qed.
End Cond.

Lemma cond_if_extends (n : nat) (p d : nat) (arr : list IfThen) (e : Value)
    (s : State) (c : Value -> bool) (t : Value) :
  conditional p d arr e s ->
  exists s',
    cond_if (S (S n)) d c t s = (ROk d, s') /\
    conditional p d (arr ++ [{| condition := c; then_ := t |}]) e s' /\
    VALUE <$> cells s' !! p = VALUE <$> cells s !! p /\
    trace s' = trace s.
Proof.
  intros (a & xp & xd & h & olds & R & He & Hv & Hidle).
  pose proof (cond_ready_pushed p d a s xp xd h olds arr
                {| condition := c; then_ := t |} R) as R1.
  destruct (update_cond p d a (S n) _ xp xd h _ _ R1)
    as (s' & xp' & xd' & Hrun & R' & Hv' & He' & Hvp & Htr & Hq' & Hp');
    [left; split; [exact Hidle|lia]|].
  destruct R as [? Hp Hd Ha ? ? ? ? ? ? ? ? Ht ? ? ? ? ? ? Hi [e0 Henv]].
  unfold cond_if. mget Hd. rewrite Henv, Hi.
  rewrite ?bind_assoc. erewrite bind_ok by (apply get_array_run; exact Ha).
  mpure.
  assert (cells (with_arrays (alter (fun l => l ++ [{| condition := c; then_ := t |}]) a) s)
            !! d = Some xd) as Hd1 by done.
  mget Hd1. rewrite Ht. destruct (decide (DYNAMIC = STATIC)) as [|_]; [done|].
  rewrite ?bind_assoc, (bind_ok _ _ _ _ _ Hrun).
  exists s'. split; [done|]. split; [|split; [|done]].
  - eexists a, xp', xd', _, _. split; [exact R'|]. split; [congruence|].
    split; [rewrite Hv', Hvp; congruence|]. destruct Hidle as [Hq Hpr].
    split; [by rewrite Hq'|by rewrite Hp'].
  - destruct R' as [_ -> _ _]. cbn. by rewrite Hvp, Hp.
Qed.

(** X16: [cond.if(condition, then)] on a conditional over a DYNAMIC
    constant: the call returns the conditional itself, which now holds the
    new condition after the earlier ones and stores the value selected by
    the extended list; no user callback runs. *)
Theorem X16_if_extends_conditional (n : nat) (p d : nat) (arr : list IfThen) (e : Value)
    (s : State) (c : Value -> bool) (t : Value) :
  conditional p d arr e s ->
  exists s',
    cond_if (S (S n)) d c t s = (ROk d, s') /\
    conditional p d (arr ++ [{| condition := c; then_ := t |}]) e s' /\
    VALUE <$> cells s' !! p = VALUE <$> cells s !! p /\
    trace s' = trace s.
Proof. apply cond_if_extends. Qed.

Lemma X16_witness :
  exists s',
    cond_if 2 1 (fun _ => true) (VNum 20) conditional_cell = (ROk 1, s') /\
    conditional 0 1 ([{| condition := is_one; then_ := VNum 10 |}]
                     ++ [{| condition := fun _ => true; then_ := VNum 20 |}]) VUndef s' /\
    VALUE <$> cells s' !! 0 = VALUE <$> cells conditional_cell !! 0 /\
    trace s' = trace conditional_cell.
Proof.
  apply (X16_if_extends_conditional 0 0 1 [{| condition := is_one; then_ := VNum 10 |}]
           VUndef conditional_cell (fun _ => true) (VNum 20)).
  eexists 0, _, _, 1, [LHandle 0].
  split; [split; first [by vm_compute | vm_compute; reflexivity | by eexists
                       | by repeat constructor]
         |repeat split; by vm_compute].
Defined.

(** X17: [cond.else(then)] on a conditional over a DYNAMIC constant: the
    call returns the conditional itself, which now holds the new else
    value and stores the value selected with it; no user callback runs. *)
Theorem X17_else_sets_default (n : nat) (p d : nat) (arr : list IfThen) (e : Value)
    (s : State) (e' : Value) :
  conditional p d arr e s ->
  exists s',
    cond_else (S (S n)) d e' s = (ROk d, s') /\
    conditional p d arr e' s' /\
    VALUE <$> cells s' !! p = VALUE <$> cells s !! p /\
    trace s' = trace s.
Proof.
  intros (a & xp & xd & h & olds & R & He & Hv & Hidle).
  pose proof (cond_ready_else p d a s xp xd h olds arr e' R) as R1.
  destruct (update_cond p d a (S n) _ xp _ h _ _ R1)
    as (s' & xp' & xd' & Hrun & R' & Hv' & He' & Hvp & Htr & Hq' & Hp');
    [left; split; [exact Hidle|lia]|].
  destruct R as [? Hp Hd Ha ? ? ? ? ? ? ? ? Ht ? ? ? ? ? ? Hi [e0 Henv]].
  unfold cond_else. mget Hd. rewrite Henv. mpure.
  assert (cells (with_cells (alter (set_elseThen e') d) s) !! d
          = Some (set_elseThen e' xd)) as Hd1
    by (cbn [with_cells cells]; by rewrite list_lookup_alter_eq, Hd).
  mget Hd1. cond_eval. rewrite Ht. destruct (decide (DYNAMIC = STATIC)) as [|_]; [done|].
  rewrite ?bind_assoc, (bind_ok _ _ _ _ _ Hrun).
  exists s'. split; [done|]. split; [|split; [|done]].
  - eexists a, xp', xd', _, _. split; [exact R'|]. split; [exact He'|].
    split; [by rewrite Hv', Hvp|]. destruct Hidle as [Hq Hpr].
    split; [by rewrite Hq'|by rewrite Hp'].
  - destruct R' as [_ -> _ _]. cbn. by rewrite Hvp, Hp.
Qed.

Lemma X17_witness :
  exists s',
    cond_else 2 1 (VNum 30) conditional_cell = (ROk 1, s') /\
    conditional 0 1 [{| condition := is_one; then_ := VNum 10 |}] (VNum 30) s' /\
    VALUE <$> cells s' !! 0 = VALUE <$> cells conditional_cell !! 0 /\
    trace s' = trace conditional_cell.
Proof.
  apply (X17_else_sets_default 0 0 1 [{| condition := is_one; then_ := VNum 10 |}]
           VUndef conditional_cell (VNum 30)).
  eexists 0, _, _, 1, [LHandle 0].
  split; [split; first [by vm_compute | vm_compute; reflexivity | by eexists
                       | by repeat constructor]
         |repeat split; by vm_compute].
Defined.

(** The statements of [createBasicCond] before the assignment of
    [cond.exp]. *)
Lemma createBasicCond_prefix (k : nat) (p a : nat) (e : Value) (s : State) :
  idle s ->
  createBasicCond (S k) p a e s =
  (set_exp (S k) (length (cells s)) (AFun (ECond p));; ret (length (cells s)))
    (with_cells
       (alter (set_condEnv (Some {| env_parentDynx := p; env_ifThens := a;
                                    env_elseThen := e |})) (length (cells s)))
       (with_cells (alter (set_elseThen e) (length (cells s)))
          (with_cells (alter (set_ifThens (Some a)) (length (cells s)))
             (with_cells (alter (set_TYPE INHERIT) (length (cells s)))
                (with_cells (fun l => l ++ [mk_cell VUndef DYNAMIC]) s))))).
Proof.
  intros (Hq & Hpr & Htq & Htp). unfold createBasicCond. unfold new_Dynx at 1. mpure.
  assert ((cells s ++ [mk_cell VUndef DYNAMIC]) !! length (cells s)
          = Some (mk_cell VUndef DYNAMIC)) as Hd by (by apply list_lookup_middle).
  unfold set_type, set_type_with. mget Hd. cell_eval.
  destruct (decide (DYNAMIC = STATIC)) as [|_]; [done|].
  destruct (decide (DYNAMIC = INHERIT)) as [|_]; [done|].
  mpure. destruct (decide (DYNAMIC = INVALID)) as [|_]; [done|]. mpure.
  rewrite ?bind_assoc.
  erewrite bind_ok;
    [|eapply CALL_LISTENERS_idle;
      [cell_lookup; rewrite Hd; reflexivity | reflexivity | exact Htq | exact Htp]].
  mpure. mpure. mpure. reflexivity.
Qed.

Lemma createBasicCond_links (n : nat) (p a : nat) (e : Value) (s : State) (xp : Cell)
    (arr : list IfThen) :
  idle s -> cells s !! p = Some xp -> TYPE xp = DYNAMIC -> unobserved (handles s) xp ->
  arrays s !! a = Some arr ->
  exists s',
    createBasicCond (S (S n)) p a e s = (ROk (length (cells s)), s') /\
    conditional p (length (cells s)) arr e s' /\
    VALUE <$> cells s' !! p = Some (VALUE xp) /\ trace s' = trace s.
Proof.
  intros Hi Hp Ht Hu Ha. rewrite createBasicCond_prefix by done.
  assert (p < length (cells s)) as Hlt by (by eapply lookup_lt_Some).
  match goal with |- exists _, (_ ≫= _) ?s2 = _ /\ _ =>
    destruct (link_cond p (length (cells s)) a n s2 xp arr e) as (s' & Hrun & Hc & Hv & Htr);
      [lia | exact Hi | | | exact Ha | exact Ht | exact Hu |] end.
  - cbn [with_cells cells]. rewrite !list_lookup_alter_ne by lia. by rewrite lookup_app_l.
  - cbn [with_cells cells]. rewrite !list_lookup_alter_eq, list_lookup_middle by done. done.
  - exists s'. split; [|done]. by rewrite (bind_ok _ _ _ _ _ Hrun).
Qed.

(** X18: [createBasicCond(p, a, e)] on a DYNAMIC constant [p] that nothing
    live listens to, while no dispatch is in progress: the call returns a
    new cell that resolves its INHERIT type to DYNAMIC, is subscribed to
    [p], holds the conditions of the array [a] and the else value [e], and
    stores the value they select; no user callback runs. *)
Theorem X18_createBasicCond_links (n : nat) (p a : nat) (e : Value) (s : State)
    (xp : Cell) (arr : list IfThen) :
  idle s -> cells s !! p = Some xp -> TYPE xp = DYNAMIC -> unobserved (handles s) xp ->
  arrays s !! a = Some arr ->
  exists s',
    createBasicCond (S (S n)) p a e s = (ROk (length (cells s)), s') /\
    conditional p (length (cells s)) arr e s' /\
    VALUE <$> cells s' !! p = Some (VALUE xp) /\ trace s' = trace s.
Proof. apply createBasicCond_links. Qed.

Lemma X18_witness :
  let s := with_arrays (fun _ => [[{| condition := is_one; then_ := VNum 10 |}]]) one_cell in
  exists s',
    createBasicCond 2 0 0 (VNum 30) s = (ROk (length (cells s)), s') /\
    conditional 0 (length (cells s)) [{| condition := is_one; then_ := VNum 10 |}]
      (VNum 30) s' /\
    VALUE <$> cells s' !! 0 = Some (VALUE (mk_cell (VNum 1) DYNAMIC)) /\
    trace s' = trace s.
Proof.
  apply (X18_createBasicCond_links 0 0 0 (VNum 30)
           (with_arrays (fun _ => [[{| condition := is_one; then_ := VNum 10 |}]]) one_cell)
           (mk_cell (VNum 1) DYNAMIC) [{| condition := is_one; then_ := VNum 10 |}]).
  - by repeat split.
  - reflexivity.
  - reflexivity.
  - repeat split; constructor.
  - reflexivity.
Defined.

(** X19: [p.if(condition, then)] on a DYNAMIC constant [p] that nothing
    live listens to, while no dispatch is in progress: the call returns a
    new conditional over [p] with the single condition and no else value,
    so that it stores [then] when the condition holds of the value of [p]
    and [undefined] otherwise; no user callback runs. *)
Theorem X19_if_creates_conditional (n : nat) (p : nat) (s : State) (xp : Cell)
    (c : Value -> bool) (t : Value) :
  idle s -> cells s !! p = Some xp -> TYPE xp = DYNAMIC -> unobserved (handles s) xp ->
  exists s',
    proto_if (S (S n)) p c t s = (ROk (length (cells s)), s') /\
    conditional p (length (cells s)) [{| condition := c; then_ := t |}] VUndef s' /\
    cell_sat (length (cells s))
      (fun y => VALUE y = if c (VALUE xp) then t else VUndef) s' /\
    trace s' = trace s.
Proof.
  intros Hi Hp Ht Hu. unfold proto_if. unfold new_array at 1. mpure.
  match goal with |- exists _, (_ ≫= _) ?s1 = _ /\ _ =>
    destruct (createBasicCond_links n p (length (arrays s)) VUndef s1 xp [] Hi Hp Ht Hu)
      as (s2 & Hrun & Hc & Hv2 & Htr) end.
  { cbn [with_arrays arrays]. by apply list_lookup_middle. }
  rewrite (bind_ok _ _ _ _ _ Hrun).
  destruct (cond_if_extends n p (length (cells s)) [] VUndef s2 c t Hc)
    as (s' & Hrun' & Hc' & Hv' & Htr').
  exists s'. split; [exact Hrun'|]. split; [exact Hc'|].
  split; [|by rewrite Htr', Htr].
  destruct Hc' as (a & xp' & xd' & h & olds & R & He & Hv & _).
  exists xd'. split; [by destruct R|]. rewrite Hv.
  rewrite Hv2 in Hv'. destruct R as [_ Hp' _ _]. rewrite Hp' in Hv'.
  injection Hv' as ->. unfold cond_value. cbn [app find condition then_].
  by destruct (c (VALUE xp)).
Qed.

Lemma X19_witness :
  exists s',
    proto_if 2 0 is_one (VNum 10) one_cell = (ROk (length (cells one_cell)), s') /\
    conditional 0 (length (cells one_cell)) [{| condition := is_one; then_ := VNum 10 |}]
      VUndef s' /\
    cell_sat (length (cells one_cell))
      (fun y => VALUE y = if is_one (VALUE (mk_cell (VNum 1) DYNAMIC)) then VNum 10
                          else VUndef) s' /\
    trace s' = trace one_cell.
Proof.
  apply (X19_if_creates_conditional 0 0 one_cell (mk_cell (VNum 1) DYNAMIC) is_one (VNum 10)).
  - by repeat split.
  - reflexivity.
  - reflexivity.
  - repeat split; constructor.
Defined.

Lemma cond_ready_ext (p d a : nat) (s s2 : State) (xp xd : Cell) (h : nat)
    (olds : list Listener) (arr : list IfThen) :
  cells s2 = cells s -> handles s2 = handles s -> arrays s2 = arrays s ->
  cond_ready p d a s xp xd h olds arr -> cond_ready p d a s2 xp xd h olds arr.
Proof. intros Hc Hh Ha R. destruct R. split; rewrite ?Hc, ?Hh, ?Ha; done. Qed.

Lemma cond_step (n : nat) (p d a : nat) (s : State) (xp xd : Cell) (h : nat)
    (olds : list Listener) (arr : list IfThen) (w : Value) :
  cond_ready p d a s xp xd h olds arr -> updates_idle s -> w <> VALUE xp ->
  exists s' xp' xd' h' olds',
    set_value (S (S (S n))) p w s = (ROk tt, s') /\
    cond_ready p d a s' xp' xd' h' olds' arr /\ updates_idle s' /\
    VALUE xp' = w /\ VALUE xd' = cond_value arr (_elseThen xd) w /\
    _elseThen xd' = _elseThen xd /\ trace s' = trace s.
Proof.
  intros R [Hq Hpr] Hw. pose proof R as R0. destruct R.
  rewrite (set_value_constant (S (S n)) p s xp w) by done.
  pose (sB := with_cells (alter (set_VALUE w) p) (with_cells (alter (set_EXP None) p) s)).
  pose (xpB := set_VALUE w (set_EXP None xp)).
  assert (cells sB !! p = Some xpB) as HpB by (subst sB; cell_lookup; by rewrite cr_p0).
  unfold CALL_LISTENERS. mpure.
  match goal with |- context [get_queue QUpdates ?st] =>
    assert (get_queue QUpdates st = None) as -> by exact Hq end.
  mpure. mget HpB.
  match goal with |- context [get_group (qgroup QUpdates) ?y] =>
    assert (get_group (qgroup QUpdates) y = Some (olds ++ [LHandle h])) as ->
      by exact cr_p_upd0 end.
  mpure.
  match goal with |- context [enqueue_loop ?hs _ _] => change hs with (handles s) end.
  rewrite (enqueue_loop_spec (handles s) [] (olds ++ [LHandle h])).
  2:{ intros Hin. apply elem_of_app in Hin as [Hin|Hin].
      - by apply (obsolete_not_undef (handles s) olds).
      - apply elem_of_cons in Hin as [Hin|Hin]; [done|]. by apply elem_of_nil in Hin. }
  rewrite live_listeners_app, (live_listeners_obsolete _ _ cr_olds0).
  assert (live_listeners (handles s) [LHandle h] = [LHandle h]) as ->.
  { unfold live_listeners. rewrite filter_cons, decide_True; [done|].
    cbn [is_obsolete]. by rewrite cr_handle0. }
  cbn [app]. rewrite bool_decide_eq_false_2 by (by intros [? _]).
  mpure. mpure. mpure. mpure.
  match goal with |- context [get_progress QUpdates ?st] =>
    assert (get_progress QUpdates st = false) as -> by (subst sB; exact Hpr) end.
  mpure. rewrite drain_unfold. mpure. st_simpl. mpure.
  cbn [call_listener]. mhandle cr_handle0. cbn [owner]. st_simpl.
  rewrite ?bind_assoc.
  match goal with |- exists _ _ _ _ _, ?m ?st = _ /\ _ => pose (sC := st) end.
  assert (cond_ready p d a sC (set_group updates (Some [LHandle h]) xpB) xd h [] arr) as RC.
  { split; try done.
    - subst sC sB. cell_lookup. by rewrite cr_p0.
    - subst sC sB. cell_lookup. by rewrite cr_d0. }
  destruct (update_cond p d a (S n) sC _ xd h [] arr RC)
    as (s1 & xp1 & xd1 & Hrun & R1 & Hv1 & He1 & Hvp1 & Htr1 & Hq1 & Hp1).
  { right. split; [by eexists|done]. }
  rewrite (bind_ok _ _ _ _ _ Hrun).
  rewrite drain_unfold. mpure. cbn [get_queue]. rewrite Hq1. cbn [sC updatesQueue with_queue].
  st_simpl. mpure. mpure. mpure. rewrite ?bind_assoc.
  match goal with |- exists _ _ _ _ _, ?m ?st = _ /\ _ => pose (sF := st) end.
  assert (cond_ready p d a sF xp1 xd1 (length (handles sC)) ([] ++ [LHandle h]) arr) as RF.
  { apply (cond_ready_ext p d a s1 sF); try done. }
  pose proof RF as RF0. destruct RF.
  erewrite bind_ok; [|by apply (fire_group_none _ postupdates p sF xp1)].
  mget cr_p1. rewrite cr_p_type1. destruct (decide (DYNAMIC = STATIC)) as [|_]; [done|].
  eexists sF, xp1, xd1, _, _. split; [done|]. split; [exact RF0|].
  split; [done|]. split; [exact Hvp1|]. split; [exact Hv1|]. split; [exact He1|].
  exact Htr1.
Qed.



(** ** Recomputation of a cell with user callbacks, with its type

    As [update_local], with what the recomputation leaves of the type, of
    the type-change listeners and of the 'typeChanges' dispatch. *)
Section LocalTyped.
Variables (fuel : nat) (c : nat) (force : bool).
Variables (x : Cell) (ps us qs : option (list nat)).
Hypothesis Htype : TYPE x <> INHERIT.
Hypothesis Hpre : get_group preupdates x = user_group ps.
Hypothesis Hupd : get_group updates x = user_group us.
Hypothesis Hpost : get_group postupdates x = user_group qs.
Hypothesis Hfuel : length (default [] us) < fuel.

Lemma update_finish_typed (s2 : State) (x2 : Cell) (nv : Value) :
  cells s2 !! c = Some x2 -> same_settings x x2 ->
  updatesQueue s2 = None -> updatesInProgress s2 = false ->
  exists s' y,
    update_finish (update fuel) fuel c force nv s2 = (ROk tt, s') /\
    cells s' !! c = Some y /\ VALUE y = nv /\ TYPE y = TYPE x /\
    get_group typeChanges y = get_group typeChanges x /\
    typeChangesQueue s' = typeChangesQueue s2 /\
    typeChangesInProgress s' = typeChangesInProgress s2 /\
    trace s' = trace s2
               ++ (if negb (strict_eq nv (VALUE x)) || force
                   then calls c (default [] us) else [])
               ++ calls c (default [] qs).
Proof.
  intros Hx2 (Hv & Ht & _ & _ & Hg) Hq Hp.
  set (fired := negb (strict_eq nv (VALUE x)) || force).
  unfold update_finish. mget Hx2. rewrite Ht, decide_False by done. mpure.
  mget Hx2. rewrite Hv. fold fired.
  assert (exists s4 x4,
    (if fired then mod_cell c (set_VALUE nv);; CALL_LISTENERS (update fuel) fuel QUpdates c
     else ret tt) s2 = (ROk tt, s4) /\
    cells s4 !! c = Some x4 /\ VALUE x4 = nv /\ TYPE x4 = TYPE x /\
    get_group postupdates x4 = user_group qs /\
    get_group typeChanges x4 = get_group typeChanges x /\
    typeChangesQueue s4 = typeChangesQueue s2 /\
    typeChangesInProgress s4 = typeChangesInProgress s2 /\
    trace s4 = trace s2 ++ (if fired then calls c (default [] us) else []))
    as (s4 & x4 & H4 & Hx4 & Hv4 & Ht4 & Hg4 & Hgt4 & Hq4 & Hp4 & Htr4).
  { destruct fired eqn:Ef.
    - mpure.
      assert (cells (with_cells (alter (set_VALUE nv) c) s2) !! c = Some (set_VALUE nv x2))
        as Hx3 by (cbn [with_cells cells]; by rewrite list_lookup_alter_eq, Hx2).
      erewrite (CALL_LISTENERS_user _ _ QUpdates c _ _ us Hx3); try done.
      + eexists _, _. split; [done|]. split; [exact Hx3|].
        repeat split; try done.
        * by rewrite <- Hpost, <- (Hg postupdates).
        * by rewrite <- (Hg typeChanges).
      + by rewrite <- Hupd, <- (Hg updates).
    - exists s2, x2. split; [done|]. split; [done|]. repeat split; try done.
      + subst fired. apply orb_false_iff in Ef as [Ef _].
        apply negb_false_iff, strict_eq_true in Ef. congruence.
      + by rewrite <- Hpost, <- (Hg postupdates).
      + by rewrite app_nil_r. }
  rewrite (bind_ok _ _ _ _ _ H4).
  erewrite bind_ok; [|by apply (fire_group_user _ postupdates c s4 x4 qs)].
  assert (cells (with_trace (fun _ => trace s4 ++ calls c (default [] qs)) s4) !! c = Some x4)
    as Hx5 by done.
  mget Hx5. destruct (decide (TYPE x4 = STATIC)).
  - rewrite mod_cell_run. eexists _, (compact x4). split; [done|].
    split; [cbn [with_cells with_trace cells]; by rewrite list_lookup_alter_eq, Hx4|].
    repeat split; try done.
    cbn [with_cells with_trace trace]. by rewrite Htr4, <- app_assoc.
  - eexists _, x4. split; [done|]. split; [done|]. repeat split; try done.
    cbn [with_trace trace]. by rewrite Htr4, <- app_assoc.
Qed.

Lemma update_typed (s s2 : State) (nv : Value) :
  cells s !! c = Some x ->
  updatesQueue s = None -> updatesInProgress s = false ->
  evaluate c (VALUE x) (with_trace (fun _ => trace s ++ calls c (default [] ps)) s)
    = (ROk nv, s2) ->
  exists s' y,
    update (S fuel) c force s = (ROk tt, s') /\
    cells s' !! c = Some y /\ VALUE y = nv /\ TYPE y = TYPE x /\
    get_group typeChanges y = get_group typeChanges x /\
    typeChangesQueue s' = typeChangesQueue s /\
    typeChangesInProgress s' = typeChangesInProgress s /\
    trace s' = trace s ++ calls c (default [] ps)
               ++ (if negb (strict_eq nv (VALUE x)) || force
                   then calls c (default [] us) else [])
               ++ calls c (default [] qs).
Proof.
  intros Hx Hq Hp Hev. simpl update. unfold update_body.
  erewrite bind_ok; [|by apply (fire_group_user _ preupdates c s x ps)].
  set (s1 := with_trace (fun _ => trace s ++ calls c (default [] ps)) s) in *.
  assert (cells s1 !! c = Some x) as Hx1 by done.
  mget Hx1. unfold reset_pending. mget Hx1. rewrite decide_False by done. mpure.
  rewrite (bind_ok _ _ _ _ _ Hev).
  pose proof (evaluate_own c (same_settings x) (same_settings_pending x)
                (same_settings_handle x) (VALUE x) s1) as Hown.
  rewrite Hev in Hown. destruct Hown as (x2 & Hx2 & Hsame).
  { exists x. split; [done|apply same_settings_refl]. }
  pose proof (evaluate_dispatch_view c (VALUE x) s1) as Hdv. rewrite Hev in Hdv.
  simpl in Hdv.
  pose proof (f_equal (fun v => v.1.1.1.1) Hdv) as Htr.
  pose proof (f_equal (fun v => v.1.1.1.2) Hdv) as Hq2.
  pose proof (f_equal (fun v => v.1.1.2) Hdv) as Hp2.
  pose proof (f_equal (fun v => v.1.2) Hdv) as Htq2.
  pose proof (f_equal (fun v => v.2) Hdv) as Htp2.
  simpl in Htr, Hq2, Hp2, Htq2, Htp2.
  destruct (update_finish_typed s2 x2 nv Hx2 Hsame)
    as (s' & y & R & Hy & Hvy & Hty & Hgy & Hqy & Hpy & Htry).
  { by rewrite Hq2. } { by rewrite Hp2. }
  exists s', y. split; [done|]. split; [done|]. repeat split; try done.
  - by rewrite Hqy, Htq2.
  - by rewrite Hpy, Htp2.
  - rewrite Htry, Htr. subst s1. simpl. by rewrite <- !app_assoc.
Qed.
End LocalTyped.

(** ** Suspension under INVALID *)

(** C8 (counterexample): [c = Dynx(() => p.value + 1)] over [p = new
    Dynx(1)], with an update listener, is given the type INVALID; then
    [p.value = 7] recomputes [c] to 8 and calls its listener, although the
    type of [c] is still INVALID. *)
Lemma C8_counterexample : ~ resumes_only_on_retype 5 invalid_follower 1.
Proof.
  intros H.
  destruct (H _ ltac:(vm_compute; reflexivity) eq_refl 0 (VNum 7) ltac:(lia))
    as [(y & Hy & Hv) _].
  vm_compute in Hy. injection Hy as <-. vm_compute in Hv. discriminate.
Qed.

(** C8 (amended): while the type of a cell is INVALID, an assignment to
    [value] or [exp] returns and only stores: the value is the assigned
    one and the expression is deleted, respectively the expression is the
    assigned one and the value is the old one; the type stays INVALID and
    nothing else in the state changes (nothing is recomputed, no listener
    is called).  Assigning INVALID again does nothing.  Assigning a type
    other than INVALID and INHERIT forces a recomputation: on a cell whose
    listeners are user callbacks, while no dispatch is in progress, when
    the evaluation returns [nv], the assignment returns, the cell has the
    new type and stores [nv], and the pre-update, update (whatever [nv]),
    post-update and type-change listeners are called, in this order.
    Recomputation is not suspended otherwise: [update] on the INVALID cell
    recomputes it in the same way (the update listeners being called when
    the value changes or under [force]) and leaves the type INVALID. *)
Theorem C8_invalid_suspends (fuel : nat) (s : State) (c : nat) (x : Cell) :
  cells s !! c = Some x -> TYPE x = INVALID ->
  (forall v,
     set_value fuel c v s =
       (ROk tt, with_cells (alter (fun y => set_VALUE v (set_EXP None y)) c) s) /\
     cell_sat c (fun y => VALUE y = v /\ EXP y = None /\ TYPE y = INVALID)
       (set_value fuel c v s).2 /\
     trace (set_value fuel c v s).2 = trace s) /\
  (forall e,
     set_exp fuel c (AFun e) s =
       (ROk tt, with_cells (alter (set_EXP (Some e)) c) s) /\
     cell_sat c (fun y => EXP y = Some e /\ VALUE y = VALUE x /\ TYPE y = INVALID)
       (set_exp fuel c (AFun e) s).2 /\
     trace (set_exp fuel c (AFun e) s).2 = trace s) /\
  set_type fuel c INVALID s = (ROk tt, s) /\
  (forall t ps us qs ts nv s2,
     t <> INVALID -> t <> INHERIT ->
     get_group preupdates x = user_group ps ->
     get_group updates x = user_group us ->
     get_group postupdates x = user_group qs ->
     get_group typeChanges x = user_group ts ->
     updatesQueue s = None -> updatesInProgress s = false ->
     typeChangesQueue s = None -> typeChangesInProgress s = false ->
     length (default [] us) < fuel -> length (default [] ts) <= fuel ->
     evaluate c (VALUE x)
       (with_trace (fun _ => trace s ++ calls c (default [] ps))
          (with_cells (alter (set_TYPE t) c) s)) = (ROk nv, s2) ->
     (set_type (S fuel) c t s).1 = ROk tt /\
     cell_sat c (fun y => TYPE y = t /\ VALUE y = nv) (set_type (S fuel) c t s).2 /\
     trace (set_type (S fuel) c t s).2 =
       trace s ++ calls c (default [] ps) ++ calls c (default [] us)
               ++ calls c (default [] qs) ++ calls c (default [] ts)) /\
  (forall force ps us qs nv s2,
     get_group preupdates x = user_group ps ->
     get_group updates x = user_group us ->
     get_group postupdates x = user_group qs ->
     updatesQueue s = None -> updatesInProgress s = false ->
     length (default [] us) < fuel ->
     evaluate c (VALUE x)
       (with_trace (fun _ => trace s ++ calls c (default [] ps)) s) = (ROk nv, s2) ->
     (update (S fuel) c force s).1 = ROk tt /\
     cell_sat c (fun y => TYPE y = INVALID /\ VALUE y = nv) (update (S fuel) c force s).2 /\
     trace (update (S fuel) c force s).2 =
       trace s ++ calls c (default [] ps)
               ++ (if negb (strict_eq nv (VALUE x)) || force
                   then calls c (default [] us) else [])
               ++ calls c (default [] qs)).
Proof.
  intros Hx Ht.
  assert (forall v, set_value fuel c v s =
            (ROk tt, with_cells (alter (fun y => set_VALUE v (set_EXP None y)) c) s)) as HA.
  { intros v. unfold set_value. mget Hx. rewrite Ht, decide_False by done.
    mpure. destruct (strict_eq (VALUE x) v) eqn:E.
    + apply strict_eq_true in E. cbn [ret]. f_equal. unfold with_cells. f_equal.
      apply list_alter_ext; [|done]. intros y Hy. assert (y = x) as -> by congruence.
      rewrite <- E. by destruct x.
    + mpure. rewrite decide_True by done. cbn [ret]. f_equal.
      unfold with_cells. cbn [cells handles arrays childStack updatesQueue
        updatesInProgress typeChangesQueue typeChangesInProgress trace console].
      f_equal. by rewrite list_alter_alter_eq. }
  assert (forall e, set_exp fuel c (AFun e) s =
            (ROk tt, with_cells (alter (set_EXP (Some e)) c) s)) as HB.
  { intros e. unfold set_exp. mget Hx. rewrite Ht, decide_False by done.
    mpure. by rewrite decide_True. }
  split; [|split; [|split; [|split]]].
  - intros v. split; [apply HA|]. rewrite HA. split; [|done].
    exists (set_VALUE v (set_EXP None x)). cbn [snd with_cells cells].
    by rewrite list_lookup_alter_eq, Hx.
  - intros e. split; [apply HB|]. rewrite HB. split; [|done].
    exists (set_EXP (Some e) x). cbn [snd with_cells cells].
    by rewrite list_lookup_alter_eq, Hx.
  - unfold set_type, set_type_with. mget Hx. rewrite Ht, decide_False by done.
    by rewrite decide_True.
  - intros t ps us qs ts nv s2 Hti Hth Hps Hus Hqs Hts Hq Hp Htq Htp Hfu Hft Hev.
    pose (s1 := with_cells (alter (set_TYPE t) c) s).
    assert (cells s1 !! c = Some (set_TYPE t x)) as Hx1
      by (subst s1; cbn [with_cells cells]; by rewrite list_lookup_alter_eq, Hx).
    destruct (update_typed fuel c true (set_TYPE t x) ps us qs Hth Hps Hus Hqs Hfu
                s1 s2 nv Hx1 Hq Hp Hev)
      as (s' & y & R & Hy & Hvy & Hty & Hgy & Hqy & Hpy & Htry).
    unfold set_type, set_type_with. mget Hx. rewrite Ht.
    rewrite decide_False by done. rewrite decide_False by done.
    mpure. rewrite decide_True by done. fold s1.
    rewrite ?bind_assoc, (bind_ok _ _ _ _ _ R).
    rewrite (CALL_LISTENERS_user _ (S fuel) QTypeChanges c s' y ts Hy);
      [|cbn [qgroup]; rewrite Hgy; exact Hts
       |cbn [get_queue]; by rewrite Hqy|cbn [get_progress]; by rewrite Hpy|lia].
    cbn [fst snd with_trace trace]. split; [done|]. split.
    + by exists y.
    + rewrite Htry. rewrite orb_true_r. subst s1. cbn [with_cells trace].
      by rewrite <- !app_assoc.
  - intros force ps us qs nv s2 Hps Hus Hqs Hq Hp Hfu Hev.
    destruct (update_typed fuel c force x ps us qs ltac:(by rewrite Ht) Hps Hus Hqs Hfu
                s s2 nv Hx Hq Hp Hev)
      as (s' & y & R & Hy & Hvy & Hty & _ & _ & _ & Htry).
    rewrite R. cbn [fst snd]. split; [done|]. split; [|done].
    exists y. by rewrite Hty, Ht.
Qed.

Lemma C8_witness :
  let s := invalid_listened in
  (set_value 2 0 (VNum 9) s).1 = ROk tt /\
  cell_sat 0 (fun y => VALUE y = VNum 9 /\ EXP y = None /\ TYPE y = INVALID)
    (set_value 2 0 (VNum 9) s).2 /\
  trace (set_value 2 0 (VNum 9) s).2 = trace s /\
  cell_sat 0 (fun y => EXP y = Some (EFun (Ret (VNum 8))) /\ VALUE y = VNum 5
                       /\ TYPE y = INVALID)
    (set_exp 2 0 (AFun (EFun (Ret (VNum 8)))) s).2 /\
  (set_type 3 0 DYNAMIC s).1 = ROk tt /\
  cell_sat 0 (fun y => TYPE y = DYNAMIC /\ VALUE y = VNum 7) (set_type 3 0 DYNAMIC s).2 /\
  trace (set_type 3 0 DYNAMIC s).2 =
    trace s ++ calls 0 [1] ++ calls 0 [2] ++ calls 0 [3] ++ calls 0 [4] /\
  (update 3 0 false s).1 = ROk tt /\
  cell_sat 0 (fun y => TYPE y = INVALID /\ VALUE y = VNum 7) (update 3 0 false s).2 /\
  trace (update 3 0 false s).2 = trace s ++ calls 0 [1] ++ calls 0 [2] ++ calls 0 [3].
Proof.
  intros s.
  destruct (C8_invalid_suspends 2 s 0 _ eq_refl eq_refl) as (A & B & _ & C & D).
  destruct (A (VNum 9)) as (A1 & A2 & A3).
  destruct (B (EFun (Ret (VNum 8)))) as (_ & B2 & _).
  destruct (C DYNAMIC (Some [1]) (Some [2]) (Some [3]) (Some [4]) (VNum 7)
              (evaluate 0 (VNum 5)
                 (with_trace (fun _ => trace s ++ calls 0 [1])
                    (with_cells (alter (set_TYPE DYNAMIC) 0) s))).2)
    as (C1 & C2 & C3);
    [discriminate | discriminate | reflexivity | reflexivity | reflexivity | reflexivity
    | reflexivity | reflexivity | reflexivity | reflexivity | vm_compute; lia
    | vm_compute; lia | vm_compute; reflexivity |].
  destruct (D false (Some [1]) (Some [2]) (Some [3]) (VNum 7)
              (evaluate 0 (VNum 5) (with_trace (fun _ => trace s ++ calls 0 [1]) s)).2)
    as (D1 & D2 & D3);
    [reflexivity | reflexivity | reflexivity | reflexivity | reflexivity
    | vm_compute; lia | vm_compute; reflexivity |].
  split; [by rewrite A1|]. split; [exact A2|]. split; [exact A3|]. split; [exact B2|].
  split; [exact C1|]. split; [exact C2|]. split; [exact C3|].
  split; [exact D1|]. split; [exact D2|]. exact D3.
Defined.

(** ** Finalize terminality *)

(** A filter that only computes, attached to a STATIC constant without
    filters whose listeners are user callbacks, outside a dispatch:
    [onFilterSub] returns (it only logs the console error) and the cell,
    still STATIC, stores the filtered value. *)
Lemma onFilterSub_static (n : nat) (c : nat) (s : State) (y : Cell) (v : Value)
    (id : nat) (g : Value -> Value) (first : bool) (ps us qs : option (list nat)) :
  cells s !! c = Some y -> frozen_at v y ->
  get_group preupdates y = user_group ps ->
  get_group updates y = user_group us ->
  get_group postupdates y = user_group qs ->
  updatesQueue s = None -> updatesInProgress s = false ->
  length (default [] us) < n ->
  (onFilterSub (S n) c (pure_filter id g) first s).1 = ROk tt /\
  cell_sat c (fun z => TYPE z = STATIC /\ VALUE z = g v)
    (onFilterSub (S n) c (pure_filter id g) first s).2.
Proof.
  intros Hy (Hty & Hey & Hfy & Hvy) Hps Hus Hqs Hq Hp Hn.
  unfold onFilterSub, ADD_FILTER, warn_static. mget Hy. rewrite Hty.
  rewrite decide_True by done. unfold console_error. mpure. mpure.
  match goal with |- context [update (S n) c false ?st] => set (s1 := st) end.
  pose (y1 := set_filters (add_to first (pure_filter id g) (filters y)) y).
  assert (cells s1 !! c = Some y1) as Hy1
    by (subst s1; cbn [with_cells with_console cells]; by rewrite list_lookup_alter_eq, Hy).
  assert (filters y1 = Some (map (fun p => pure_filter p.1 p.2) [(id, g)])) as Hf1
    by (subst y1; cbn; rewrite Hfy; by destruct first).
  destruct (evaluate_pure_filters c (VALUE y1)
              (with_trace (fun _ => trace s1 ++ calls c (default [] ps)) s1) y1 [(id, g)])
    as (s2 & Hev); try done.
  destruct (update_typed n c false y1 ps us qs ltac:(by cbn; rewrite Hty) Hps Hus Hqs Hn
              s1 s2 _ Hy1 Hq Hp Hev)
    as (s' & z & R & Hz & Hvz & Htz & _).
  rewrite R. cbn [fst snd]. split; [done|]. exists z. split; [done|].
  split; [by rewrite Htz|]. rewrite Hvz. cbn. by rewrite Hvy.
Qed.


